(** * snapchat-dl: the story downloader, embedded and verified

    The development follows the source files that carry the behaviour:

    - [snapchat_dl/snapchat_dl.py], class [SnapchatDL]: [get_stories],
      [valid_username], [media_type], [strf_time], [download_url], [download];
    - [snapchat_dl/downloader.py]: the free function [download_url];
    - [snapchat_dl/cli.py], [main]: the two passes that collect user names
      (from the batch file, from the prefix directory).

    Python text is modelled by [string], one [ascii] per code point, so the
    model covers the strings whose code points lie below U+0100.  The file
    system is the POSIX one ([os.path] is [posixpath]); regular files are a
    finite map from path to contents.  Effects (file system, network, sleep,
    logging, task submission) are threaded through a state-and-exception monad
    whose state also records the sequence of effects performed. *)

From Stdlib Require Import ZArith List Bool Ascii Lia.
From Stdlib Require Import Strings.Byte.
From Stdlib Require Import DecimalString.
From Stdlib Require DecimalZ.
From stdpp Require Import base option gmap strings.

Open Scope Z_scope.

(* ===================================================================== *)
(** * The Python runtime, as far as the sources use it                    *)
(* ===================================================================== *)

Module Py.

(** Exceptions, by class.  [HTTPError] is a subclass of
    [requests.exceptions.RequestException]; [NotModelled] marks templates
    of [str.format] and [strftime] that the program never uses. *)
Inductive exn : Type :=
| Exception (msg : string)
| AttributeError
| TypeError
| KeyError (key : string)
| IndexError
| ValueError
| OverflowError
| OSError
| FileExistsError
| FileNotFoundError
| HTTPError (status : Z)
| RequestException (msg : string)
| NotModelled (what : string).

(** [isinstance(e, requests.exceptions.RequestException)] *)
Definition is_RequestException (e : exn) : bool :=
  match e with
  | RequestException _ | HTTPError _ => true
  | _ => false
  end.

(** Results of pure but fallible Python expressions. *)
Inductive res (A : Type) : Type :=
| Ok (a : A)
| Raise (e : exn).
Arguments Ok {A} a.
Arguments Raise {A} e.

Definition rbind {A B} (r : res A) (k : A -> res B) : res B :=
  match r with
  | Ok a => k a
  | Raise e => Raise e
  end.

(** ** Characters *)

Definition code (c : ascii) : N := N_of_ascii c.

Definition between (lo hi : N) (c : ascii) : bool :=
  ((lo <=? code c) && (code c <=? hi))%N.

Definition is_ascii_digit (c : ascii) : bool := between 48 57 c.
Definition is_ascii_upper (c : ascii) : bool := between 65 90 c.
Definition is_ascii_lower (c : ascii) : bool := between 97 122 c.

(** The class [[A-Za-z0-9]]. *)
Definition is_ascii_alnum (c : ascii) : bool :=
  is_ascii_digit c || is_ascii_upper c || is_ascii_lower c.

(** [Py_UNICODE_ISALNUM] on U+0080..U+00FF: the letters (ª µ º À-Ö Ø-ö ø-ÿ)
    and the numeric characters (² ³ ¹ ¼ ½ ¾) of Latin-1. *)
Definition is_latin1_alnum (c : ascii) : bool :=
  (code c =? 170)%N || (code c =? 178)%N || (code c =? 179)%N ||
  (code c =? 181)%N || (code c =? 185)%N || (code c =? 186)%N ||
  between 188 190 c || between 192 214 c || between 216 246 c ||
  between 248 255 c.

(** [str.isalnum] of a one-character string. *)
Definition isalnum (c : ascii) : bool := is_ascii_alnum c || is_latin1_alnum c.

(** The regular-expression class [\w] of a [str] pattern (no [re.ASCII]
    flag): alphanumeric in the Unicode sense, or the underscore. *)
Definition re_word (c : ascii) : bool := isalnum c || (code c =? 95)%N.

(** [Py_UNICODE_ISSPACE] below U+0100. *)
Definition isspace (c : ascii) : bool :=
  between 9 13 c || between 28 32 c || (code c =? 133)%N || (code c =? 160)%N.

(** ** Strings *)

Fixpoint chars (s : string) : list ascii :=
  match s with
  | EmptyString => []
  | String c s' => c :: chars s'
  end.

Fixpoint of_chars (l : list ascii) : string :=
  match l with
  | [] => EmptyString
  | c :: l' => String c (of_chars l')
  end.

Definition str_is_empty (s : string) : bool :=
  match s with EmptyString => true | _ => false end.

(** [s[0:n]] for [0 <= n] *)
Fixpoint str_take (n : nat) (s : string) : string :=
  match n, s with
  | S n', String c s' => String c (str_take n' s')
  | _, _ => EmptyString
  end.

(** [s.startswith(c)] and [s.endswith(c)] for a one-character [c] *)
Definition startswith_char (c : ascii) (s : string) : bool :=
  match s with
  | String c' _ => Ascii.eqb c' c
  | EmptyString => false
  end.

Fixpoint endswith_char (c : ascii) (s : string) : bool :=
  match s with
  | EmptyString => false
  | String c' EmptyString => Ascii.eqb c' c
  | String _ s' => endswith_char c s'
  end.

(** [s.endswith(suffix)] *)
Fixpoint endswith (suffix s : string) : bool :=
  String.eqb s suffix ||
  match s with
  | EmptyString => false
  | String _ s' => endswith suffix s'
  end.

(** [str(n)] for an [int] *)
Definition str_of_Z (n : Z) : string := NilEmpty.string_of_int (Z.to_int n).

Definition digit_char (n : Z) : ascii := ascii_of_N (48 + Z.to_N n).

(** [%02d] *)
Definition pad2 (n : Z) : string :=
  String (digit_char (n / 10)) (String (digit_char (n mod 10)) EmptyString).

(** ** Regular expressions: the one pattern of the program

    [re.match(r"(?P<username>^[\w\.\_]+$)", s)].  The class is
    [\w], the dot and the underscore.  [$] (without [re.MULTILINE]) holds at
    the end of the subject and just before a newline that ends it. *)

Definition username_class (c : ascii) : bool :=
  re_word c || (code c =? 46)%N || (code c =? 95)%N.

Definition at_dollar (rest : string) : bool :=
  match rest with
  | EmptyString => true
  | String c EmptyString => (code c =? 10)%N
  | _ => false
  end.

(** The greedy repetition followed by [$], with backtracking: take one more
    character of the class when the rest of the pattern still matches after
    it, otherwise try [$] here.  The result is the number of characters the
    repetition took. *)
Fixpoint re_star_dollar (s : string) : option nat :=
  match s with
  | String c s' =>
      if username_class c then
        match re_star_dollar s' with
        | Some n => Some (S n)
        | None => if at_dollar s then Some 0%nat else None
        end
      else if at_dollar s then Some 0%nat else None
  | EmptyString => if at_dollar s then Some 0%nat else None
  end.

(** [re.match] anchors at position 0, where [^] holds; [+] needs one
    character of the class first.  The result is the text of the group
    [username] (here the whole match). *)
Definition re_match_username (s : string) : option string :=
  match s with
  | String c s' =>
      if username_class c then
        match re_star_dollar s' with
        | Some n => Some (str_take (S n) s)
        | None => None
        end
      else None
  | EmptyString => None
  end.

(** ** [int(s)] for a [str]

    Surrounding white space is dropped, one sign is allowed, and the digits
    may be grouped by single underscores (CPython 3.6 and later).  The white
    space [int] drops is not the one of [str.strip]: below U+007F it is the
    ASCII class (tab to carriage return, and the space), above it the Unicode
    one (U+0085 and U+00A0), so the separators U+001C..U+001F are refused.
    More than 4300 digits are refused (the limit on conversions, CPython 3.11
    and the security releases of 3.7 to 3.10). *)

Fixpoint lstrip (s : string) : string :=
  match s with
  | String c s' => if isspace c then lstrip s' else s
  | EmptyString => EmptyString
  end.

Definition str_rev (s : string) : string := of_chars (rev (chars s)).

Definition strip (s : string) : string := str_rev (lstrip (str_rev (lstrip s))).

Fixpoint int_digits (acc : Z) (after_digit : bool) (s : string) : option Z :=
  match s with
  | EmptyString => if after_digit then Some acc else None
  | String c s' =>
      if is_ascii_digit c then
        int_digits (10 * acc + (Z.of_N (code c) - 48)) true s'
      else if (code c =? 95)%N && after_digit then int_digits acc false s'
      else None
  end.

Definition int_space (c : ascii) : bool :=
  between 9 13 c || (code c =? 32)%N || (code c =? 133)%N || (code c =? 160)%N.

Fixpoint int_lstrip (s : string) : string :=
  match s with
  | String c s' => if int_space c then int_lstrip s' else s
  | EmptyString => EmptyString
  end.

Definition int_strip (s : string) : string :=
  str_rev (int_lstrip (str_rev (int_lstrip s))).

Definition max_str_digits : Z := 4300.

Definition digit_count (s : string) : Z :=
  Z.of_nat (List.length (List.filter is_ascii_digit (chars s))).

Definition int_of_str (s : string) : res Z :=
  let t := int_strip s in
  let parsed :=
    match t with
    | String c t' =>
        if (code c =? 45)%N then option_map Z.opp (int_digits 0 false t')
        else if (code c =? 43)%N then int_digits 0 false t'
        else int_digits 0 false t
    | EmptyString => None
    end in
  match parsed with
  | Some n => if max_str_digits <? digit_count t then Raise ValueError else Ok n
  | None => Raise ValueError
  end.

(** ** [str.format] with automatic numbering

    Every [{}] of the template takes the next argument; the arguments are
    already converted with [str].  Other uses of braces do not occur in the
    templates of the program. *)
Fixpoint format (tmpl : string) (args : list string) : res string :=
  match tmpl with
  | EmptyString => Ok EmptyString
  | String c t =>
      if (code c =? 123)%N then
        match t with
        | String d t' =>
            if (code d =? 125)%N then
              match args with
              | a :: args' => rbind (format t' args') (fun r => Ok (a +:+ r))
              | [] => Raise IndexError
              end
            else Raise (NotModelled "format field")
        | EmptyString => Raise ValueError
        end
      else if (code c =? 125)%N then Raise (NotModelled "format field")
      else rbind (format t args) (fun r => Ok (String c r))
  end.

(** The characters [str.format] interprets. *)
Definition is_brace (c : ascii) : bool :=
  (code c =? 123)%N || (code c =? 125)%N.

Definition no_braces (s : string) : bool :=
  forallb (fun c => negb (is_brace c)) (chars s).

(** ** Values decoded from JSON

    [json.loads] yields [None], [bool], [int], [str], [list] and [dict]
    (numbers with a fraction, which become [float], are left out; an [int]
    has at most 4300 digits, more are refused by the decoder).  A [dict] is
    the list of its items, keys distinct. *)
#[warnings="-register-all"] Inductive value : Type :=
| VNone
| VBool (b : bool)
| VInt (n : Z)
| VStr (s : string)
| VList (l : list value)
| VDict (items : list (string * value)).

Fixpoint assoc (k : string) (items : list (string * value)) : option value :=
  match items with
  | [] => None
  | (k', v) :: rest => if String.eqb k' k then Some v else assoc k rest
  end.

(** [v.get(k)] *)
Definition get (v : value) (k : string) : res value :=
  match v with
  | VDict items =>
      match assoc k items with
      | Some x => Ok x
      | None => Ok VNone
      end
  | _ => Raise AttributeError
  end.

(** [v[k]] for a [str] key *)
Definition getitem (v : value) (k : string) : res value :=
  match v with
  | VDict items =>
      match assoc k items with
      | Some x => Ok x
      | None => Raise (KeyError k)
      end
  | _ => Raise TypeError
  end.

(** [v[0:n]] for [0 <= n].  A [dict] cannot be sliced (before CPython 3.12 a
    slice is not hashable, which is a [TypeError]). *)
Definition slice0 (v : value) (n : Z) : res value :=
  match v with
  | VList l => Ok (VList (firstn (Z.to_nat n) l))
  | VStr s => Ok (VStr (str_take (Z.to_nat n) s))
  | _ => Raise TypeError
  end.

(** [len(v)] *)
Definition len (v : value) : res nat :=
  match v with
  | VList l => Ok (List.length l)
  | VStr s => Ok (String.length s)
  | VDict items => Ok (List.length items)
  | _ => Raise TypeError
  end.

(** The items a [for] loop over [v] visits. *)
Definition iter (v : value) : res (list value) :=
  match v with
  | VList l => Ok l
  | VStr s => Ok (map (fun c => VStr (String c EmptyString)) (chars s))
  | VDict items => Ok (map (fun kv => VStr (fst kv)) items)
  | _ => Raise TypeError
  end.

(** [int(v)] *)
Definition int (v : value) : res Z :=
  match v with
  | VInt n => Ok n
  | VBool b => Ok (if b then 1 else 0)
  | VStr s => int_of_str s
  | _ => Raise TypeError
  end.

(** [repr(s)] for a [str]: single quotes unless the text has a single quote
    and no double quote; the quote in use and the backslash are escaped, tab,
    newline and carriage return are written [\t], [\n], [\r], and the other
    characters that are not printable as [\xhh]. *)
Definition isprintable (c : ascii) : bool :=
  between 32 126 c || between 161 172 c || between 174 255 c.

Definition hex_digit (n : N) : ascii :=
  if (n <? 10)%N then ascii_of_N (48 + n) else ascii_of_N (87 + n).

Definition backslash : ascii := ascii_of_N 92.

Definition repr_char (quote c : ascii) : string :=
  if Ascii.eqb c quote || Ascii.eqb c backslash then
    String backslash (String c EmptyString)
  else if (code c =? 9)%N then String backslash "t"
  else if (code c =? 10)%N then String backslash "n"
  else if (code c =? 13)%N then String backslash "r"
  else if isprintable c then String c EmptyString
  else String backslash
         (String "x" (String (hex_digit (code c / 16))
                        (String (hex_digit (code c mod 16)) EmptyString))).

Definition single_quote : ascii := ascii_of_N 39.
Definition double_quote : ascii := ascii_of_N 34.

Definition repr_quote (s : string) : ascii :=
  if existsb (Ascii.eqb single_quote) (chars s)
     && negb (existsb (Ascii.eqb double_quote) (chars s))
  then double_quote else single_quote.

Definition repr_str (s : string) : string :=
  let quote := repr_quote s in
  String quote
    (fold_right (fun c rest => repr_char quote c +:+ rest)
                (String quote EmptyString) (chars s)).

(** [", ".join(l)] *)
Fixpoint join_comma (l : list string) : string :=
  match l with
  | [] => EmptyString
  | [x] => x
  | x :: rest => x +:+ ", " +:+ join_comma rest
  end.

(** [repr(v)] *)
Fixpoint repr (v : value) : string :=
  match v with
  | VNone => "None"
  | VBool true => "True"
  | VBool false => "False"
  | VInt n => str_of_Z n
  | VStr s => repr_str s
  | VList l => "[" +:+ join_comma (map repr l) +:+ "]"
  | VDict items =>
      "{" +:+
      join_comma
        (map (fun kv => match kv with
                        | (k, x) => repr_str k +:+ ": " +:+ repr x
                        end) items)
      +:+ "}"
  end.

(** [str(v)], as [str.format] applies it to an argument: the text itself
    for a [str], the [repr] otherwise. *)
Definition str (v : value) : res string :=
  match v with
  | VStr s => Ok s
  | _ => Ok (repr v)
  end.

(** [str] of an optional text: [None] prints as the four letters. *)
Definition str_opt (o : option string) : string :=
  match o with
  | Some s => s
  | None => "None"
  end.

(** ** [datetime]

    [datetime.utcfromtimestamp(t)] is the broken-down time of [t] seconds
    after the epoch in UTC, in the proleptic Gregorian calendar and without
    leap seconds; the local time zone of the machine is not an input.  A
    time stamp that does not fit the 64-bit [time_t] is an [OverflowError];
    one that [gmtime] of glibc refuses (its year does not fit the [int] of
    [struct tm]) is an [OSError]; a year outside 1..9999 is a [ValueError]. *)

Record datetime : Type := {
  year : Z; month : Z; day : Z;
  hour : Z; minute : Z; second : Z
}.

(** Day number (days since 1970-01-01) to year, month, day. *)
Definition civil_from_days (z : Z) : Z * Z * Z :=
  let z := z + 719468 in
  let era := z / 146097 in
  let doe := z - era * 146097 in
  let yoe := (doe - doe / 1460 + doe / 36524 - doe / 146096) / 365 in
  let doy := doe - (365 * yoe + yoe / 4 - yoe / 100) in
  let mp := (5 * doy + 2) / 153 in
  let d := doy - (153 * mp + 2) / 5 + 1 in
  let m := if mp <? 10 then mp + 3 else mp - 9 in
  let y := yoe + era * 400 + (if m <=? 2 then 1 else 0) in
  (y, m, d).

Definition min_timestamp : Z := -62135596800.
Definition max_timestamp : Z := 253402300799.

(** The broken-down UTC time of [t]. *)
Definition utc_fields (t : Z) : datetime :=
  let '(y, m, d) := civil_from_days (t / 86400) in
  let s := t mod 86400 in
  {| year := y; month := m; day := d;
     hour := s / 3600; minute := (s mod 3600) / 60; second := s mod 60 |}.

(** The range of [time_t], and the time stamps [gmtime] converts. *)
Definition min_time_t : Z := - 2 ^ 63.
Definition max_time_t : Z := 2 ^ 63 - 1.
Definition min_gmtime : Z := -67768040609740800.
Definition max_gmtime : Z := 67768036191676799.

Definition utcfromtimestamp (t : Z) : res datetime :=
  if (t <? min_time_t) || (max_time_t <? t) then Raise OverflowError
  else if (t <? min_gmtime) || (max_gmtime <? t) then Raise OSError
  else if (min_timestamp <=? t) && (t <=? max_timestamp) then Ok (utc_fields t)
  else Raise ValueError.

(** One directive of [strftime]; [%Y] is not padded (glibc). *)
Definition directive (dt : datetime) (d : ascii) : res string :=
  match code d with
  | 89%N => Ok (str_of_Z (year dt))
  | 109%N => Ok (pad2 (month dt))
  | 100%N => Ok (pad2 (day dt))
  | 72%N => Ok (pad2 (hour dt))
  | 77%N => Ok (pad2 (minute dt))
  | 83%N => Ok (pad2 (second dt))
  | 37%N => Ok "%"
  | _ => Raise (NotModelled "strftime directive")
  end.

(** [dt.strftime(fmt)]: directives are replaced, other text is copied. *)
Fixpoint strftime (dt : datetime) (fmt : string) : res string :=
  match fmt with
  | EmptyString => Ok EmptyString
  | String c t =>
      if (code c =? 37)%N then
        match t with
        | String d t' =>
            rbind (directive dt d) (fun x =>
            rbind (strftime dt t') (fun r => Ok (x +:+ r)))
        | EmptyString => Raise (NotModelled "strftime directive")
        end
      else rbind (strftime dt t) (fun r => Ok (String c r))
  end.

(** ** [os.path] (posixpath) *)

Definition slash : ascii := ascii_of_N 47.

(** One step of [os.path.join]: an absolute component replaces the path. *)
Definition join2 (path b : string) : string :=
  if startswith_char slash b then b
  else if str_is_empty path || endswith_char slash path then path +:+ b
  else path +:+ String slash b.

(** [os.path.join(a, *p)] *)
Definition join (a : string) (p : list string) : string := fold_left join2 p a.

(** [p[:p.rfind('/') + 1]] *)
Fixpoint upto_last_slash (p : string) : string :=
  match p with
  | EmptyString => EmptyString
  | String c p' =>
      let h := upto_last_slash p' in
      if Ascii.eqb c slash || negb (str_is_empty h) then String c h
      else EmptyString
  end.

Fixpoint all_slashes (s : string) : bool :=
  match s with
  | EmptyString => true
  | String c s' => Ascii.eqb c slash && all_slashes s'
  end.

(** [s.rstrip('/')] *)
Fixpoint rstrip_slashes (s : string) : string :=
  match s with
  | EmptyString => EmptyString
  | String c s' =>
      let r := rstrip_slashes s' in
      if Ascii.eqb c slash && str_is_empty r then EmptyString else String c r
  end.

(** [os.path.dirname(p)] *)
Definition dirname (p : string) : string :=
  let head := upto_last_slash p in
  if negb (str_is_empty head) && negb (all_slashes head)
  then rstrip_slashes head else head.

(** ** Equality

    [a == b] where at least one side is not a container.  Values of
    unrelated types are never equal: an [int] never equals a [str]. *)
Definition eq (a b : value) : bool :=
  match a, b with
  | VNone, VNone => true
  | VBool x, VBool y => Bool.eqb x y
  | VInt x, VInt y => x =? y
  | VBool x, VInt y | VInt y, VBool x => (if x then 1 else 0) =? y
  | VStr x, VStr y => String.eqb x y
  | _, _ => false
  end.

End Py.

(* ===================================================================== *)
(** * The world: files, the network, and the effects performed           *)
(* ===================================================================== *)

Module World.
Import Py.

(** What a worker or the orchestrator does to its surroundings, in order. *)
Inductive event : Type :=
| EMakedirs (dir : string)
| ERemove (path : string)
| ESleep (seconds : Z)
| EGet (url : string)
| ECreate (path : string)
| EWrite (path : string) (data : list byte)
| ELog (e : exn)
| EPrint (text : string)
| EPrintRed (e : exn)
| EProgressbar (total : nat) (desc info : string)
| ESubmit (url : value) (dest : string).

(** A response of [requests.get(..., stream=True)]: the status line, the
    [Content-length] header when the server sent one (header values are
    [str]), the decoded JSON body when the body is JSON, and the body as
    [iter_content] delivers it: some chunks, then the end of the stream or
    an exception. *)
Record response : Type := {
  status_code : Z;
  content_length : option string;
  json_body : option value;
  body : list (list byte);
  body_error : option exn
}.

(** [requests.get] raises a [RequestException] (no connection, time-out,
    malformed URL) or answers. *)
Inductive reply : Type :=
| Failed (msg : string)
| Answered (r : response).

Abbreviation network := (string -> reply).

(** Regular files by path, the effects so far (oldest first), and the local
    time zone of the machine as an offset from UTC in seconds (what
    [datetime.fromtimestamp] would consult). *)
Record world : Type := {
  files : gmap string (list byte);
  trace : list event;
  utc_offset : Z
}.

(** Computations: state passing, with exceptions. *)
Definition M (A : Type) : Type := world -> res A * world.

Definition ret {A} (a : A) : M A := fun w => (Ok a, w).
Definition raise {A} (e : exn) : M A := fun w => (Raise e, w).
Definition bind {A B} (m : M A) (k : A -> M B) : M B :=
  fun w =>
    match m w with
    | (Ok a, w') => k a w'
    | (Raise e, w') => (Raise e, w')
    end.
Definition lift {A} (r : res A) : M A := fun w => (r, w).

Notation "'let*' x ':=' m 'in' k" := (bind m (fun x => k))
  (at level 10, x name, m at level 100, k at level 200).

(** [if c: body] *)
Definition when (c : M bool) (body : M unit) : M unit :=
  let* b := c in if b then body else ret tt.

(** [a and b], which evaluates [b] only when [a] holds *)
Definition and_then (a b : M bool) : M bool :=
  let* x := a in if x then b else ret false.

(** [try: body except RequestException as e: handler(e)] *)
Definition try_except_RequestException {A}
    (body : M A) (handler : exn -> M A) : M A :=
  fun w =>
    match body w with
    | (Raise e, w') =>
        if is_RequestException e then handler e w' else (Raise e, w')
    | r => r
    end.

(** [w] after the effects [es], and [w] with the files [f]. *)
Definition extend (w : world) (es : list event) : world :=
  {| files := files w; trace := trace w ++ es; utc_offset := utc_offset w |}.

Definition store (w : world) (f : gmap string (list byte)) : world :=
  {| files := f; trace := trace w; utc_offset := utc_offset w |}.

Definition emit (e : event) : M unit := fun w => (Ok tt, extend w [e]).

Definition set_files (f : gmap string (list byte)) : M unit :=
  fun w => (Ok tt, store w f).

Definition get_files : M (gmap string (list byte)) := fun w => (Ok (files w), w).

(** [os.makedirs(d, exist_ok=True)].  Directories are not part of the
    state: the directories of a world are the ancestors of its files, and
    the model describes the worlds in which no regular file lies at [d] or
    above it (see [creatable]).  There any directory can be made, except
    the one with the empty name. *)
Definition makedirs_exist_ok (d : string) : M unit :=
  if str_is_empty d then raise FileNotFoundError else emit (EMakedirs d).

(** [os.path.isfile(p)] *)
Definition isfile (p : string) : M bool :=
  let* f := get_files in
  ret (bool_decide (is_Some (f !! p))).

(** [os.path.getsize(p)] *)
Definition getsize (p : string) : M Z :=
  let* f := get_files in
  match f !! p with
  | Some content => ret (Z.of_nat (List.length content))
  | None => raise FileNotFoundError
  end.

(** [os.remove(p)] *)
Definition remove (p : string) : M unit :=
  let* f := get_files in
  match f !! p with
  | Some _ => let* _ := set_files (delete p f) in emit (ERemove p)
  | None => raise FileNotFoundError
  end.

(** [time.sleep(secs)] *)
Definition sleep (secs : Z) : M unit :=
  if secs <? 0 then raise ValueError else emit (ESleep secs).

(** [requests.get(url, stream=True, timeout=10)] of the workers and
    [requests.get(api_url)] of [get_stories] *)
Definition requests_get (net : network) (url : string) : M response :=
  let* _ := emit (EGet url) in
  match net url with
  | Failed msg => raise (RequestException msg)
  | Answered r => ret r
  end.

(** [response.raise_for_status()] raises [HTTPError] for 4xx and 5xx and
    returns [None] otherwise; [raise None] is a [TypeError]. *)
Definition raise_raise_for_status {A} (r : response) : M A :=
  if (400 <=? status_code r) && (status_code r <? 600)
  then raise (HTTPError (status_code r))
  else raise TypeError.

(** [response.headers["Content-length"]] *)
Definition header_content_length (r : response) : M value :=
  match content_length r with
  | Some h => ret (VStr h)
  | None => raise (KeyError "content-length")
  end.

(** [response.json()] *)
Definition response_json (r : response) : M value :=
  match json_body r with
  | Some v => ret v
  | None => raise ValueError
  end.

(** [open(p, "xb")]: exclusive creation.  The model describes the paths
    that can name a file in their world (see [creatable]). *)
Definition open_xb (p : string) : M unit :=
  let* f := get_files in
  match f !! p with
  | Some _ => raise FileExistsError
  | None => let* _ := set_files (<[p := []]> f) in emit (ECreate p)
  end.

(** [handle.write(data)] on the handle of [p] *)
Definition write (p : string) (data : list byte) : M unit :=
  let* f := get_files in
  let* _ := set_files (alter (fun old => old ++ data) p f) in
  emit (EWrite p data).

(** [for data in response.iter_content(chunk_size=4194304):
       handle.write(data)] *)
Fixpoint write_chunks (p : string) (chunks : list (list byte)) : M unit :=
  match chunks with
  | [] => ret tt
  | data :: rest => let* _ := write p data in write_chunks p rest
  end.

Definition stream_to (p : string) (r : response) : M unit :=
  let* _ := write_chunks p (body r) in
  match body_error r with
  | Some e => raise e
  | None => ret tt
  end.

(** [for x in items: body(x)] *)
Fixpoint for_each {A} (items : list A) (body : A -> M unit) : M unit :=
  match items with
  | [] => ret tt
  | x :: rest => let* _ := body x in for_each rest body
  end.

Definition empty_world : world :=
  {| files := ∅; trace := []; utc_offset := 0 |}.

(** ** Vocabulary of the statements *)

(** The directory [downloader.download_url] makes for [dest], if any. *)
Definition made_dirs (dest : string) : list event :=
  if 0 <? Z.of_nat (String.length (dirname dest))
  then [EMakedirs (dirname dest)] else [].

(** The removal of the file found at [dest], if any. *)
Definition removed_first (w : world) (dest : string) : list event :=
  match files w !! dest with
  | Some _ => [ERemove dest]
  | None => []
  end.


(** No file, or an empty one, at [dest]. *)
Definition vacant (w : world) (dest : string) : Prop :=
  forall c, files w !! dest = Some c -> c = [].

(** Every run of [m] adds only events that satisfy [P]. *)
Definition emits {A} (P : event -> Prop) (m : M A) : Prop :=
  forall w, exists es, trace (snd (m w)) = trace w ++ es /\ Forall P es.

(** Whatever [m] raises satisfies [Q]. *)
Definition raises_only {A} (Q : exn -> Prop) (m : M A) : Prop :=
  forall w e w', m w = (Raise e, w') -> Q e.

(** Every run of [m] leaves the files other than [dest] as they were. *)
Definition touches_only {A} (dest : string) (m : M A) : Prop :=
  forall w p, p <> dest -> files (snd (m w)) !! p = files w !! p.

(** Exceptions of a proper subclass: not a bare [Exception(...)]. *)
Definition not_bare (e : exn) : Prop :=
  match e with Exception _ => False | _ => True end.

Definition not_get (e : event) : Prop :=
  match e with EGet _ => False | _ => True end.

Definition not_sleep (e : event) : Prop :=
  match e with ESleep _ => False | _ => True end.



End World.

(* ===================================================================== *)
(** * snapchat_dl/downloader.py                                          *)
(* ===================================================================== *)

Module Downloader.
Import Py World.

(** [download_url(url, dest, sleep_interval)] *)
Definition download_url (net : network)
    (url dest : string) (sleep_interval : Z) : M unit :=
  let* _ :=
    if (0 <? Z.of_nat (String.length (dirname dest)))
    then makedirs_exist_ok (dirname dest)
    else ret tt in
  let* _ :=
    when (and_then (isfile dest)
                   (let* size := getsize dest in ret (size =? 0)))
         (remove dest) in
  (* Rate limiting. *)
  let* _ := sleep sleep_interval in
  let* response := requests_get net url in
  let* _ :=
    if negb (status_code response =? 200)
    then raise_raise_for_status response
    else ret tt in
  let* _ :=
    when (and_then (isfile dest)
                   (let* size := getsize dest in
                    let* declared := header_content_length response in
                    ret (eq (VInt size) declared)))
         (raise FileExistsError) in
  let* _ := open_xb dest in
  try_except_RequestException
    (stream_to dest response)
    (fun e => emit (ELog e)).

End Downloader.

(* ===================================================================== *)
(** * snapchat_dl/snapchat_dl.py                                         *)
(* ===================================================================== *)

Module SnapchatDL.
Import Py World.

(** The attributes [__init__] sets from its arguments. *)
Record t : Type := {
  directory_prefix : string;
  max_workers : Z;
  limit_story : Z;
  no_progress : bool
}.

(** [self.endpoint]: the string literal on the following source line is a
    statement of its own and is not part of the value. *)
Definition endpoint : string := "https://storysharing.snapchat.com/v1/fetch/{}".

(** [self.reaponse_ok = requests.codes.get("ok")] *)
Definition reaponse_ok : Z := 200.

(** The dict [get_stories] returns. *)
Record stories_reply : Type := {
  stories_available : bool;
  data : option value
}.

Definition get_stories (net : network) (username : string) : M stories_reply :=
  let* api_url := lift (format endpoint [username]) in
  let* response := requests_get net api_url in
  if negb (status_code response =? 200) then
    ret {| stories_available := false; data := None |}
  else
    let* json := response_json response in
    ret {| stories_available := true; data := Some json |}.

Definition valid_username (username : string) : bool :=
  match re_match_username username with
  | None => false
  | Some group => String.eqb group username
  end.

(** [media_type]: falling off the end of the function returns [None]. *)
Definition media_type (media_type : value) : option string :=
  if eq media_type (VStr "IMAGE") then Some ".jpg"
  else if eq media_type (VStr "VIDEO") then Some ".mp4"
  else if eq media_type (VStr "VIDEO_NO_SOUND") then Some ".mp4"
  else None.

Definition strf_time (timestamp : Z) (format_str : string) : res string :=
  rbind (utcfromtimestamp timestamp) (fun dt => strftime dt format_str).

(** The method [download_url(self, url, dest)] *)
Definition download_url (net : network) (url dest : string) : M unit :=
  let* _ := makedirs_exist_ok (dirname dest) in
  let* _ :=
    when (and_then (isfile dest)
                   (let* size := getsize dest in ret (size =? 0)))
         (remove dest) in
  let* _ := open_xb dest in
  let* response := requests_get net url in
  let* _ :=
    if negb (status_code response =? reaponse_ok)
    then raise_raise_for_status response
    else ret tt in
  let* _ :=
    when (let* size := getsize dest in
          let* declared := header_content_length response in
          ret (eq (VInt size) declared))
         (raise FileExistsError) in
  try_except_RequestException
    (stream_to dest response)
    (fun e => let* _ := emit (EPrintRed e) in remove dest).

Definition _progressbar (self : t) (total : nat) (desc info : string) : M unit :=
  if negb (no_progress self) then emit (EProgressbar total desc info)
  else ret tt.

(** [ThreadPoolExecutor(max_workers=n)] *)
Definition ThreadPoolExecutor (n : Z) : M unit :=
  if n <=? 0 then raise ValueError else ret tt.

Definition esc : ascii := ascii_of_N 27.

(** ["\033[91m[-] {} has no stories\033[0m"] *)
Definition no_stories_template : string :=
  String esc "[91m[-] {} has no stories" +:+ String esc "[0m".

(** The body of the loop over the stories, up to the submission: the
    arguments [media_url] and [output] of the task. *)
Definition media_task (self : t) (username : string) (media : value)
    : res (value * string) :=
  rbind (getitem media "media") (fun m =>
  rbind (getitem m "mediaUrl") (fun media_url =>
  rbind (getitem media "captureTimeSecs") (fun captured =>
  rbind (int captured) (fun timestamp =>
  rbind (strf_time timestamp "%Y-%m-%d") (fun date_str =>
  rbind (getitem media "media") (fun m' =>
  rbind (getitem m' "type") (fun type =>
  let file_ext := media_type type in
  let dir_name := join (directory_prefix self) [username; date_str] in
  rbind (strf_time timestamp "%Y-%m-%d_%H-%M-%S {} {}{}") (fun template =>
  rbind (get media "id") (fun id =>
  rbind (str id) (fun id_text =>
  rbind (format template [id_text; username; str_opt file_ext]) (fun filename =>
  let output := join dir_name [filename] in
  Ok (media_url, output)))))))))))).

(** [executor.submit(self.download_url, media_url, output)]: the task runs
    in a worker thread; what it raises stays in its future, which nobody
    inspects. *)
Definition submit_media (self : t) (username : string) (media : value) : M unit :=
  let* task := lift (media_task self username media) in
  emit (ESubmit (fst task) (snd task)).

Definition download (self : t) (net : network) (username : string) : M bool :=
  if negb (valid_username username) then raise (Exception "invalid username")
  else
    let* response := get_stories net username in
    if negb (stories_available response) then
      let* line := lift (format no_stories_template [username]) in
      let* _ := emit (EPrint line) in
      ret false
    else
      let* data :=
        match data response with
        | Some d => ret d
        | None => raise (KeyError "data")
        end in
      let* story := lift (get data "story") in
      let* stories := lift (get story "snaps") in
      let* limited :=
        if limit_story self >? -1 then
          let* cut := lift (slice0 stories (limit_story self)) in
          let* n := lift (len cut) in
          ret (cut, " of " +:+ str_of_Z (Z.of_nat n))
        else ret (stories, EmptyString) in
      let stories := fst limited in
      let limited_info := snd limited in
      let* total := lift (len stories) in
      let* _ := _progressbar self total username limited_info in
      let* _ := ThreadPoolExecutor (max_workers self) in
      let* items := lift (iter stories) in
      let* _ := for_each items (submit_media self username) in
      ret true.

(** ** Vocabulary of the statements *)

(** The address [get_stories] requests. *)
Definition api_url (username : string) : string :=
  "https://storysharing.snapchat.com/v1/fetch/" +:+ username.

(** The line [download] prints for a user without stories. *)
Definition no_stories_line (username : string) : string :=
  String esc "[91m[-] " +:+ username +:+ " has no stories" +:+ String esc "[0m".

(** [YYYY-MM-DD] and [HH-MM-SS] of a broken-down time. *)
Definition date_text (dt : datetime) : string :=
  str_of_Z (year dt) +:+ "-" +:+ pad2 (month dt) +:+ "-" +:+ pad2 (day dt).

Definition time_text (dt : datetime) : string :=
  pad2 (hour dt) +:+ "-" +:+ pad2 (minute dt) +:+ "-" +:+ pad2 (second dt).

(** The name of the file of one item, and its path. *)
Definition file_name (username : string) (dt : datetime)
    (id_text ext : string) : string :=
  date_text dt +:+ "_" +:+ time_text dt +:+ " " +:+ id_text +:+ " "
  +:+ username +:+ ext.

Definition destination (self : t) (username : string) (dt : datetime)
    (id_text ext : string) : string :=
  join (join (directory_prefix self) [username; date_text dt])
       [file_name username dt id_text ext].

(** The stories [download] keeps under its limit. *)
Definition kept (limit : Z) (snaps : list value) : list value :=
  if limit >? -1 then firstn (Z.to_nat limit) snaps else snaps.

(** The progress bar [download] opens for the stories it keeps. *)
Definition progress (self : t) (username : string) (items : list value)
    : list event :=
  if no_progress self then []
  else [EProgressbar (List.length items) username
          (if limit_story self >? -1
           then " of " +:+ str_of_Z (Z.of_nat (List.length items))
           else EmptyString)].


(** The events that hand tasks to the pool. *)
Definition submissions (tasks : list (value * string)) : list event :=
  map (fun task => ESubmit (fst task) (snd task)) tasks.

End SnapchatDL.

(* ===================================================================== *)
(** * snapchat_dl/cli.py                                                  *)
(* ===================================================================== *)

(** Of [main], the two passes that collect user names before anything is
    downloaded.  What the operating system returns is an argument. *)
Module Cli.
Import Py.

Definition newline : ascii := ascii_of_N 10.

(** [s.split(sep)] for a one-character [sep]: the pieces between the
    separators, empty ones included. *)
Fixpoint split (sep : ascii) (s : string) : list string :=
  match s with
  | EmptyString => [EmptyString]
  | String c s' =>
      if Ascii.eqb c sep then EmptyString :: split sep s'
      else
        match split sep s' with
        | piece :: pieces => String c piece :: pieces
        | [] => [String c EmptyString]
        end
  end.

(** [x in l] for a list of [str] *)
Definition contains (l : list string) (x : string) : bool :=
  existsb (String.eqb x) l.

(** The loop over the batch file, [text] being what [f.read()] returned:
    [for username in f.read().split("\n"):
         if len(username.strip()) > 0:
             args.usernames.append(username.strip())] *)
Definition batch_file_usernames (text : string) (usernames : list string)
    : list string :=
  fold_left
    (fun usernames username =>
       if Z.of_nat (String.length (strip username)) >? 0
       then usernames ++ [strip username]
       else usernames)
    (split newline text) usernames.

(** The scan of the prefix directory.  [entries] is what
    [os.listdir(args.save_prefix)] returned and [isdir o] is
    [os.path.isdir(os.path.join(args.save_prefix, o))]; the result is
    [args.usernames] and [count] after the loop. *)
Definition scan_prefix_usernames (entries : list string)
    (isdir : string -> bool) (usernames : list string) : list string * Z :=
  fold_left
    (fun state username =>
       if negb (contains (fst state) username)
       then (fst state ++ [username], snd state + 1)
       else state)
    (List.filter (fun o => isdir o && negb (contains ["."; ".."] o)) entries)
    (usernames, 0).

(** ** Vocabulary of the statements *)

(** A file of one name per line, every line ended by a newline. *)
Definition lines (names : list string) : string :=
  fold_right (fun name rest => name +:+ String newline rest) EmptyString names.

(** A name as the batch pass stores it: not empty, no white space around
    it, no newline in it. *)
Definition stripped (name : string) : Prop :=
  name <> EmptyString /\ strip name = name /\ ~ In newline (chars name).

End Cli.

(* ===================================================================== *)
(** * The statements of the specification, in its own words              *)
(* ===================================================================== *)

Module Spec.
Import Py.

(** The class [[A-Za-z0-9_.]] of the specification's pattern. *)
Definition username_char (c : ascii) : bool :=
  is_ascii_alnum c || (code c =? 95)%N || (code c =? 46)%N.

(** A full match of [^[A-Za-z0-9_.]+$]: one character or more, all of
    them in the class. *)
Definition username_regex (s : string) : bool :=
  negb (str_is_empty s) && forallb username_char (chars s).

(** The proleptic Gregorian calendar: leap years, the length of the
    months, and the number of a day counted from 0001-01-01 as day 1. *)
Definition is_leap (y : Z) : bool :=
  ((y mod 4 =? 0) && negb (y mod 100 =? 0)) || (y mod 400 =? 0).

Definition days_before_year (y : Z) : Z :=
  let p := y - 1 in 365 * p + p / 4 - p / 100 + p / 400.

Definition days_in_month (y m : Z) : Z :=
  if m =? 2 then (if is_leap y then 29 else 28)
  else if (m =? 4) || (m =? 6) || (m =? 9) || (m =? 11) then 30 else 31.

Definition days_before_month (y m : Z) : Z :=
  match m with
  | 2 => 31 | 3 => 59 | 4 => 90 | 5 => 120 | 6 => 151 | 7 => 181
  | 8 => 212 | 9 => 243 | 10 => 273 | 11 => 304 | 12 => 334
  | _ => 0
  end
  + (if (2 <? m) && is_leap y then 1 else 0).

Definition ordinal (y m d : Z) : Z :=
  days_before_year y + days_before_month y m + d.

(** A date and a time of day that exist. *)
Definition valid_datetime (dt : datetime) : Prop :=
  1 <= year dt <= 9999 /\ 1 <= month dt <= 12 /\
  1 <= day dt <= days_in_month (year dt) (month dt) /\
  0 <= hour dt <= 23 /\ 0 <= minute dt <= 59 /\ 0 <= second dt <= 59.

(** Seconds from 1970-01-01 00:00:00 UTC to [dt] read as a UTC time
    ([calendar.timegm]); 1970-01-01 is day 719163. *)
Definition timegm (dt : datetime) : Z :=
  (ordinal (year dt) (month dt) (day dt) - 719163) * 86400
  + hour dt * 3600 + minute dt * 60 + second dt.

End Spec.

(* ===================================================================== *)
(** * Concrete inputs                                                     *)
(* ===================================================================== *)

Module Examples.
Import Py World.

Definition config : SnapchatDL.t :=
  {| SnapchatDL.directory_prefix := "."; SnapchatDL.max_workers := 2;
     SnapchatDL.limit_story := -1; SnapchatDL.no_progress := false |}.

Definition config_limit_2 : SnapchatDL.t :=
  {| SnapchatDL.directory_prefix := "."; SnapchatDL.max_workers := 2;
     SnapchatDL.limit_story := 2; SnapchatDL.no_progress := true |}.

Definition snap (id stamp url type : string) : value :=
  VDict [("id", VStr id); ("captureTimeSecs", VStr stamp);
         ("media", VDict [("mediaUrl", VStr url); ("type", VStr type)])].

Definition snap_a : value := snap "a1" "1593455123" "https://cdn/a" "IMAGE".
Definition snap_b : value := snap "b2" "1593455200" "https://cdn/b" "VIDEO".
Definition snap_c : value := snap "c3" "0" "https://cdn/c" "VIDEO_NO_SOUND".
Definition snap_gif : value := snap "g4" "0" "https://cdn/g" "GIF".

Definition json_reply (status : Z) (json : option value) : response :=
  {| status_code := status; content_length := None; json_body := json;
     body := []; body_error := None |}.

Definition manifest (snaps : list value) : value :=
  VDict [("story", VDict [("snaps", VList snaps)])].

(** A network that answers every request with [r]. *)
Definition always (r : response) : network := fun _ => Answered r.

(** A media response of three bytes in two chunks. *)
Definition media_reply (error : option exn) : response :=
  {| status_code := 200; content_length := Some "3"; json_body := None;
     body := [[x01; x02]%byte; [x03]%byte]; body_error := error |}.

(** An empty media response. *)
Definition empty_reply : response :=
  {| status_code := 200; content_length := Some "0"; json_body := None;
     body := []; body_error := None |}.

Definition world_with (path : string) (content : list byte) : world :=
  {| files := {[ path := content ]}; trace := []; utc_offset := 0 |}.

(** The one-letter name U+00E9, a letter outside ASCII. *)
Definition e_acute : string := String (ascii_of_N 233) EmptyString.

End Examples.

(* ===================================================================== *)
(** * Properties                                                          *)
(* ===================================================================== *)

Import Py World.

(** ** Strings and the pattern of user names *)

Lemma of_chars_chars (s : string) : of_chars (chars s) = s.
Proof. induction s as [|c s IH]; simpl; [reflexivity | now rewrite IH]. Qed.

Lemma chars_append (s t : string) : chars (s +:+ t) = chars s ++ chars t.
Proof. induction s as [|c s IH]; simpl; [reflexivity | now rewrite IH]. Qed.

Lemma str_take_length (s : string) : str_take (String.length s) s = s.
Proof. induction s as [|c s IH]; simpl; [reflexivity | now rewrite IH]. Qed.

(** A newline is not in the class, so [$] never holds in front of a
    character of the class. *)
Lemma at_dollar_class (c : ascii) (s : string) :
  username_class c = true -> at_dollar (String c s) = false.
Proof.
  intros Hc. destruct s as [|d s]; simpl; [|reflexivity].
  destruct (code c =? 10)%N eqn:E; [|reflexivity].
  apply N.eqb_eq in E. unfold code in E.
  apply (f_equal ascii_of_N) in E. rewrite ascii_N_embedding in E.
  subst c. discriminate Hc.
Qed.

(** The repetition takes every character when all are in the class. *)
Lemma re_star_dollar_all (s : string) :
  forallb username_class (chars s) = true ->
  re_star_dollar s = Some (String.length s).
Proof.
  induction s as [|c s IH]; simpl; [reflexivity|].
  intros H. apply andb_true_iff in H as [Hc Hs].
  now rewrite Hc, (IH Hs).
Qed.

(** What the repetition took consists of characters of the class. *)
Lemma re_star_dollar_prefix (s : string) (n : nat) :
  re_star_dollar s = Some n ->
  forallb username_class (chars (str_take n s)) = true.
Proof.
  revert n. induction s as [|c s IH]; intros n; simpl.
  - intros [= <-]. reflexivity.
  - destruct (username_class c) eqn:Hc.
    + destruct (re_star_dollar s) as [m|] eqn:Hs.
      * intros [= <-]. simpl. rewrite Hc. now apply IH.
      * destruct s; [|destruct (_ : string)]; simpl;
          destruct (code c =? 10)%N; intros [= <-]; reflexivity.
    + destruct s; simpl; [destruct (code c =? 10)%N|];
        intros [= <-] || discriminate; reflexivity.
Qed.

Lemma valid_username_spec (s : string) :
  SnapchatDL.valid_username s =
  negb (str_is_empty s) && forallb username_class (chars s).
Proof.
  unfold SnapchatDL.valid_username, re_match_username.
  destruct s as [|c s]; [reflexivity|]. simpl negb. simpl chars. simpl forallb.
  destruct (username_class c) eqn:Hc; [|reflexivity]. simpl.
  destruct (re_star_dollar s) as [n|] eqn:Hs.
  - destruct (forallb username_class (chars s)) eqn:Hall.
    + rewrite (re_star_dollar_all _ Hall) in Hs. injection Hs as <-.
      change (str_take (S (String.length s)) (String c s))
        with (String c (str_take (String.length s) s)).
      rewrite str_take_length. apply String.eqb_refl.
    + apply String.eqb_neq. intros Heq.
      apply re_star_dollar_prefix in Hs.
      change (str_take (S n) (String c s)) with (String c (str_take n s)) in Heq.
      injection Heq as Heq. rewrite Heq in Hs. congruence.
  - destruct (forallb username_class (chars s)) eqn:Hall; [|reflexivity].
    rewrite (re_star_dollar_all _ Hall) in Hs. discriminate.
Qed.

(** On ASCII the class of the program is the class of the specification. *)
Lemma username_class_ascii (c : ascii) :
  (code c < 128)%N -> username_class c = Spec.username_char c.
Proof.
  destruct c as [[] [] [] [] [] [] [] []]; vm_compute; intros H;
    first [reflexivity | discriminate H].
Qed.

Lemma valid_username_ascii (s : string) :
  Forall (fun c => (code c < 128)%N) (chars s) ->
  SnapchatDL.valid_username s = Spec.username_regex s.
Proof.
  intros H. rewrite valid_username_spec. unfold Spec.username_regex. f_equal.
  induction (chars s) as [|c l IH]; [reflexivity|]. simpl.
  inversion H as [|? ? Hc Hl]; subst.
  now rewrite (username_class_ascii c Hc), (IH Hl).
Qed.

(** ** Running the primitives *)

Lemma world_eq (w1 w2 : world) :
  files w1 = files w2 -> trace w1 = trace w2 -> utc_offset w1 = utc_offset w2 ->
  w1 = w2.
Proof. destruct w1, w2; simpl; intros -> -> ->; reflexivity. Qed.

Lemma extend_nil (w : world) : extend w [] = w.
Proof. apply world_eq; simpl; auto using app_nil_r. Qed.

Lemma extend_extend (w : world) (a b : list event) :
  extend (extend w a) b = extend w (a ++ b).
Proof. apply world_eq; simpl; auto using eq_sym, app_assoc. Qed.

Lemma store_extend (w : world) (f : gmap string (list byte)) (a : list event) :
  store (extend w a) f = extend (store w f) a.
Proof. reflexivity. Qed.

Lemma store_store (w : world) (f g : gmap string (list byte)) :
  store (store w f) g = store w g.
Proof. reflexivity. Qed.

Lemma store_files (w : world) : store w (files w) = w.
Proof. now destruct w. Qed.

Lemma bind_Ok {A B} (m : M A) (k : A -> M B) (w w' : world) (a : A) :
  m w = (Ok a, w') -> bind m k w = k a w'.
Proof. unfold bind. now intros ->. Qed.

Lemma bind_Raise {A B} (m : M A) (k : A -> M B) (w w' : world) (e : exn) :
  m w = (Raise e, w') -> bind m k w = (Raise e, w').
Proof. unfold bind. now intros ->. Qed.

Lemma isfile_run (p : string) (w : world) :
  isfile p w = (Ok (bool_decide (is_Some (files w !! p))), w).
Proof. reflexivity. Qed.

Lemma isfile_Some (p : string) (w : world) (c : list byte) :
  files w !! p = Some c -> isfile p w = (Ok true, w).
Proof. intros H. rewrite isfile_run, H. reflexivity. Qed.

Lemma isfile_None (p : string) (w : world) :
  files w !! p = None -> isfile p w = (Ok false, w).
Proof. intros H. rewrite isfile_run, H. reflexivity. Qed.

Lemma getsize_Some (p : string) (w : world) (c : list byte) :
  files w !! p = Some c -> getsize p w = (Ok (Z.of_nat (List.length c)), w).
Proof. intros H. unfold getsize, bind, get_files. now rewrite H. Qed.

Lemma remove_Some (p : string) (w : world) (c : list byte) :
  files w !! p = Some c ->
  remove p w = (Ok tt, extend (store w (delete p (files w))) [ERemove p]).
Proof. intros H. unfold remove, bind, get_files. now rewrite H. Qed.

Lemma sleep_Ok (secs : Z) (w : world) :
  0 <= secs -> sleep secs w = (Ok tt, extend w [ESleep secs]).
Proof.
  intros H. unfold sleep. destruct (secs <? 0) eqn:E; [lia | reflexivity].
Qed.


Lemma requests_get_Answered (net : network) (url : string) (r : response) (w : world) :
  net url = Answered r -> requests_get net url w = (Ok r, extend w [EGet url]).
Proof. intros H. unfold requests_get, bind, emit. now rewrite H. Qed.

Lemma requests_get_Failed (net : network) (url msg : string) (w : world) :
  net url = Failed msg ->
  requests_get net url w = (Raise (RequestException msg), extend w [EGet url]).
Proof. intros H. unfold requests_get, bind, emit. now rewrite H. Qed.

Lemma open_xb_Some (p : string) (w : world) (c : list byte) :
  files w !! p = Some c -> open_xb p w = (Raise FileExistsError, w).
Proof. intros H. unfold open_xb, bind, get_files. now rewrite H. Qed.

Lemma open_xb_None (p : string) (w : world) :
  files w !! p = None ->
  open_xb p w = (Ok tt, extend (store w (<[p := []]> (files w))) [ECreate p]).
Proof. intros H. unfold open_xb, bind, get_files. now rewrite H. Qed.

Lemma write_chunks_run (p : string) (chunks : list (list byte)) :
  forall (w : world) (c : list byte),
    files w !! p = Some c ->
    write_chunks p chunks w =
    (Ok tt, extend (store w (<[p := c ++ concat chunks]> (files w)))
                   (map (EWrite p) chunks)).
Proof.
  induction chunks as [|data rest IH]; intros w c H; simpl.
  - rewrite app_nil_r, insert_id by exact H.
    now rewrite store_files, extend_nil.
  - unfold bind at 1. unfold write, bind, get_files, set_files, emit.
    rewrite (IH _ (c ++ data)).
    + f_equal. apply world_eq; simpl.
      * rewrite <- app_assoc. apply insert_alter_eq.
      * now rewrite <- app_assoc.
      * reflexivity.
    + simpl. rewrite lookup_alter_eq, H. reflexivity.
Qed.

Lemma ret_run {A} (a : A) (w : world) : ret a w = (Ok a, w).
Proof. reflexivity. Qed.

Lemma emit_run (e : event) (w : world) : emit e w = (Ok tt, extend w [e]).
Proof. reflexivity. Qed.

Lemma makedirs_guarded (dest : string) (w : world) :
  (if 0 <? Z.of_nat (String.length (dirname dest))
   then makedirs_exist_ok (dirname dest) else ret tt) w
  = (Ok tt, extend w (made_dirs dest)).
Proof.
  unfold made_dirs, makedirs_exist_ok.
  destruct (dirname dest) as [|c d]; simpl; [now rewrite extend_nil|].
  reflexivity.
Qed.

Lemma makedirs_nonempty (d : string) (w : world) :
  d <> EmptyString -> makedirs_exist_ok d w = (Ok tt, extend w [EMakedirs d]).
Proof. unfold makedirs_exist_ok. destruct d; [congruence | reflexivity]. Qed.

Ltac worlds :=
  try apply (f_equal2 pair); try reflexivity;
  apply world_eq; cbn [files trace utc_offset extend store];
  rewrite ?insert_insert_eq, ?insert_delete_eq, ?delete_insert_eq,
    ?delete_delete_eq, ?app_nil_r, <- ?app_assoc;
  try reflexivity.

Tactic Notation "mstep" uconstr(L) :=
  cbv beta iota; erewrite bind_Ok by (eapply L); cbv beta iota.
Tactic Notation "mraise" uconstr(L) :=
  cbv beta iota; erewrite bind_Raise by (eapply L); cbv beta iota.

Lemma size_nonzero (c : list byte) : c <> [] -> (Z.of_nat (List.length c) =? 0) = false.
Proof. destruct c; [congruence|]. intros _. apply Z.eqb_neq. simpl. lia. Qed.


Lemma when_true (c : M bool) (m : M unit) (w w' : world) :
  c w = (Ok true, w') -> when c m w = m w'.
Proof. intros H. unfold when. now mstep H. Qed.

Lemma when_false (c : M bool) (m : M unit) (w w' : world) :
  c w = (Ok false, w') -> when c m w = (Ok tt, w').
Proof. intros H. unfold when. now mstep H. Qed.

Lemma when_Raise (c : M bool) (m : M unit) (w w' : world) (e : exn) :
  c w = (Raise e, w') -> when c m w = (Raise e, w').
Proof. intros H. unfold when. now mraise H. Qed.

(** [os.path.isfile(p) and os.path.getsize(p) == 0] *)
Lemma zero_sized_run (p : string) (w : world) :
  and_then (isfile p) (let* size := getsize p in ret (size =? 0)) w
  = (Ok (match files w !! p with
         | Some c => Z.of_nat (List.length c) =? 0
         | None => false
         end), w).
Proof.
  unfold and_then. destruct (files w !! p) as [c|] eqn:H.
  - mstep (isfile_Some _ _ _ H). now mstep (getsize_Some _ _ _ H).
  - now mstep (isfile_None _ _ H).
Qed.

Lemma cleanup_vacant (w : world) (dest : string) (es : list event) :
  vacant w dest ->
  when (and_then (isfile dest) (let* size := getsize dest in ret (size =? 0)))
       (remove dest) (extend w es)
  = (Ok tt, extend (store w (delete dest (files w))) (es ++ removed_first w dest)).
Proof.
  intros Hv. unfold removed_first.
  destruct (files w !! dest) as [c|] eqn:H.
  - pose proof (Hv c H); subst c.
    erewrite when_true by (rewrite zero_sized_run; cbn [files extend]; now rewrite H).
    rewrite (remove_Some dest (extend w es) [] H). worlds.
  - erewrite when_false by (rewrite zero_sized_run; cbn [files extend]; now rewrite H).
    rewrite delete_id by exact H. worlds.
Qed.

Lemma cleanup_kept (w : world) (dest : string) (c : list byte) :
  files w !! dest = Some c -> c <> [] ->
  when (and_then (isfile dest) (let* size := getsize dest in ret (size =? 0)))
       (remove dest) w
  = (Ok tt, w).
Proof.
  intros H Hne. apply when_false. rewrite zero_sized_run.
  now rewrite H, (size_nonzero c Hne).
Qed.

Lemma stream_to_run (dest : string) (r : response) (w : world) (c : list byte) :
  files w !! dest = Some c ->
  stream_to dest r w =
  let w1 := extend (store w (<[dest := c ++ concat (body r)]> (files w)))
                   (map (EWrite dest) (body r)) in
  match body_error r with
  | Some e => (Raise e, w1)
  | None => (Ok tt, w1)
  end.
Proof.
  intros H. unfold stream_to. mstep (write_chunks_run dest (body r) w c H).
  now destruct (body_error r).
Qed.

Lemma status_ok_run (r : response) (w : world) :
  status_code r = 200 ->
  (if negb (status_code r =? 200) then raise_raise_for_status r else ret tt) w
  = (Ok tt, w).
Proof. intros ->. reflexivity. Qed.


Lemma try_except_run {A} (m : M A) (h : exn -> M A) (w : world) :
  try_except_RequestException m h w =
  match m w with
  | (Raise e, w') => if is_RequestException e then h e w' else (Raise e, w')
  | r => r
  end.
Proof. reflexivity. Qed.

(** [os.path.isfile(dest) and
     os.path.getsize(dest) == response.headers["Content-length"]]: the size
    is an [int], the header a [str]. *)
Lemma complete_check_None (dest : string) (r : response) (w : world) :
  files w !! dest = None ->
  and_then (isfile dest)
    (let* size := getsize dest in
     let* declared := header_content_length r in
     ret (eq (VInt size) declared)) w = (Ok false, w).
Proof. intros H. unfold and_then. now mstep (isfile_None _ _ H). Qed.

Lemma size_is_not_header (dest : string) (r : response) (w : world)
    (c : list byte) (h : string) :
  files w !! dest = Some c -> content_length r = Some h ->
  (let* size := getsize dest in
   let* declared := header_content_length r in
   ret (eq (VInt size) declared)) w = (Ok false, w).
Proof.
  intros H Hh. mstep (getsize_Some _ _ _ H).
  unfold header_content_length. now rewrite Hh.
Qed.

Lemma complete_check_Some (dest : string) (r : response) (w : world)
    (c : list byte) (h : string) :
  files w !! dest = Some c -> content_length r = Some h ->
  and_then (isfile dest)
    (let* size := getsize dest in
     let* declared := header_content_length r in
     ret (eq (VInt size) declared)) w = (Ok false, w).
Proof.
  intros H Hh. unfold and_then. mstep (isfile_Some _ _ _ H).
  now apply size_is_not_header with c h.
Qed.

(** The streaming path of [downloader.download_url]. *)
Lemma downloader_streams net url dest secs w r :
  vacant w dest -> 0 <= secs ->
  net url = Answered r -> status_code r = 200 ->
  Downloader.download_url net url dest secs w =
  let w1 := extend (store w (<[dest := concat (body r)]> (files w)))
              (made_dirs dest ++ removed_first w dest ++
               [ESleep secs; EGet url; ECreate dest] ++
               map (EWrite dest) (body r)) in
  match body_error r with
  | None => (Ok tt, w1)
  | Some e => if is_RequestException e then (Ok tt, extend w1 [ELog e])
              else (Raise e, w1)
  end.
Proof.
  intros Hv Hs Hn Hst. unfold Downloader.download_url.
  mstep (makedirs_guarded dest w).
  mstep (cleanup_vacant w dest _ Hv).
  mstep (sleep_Ok secs _ Hs).
  mstep (requests_get_Answered net url r _ Hn).
  mstep (status_ok_run r _ Hst).
  assert (Hgone : forall es, files (extend (store w (delete dest (files w))) es) !! dest = None)
    by (intros es; apply lookup_delete_eq).
  rewrite !extend_extend.
  erewrite bind_Ok
    by (apply when_false, complete_check_None, Hgone).
  mstep (open_xb_None dest _ (Hgone _)).
  rewrite try_except_run.
  erewrite stream_to_run by (cbn [files extend store]; apply lookup_insert_eq).
  cbv zeta. cbn [files extend store app].
  rewrite insert_insert_eq, insert_delete_eq.
  destruct (body_error r) as [e|]; [destruct (is_RequestException e)|]; worlds.
Qed.

(** The streaming path of the method [SnapchatDL.download_url]. *)
Lemma method_streams net url dest w r h :
  vacant w dest -> dirname dest <> EmptyString ->
  net url = Answered r -> status_code r = 200 -> content_length r = Some h ->
  SnapchatDL.download_url net url dest w =
  let es := [EMakedirs (dirname dest)] ++ removed_first w dest ++
            [ECreate dest; EGet url] ++ map (EWrite dest) (body r) in
  match body_error r with
  | None => (Ok tt, extend (store w (<[dest := concat (body r)]> (files w))) es)
  | Some e =>
      if is_RequestException e
      then (Ok tt, extend (store w (delete dest (files w)))
                          (es ++ [EPrintRed e; ERemove dest]))
      else (Raise e, extend (store w (<[dest := concat (body r)]> (files w))) es)
  end.
Proof.
  intros Hv Hd Hn Hst Hh. unfold SnapchatDL.download_url.
  mstep (makedirs_nonempty _ w Hd).
  mstep (cleanup_vacant w dest _ Hv).
  assert (Hgone : forall es, files (extend (store w (delete dest (files w))) es) !! dest = None)
    by (intros es; apply lookup_delete_eq).
  mstep (open_xb_None dest _ (Hgone _)).
  mstep (requests_get_Answered net url r _ Hn).
  mstep (status_ok_run r _ Hst).
  erewrite bind_Ok.
  2:{ apply when_false. eapply size_is_not_header; [|exact Hh].
      cbn [files extend store]. apply lookup_insert_eq. }
  rewrite try_except_run.
  erewrite stream_to_run by (cbn [files extend store]; apply lookup_insert_eq).
  cbv zeta. cbn [files extend store app].
  rewrite insert_insert_eq, insert_delete_eq.
  destruct (body_error r) as [e|]; [destruct (is_RequestException e)|]; try worlds.
  unfold bind, emit.
  erewrite remove_Some by (cbn [files extend store]; apply lookup_insert_eq).
  cbn [files extend store]. rewrite delete_insert_eq. worlds.
Qed.

(** The path of a destination that holds a non-empty file. *)
Lemma downloader_skips net url dest secs w c r h :
  files w !! dest = Some c -> c <> [] -> 0 <= secs ->
  net url = Answered r -> status_code r = 200 -> content_length r = Some h ->
  Downloader.download_url net url dest secs w =
  (Raise FileExistsError, extend w (made_dirs dest ++ [ESleep secs; EGet url])).
Proof.
  intros Hf Hne Hs Hn Hst Hh. unfold Downloader.download_url.
  mstep (makedirs_guarded dest w).
  mstep (cleanup_kept (extend w (made_dirs dest)) dest c Hf Hne).
  mstep (sleep_Ok secs _ Hs).
  mstep (requests_get_Answered net url r _ Hn).
  mstep (status_ok_run r _ Hst).
  erewrite bind_Ok by (eapply when_false, complete_check_Some; eauto).
  erewrite bind_Raise by (eapply open_xb_Some; exact Hf).
  worlds.
Qed.

Lemma method_skips net url dest w c :
  files w !! dest = Some c -> c <> [] -> dirname dest <> EmptyString ->
  SnapchatDL.download_url net url dest w =
  (Raise FileExistsError, extend w [EMakedirs (dirname dest)]).
Proof.
  intros Hf Hne Hd. unfold SnapchatDL.download_url.
  mstep (makedirs_nonempty _ w Hd).
  mstep (cleanup_kept (extend w [EMakedirs (dirname dest)]) dest c Hf Hne).
  erewrite bind_Raise by (eapply open_xb_Some; exact Hf).
  reflexivity.
Qed.

(** ** What a computation may emit *)

Section Emits.
Context (P : event -> Prop).

Lemma emits_ret {A} (a : A) : emits P (ret a).
Proof. intros w. exists []. simpl. now rewrite app_nil_r. Qed.

Lemma emits_raise {A} (e : exn) : emits P (@raise A e).
Proof. intros w. exists []. simpl. now rewrite app_nil_r. Qed.

Lemma emits_lift {A} (r : res A) : emits P (lift r).
Proof. intros w. exists []. simpl. now rewrite app_nil_r. Qed.

Lemma emits_get_files : emits P get_files.
Proof. intros w. exists []. simpl. now rewrite app_nil_r. Qed.

Lemma emits_set_files (f : gmap string (list byte)) : emits P (set_files f).
Proof. intros w. exists []. simpl. now rewrite app_nil_r. Qed.

Lemma emits_emit (e : event) : P e -> emits P (emit e).
Proof. intros H w. exists [e]. simpl. auto. Qed.

Lemma emits_bind {A B} (m : M A) (k : A -> M B) :
  emits P m -> (forall a, emits P (k a)) -> emits P (bind m k).
Proof.
  intros Hm Hk w. unfold bind.
  destruct (Hm w) as (es1 & E1 & F1).
  destruct (m w) as [[a|e] w1]; simpl in E1.
  - destruct (Hk a w1) as (es2 & E2 & F2).
    exists (es1 ++ es2). rewrite E2, E1, app_assoc.
    split; [reflexivity | now apply Forall_app].
  - exists es1. auto.
Qed.

Lemma emits_if {A} (b : bool) (m1 m2 : M A) :
  emits P m1 -> emits P m2 -> emits P (if b then m1 else m2).
Proof. now destruct b. Qed.

Lemma emits_try_except {A} (m : M A) (h : exn -> M A) :
  emits P m -> (forall e, emits P (h e)) ->
  emits P (try_except_RequestException m h).
Proof.
  intros Hm Hh w. unfold try_except_RequestException.
  destruct (Hm w) as (es1 & E1 & F1).
  destruct (m w) as [[a|e] w1]; simpl in E1; [exists es1; auto|].
  destruct (is_RequestException e); [|exists es1; auto].
  destruct (Hh e w1) as (es2 & E2 & F2).
  exists (es1 ++ es2). rewrite E2, E1, app_assoc.
  split; [reflexivity | now apply Forall_app].
Qed.

Lemma emits_when (c : M bool) (m : M unit) :
  emits P c -> emits P m -> emits P (when c m).
Proof.
  intros Hc Hm. apply emits_bind; [exact Hc|].
  intros b. apply emits_if; [exact Hm | apply emits_ret].
Qed.

Lemma emits_and_then (a b : M bool) :
  emits P a -> emits P b -> emits P (and_then a b).
Proof.
  intros Ha Hb. apply emits_bind; [exact Ha|].
  intros x. apply emits_if; [exact Hb | apply emits_ret].
Qed.

Lemma emits_isfile (p : string) : emits P (isfile p).
Proof. apply emits_bind; [apply emits_get_files | intros; apply emits_ret]. Qed.

Lemma emits_getsize (p : string) : emits P (getsize p).
Proof.
  apply emits_bind; [apply emits_get_files|].
  intros f. destruct (f !! p); [apply emits_ret | apply emits_raise].
Qed.

Lemma emits_remove (p : string) : P (ERemove p) -> emits P (remove p).
Proof.
  intros H. apply emits_bind; [apply emits_get_files|].
  intros f. destruct (f !! p); [|apply emits_raise].
  apply emits_bind; [apply emits_set_files | intros; now apply emits_emit].
Qed.

Lemma emits_makedirs (d : string) :
  P (EMakedirs d) -> emits P (makedirs_exist_ok d).
Proof.
  intros H. unfold makedirs_exist_ok.
  apply emits_if; [apply emits_raise | now apply emits_emit].
Qed.

Lemma emits_sleep (secs : Z) : P (ESleep secs) -> emits P (sleep secs).
Proof.
  intros H. unfold sleep.
  apply emits_if; [apply emits_raise | now apply emits_emit].
Qed.

Lemma emits_requests_get (net : network) (url : string) :
  P (EGet url) -> emits P (requests_get net url).
Proof.
  intros H. apply emits_bind; [now apply emits_emit|].
  intros _. destruct (net url); [apply emits_raise | apply emits_ret].
Qed.

Lemma emits_raise_for_status {A} (r : response) :
  emits P (@raise_raise_for_status A r).
Proof. unfold raise_raise_for_status. apply emits_if; apply emits_raise. Qed.

Lemma emits_header (r : response) : emits P (header_content_length r).
Proof.
  unfold header_content_length.
  destruct (content_length r); [apply emits_ret | apply emits_raise].
Qed.

Lemma emits_open_xb (p : string) : P (ECreate p) -> emits P (open_xb p).
Proof.
  intros H. apply emits_bind; [apply emits_get_files|].
  intros f. destruct (f !! p); [apply emits_raise|].
  apply emits_bind; [apply emits_set_files | intros; now apply emits_emit].
Qed.

Lemma emits_write (p : string) (data : list byte) :
  P (EWrite p data) -> emits P (write p data).
Proof.
  intros H. apply emits_bind; [apply emits_get_files|].
  intros f. apply emits_bind; [apply emits_set_files | intros; now apply emits_emit].
Qed.

Lemma emits_stream_to (p : string) (r : response) :
  (forall data, P (EWrite p data)) -> emits P (stream_to p r).
Proof.
  intros H. apply emits_bind.
  - induction (body r) as [|data rest IH]; simpl; [apply emits_ret|].
    apply emits_bind; [now apply emits_write | intros; exact IH].
  - intros _. destruct (body_error r); [apply emits_raise | apply emits_ret].
Qed.
End Emits.

Ltac emits_step :=
  match goal with
  | |- emits _ (bind _ _) => apply emits_bind; [|intros ?]
  | |- emits _ (when _ _) => apply emits_when
  | |- emits _ (and_then _ _) => apply emits_and_then
  | |- emits _ (if _ then _ else _) => apply emits_if
  | |- emits _ (try_except_RequestException _ _) =>
      apply emits_try_except; [|intros ?]
  | |- emits _ (ret _) => apply emits_ret
  | |- emits _ (raise _) => apply emits_raise
  | |- emits _ (lift _) => apply emits_lift
  | |- emits _ (isfile _) => apply emits_isfile
  | |- emits _ (getsize _) => apply emits_getsize
  | |- emits _ (raise_raise_for_status _) => apply emits_raise_for_status
  | |- emits _ (header_content_length _) => apply emits_header
  | |- emits _ (remove _) => apply emits_remove; exact I
  | |- emits _ (makedirs_exist_ok _) => apply emits_makedirs; exact I
  | |- emits _ (sleep _) => apply emits_sleep; exact I
  | |- emits _ (requests_get _ _) => apply emits_requests_get; exact I
  | |- emits _ (open_xb _) => apply emits_open_xb; exact I
  | |- emits _ (stream_to _ _) => apply emits_stream_to; intros; exact I
  | |- emits _ (emit _) => apply emits_emit; exact I
  end.

(** The method never pauses. *)
Lemma method_never_sleeps (net : network) (url dest : string) :
  emits not_sleep (SnapchatDL.download_url net url dest).
Proof. unfold SnapchatDL.download_url. repeat emits_step. Qed.

(** Around its pause and its request [downloader.download_url] requests
    nothing. *)
Lemma downloader_one_get (net : network) (url dest : string) (secs : Z) (w : world) :
  exists pre post,
    trace (snd (Downloader.download_url net url dest secs w))
    = trace w ++ pre ++ post /\
    Forall not_get pre /\
    (post = [] \/
     exists rest, post = ESleep secs :: EGet url :: rest /\ Forall not_get rest).
Proof.
  unfold Downloader.download_url.
  set (mk := if 0 <? _ then _ else _).
  set (clean := when _ (remove dest)).
  assert (Hmk : emits not_get mk) by (subst mk; repeat emits_step).
  assert (Hclean : emits not_get clean) by (subst clean; repeat emits_step).
  unfold bind at 1. destruct (Hmk w) as (es1 & E1 & F1).
  destruct (mk w) as [[[]|e] w1]; simpl in E1;
    [|exists es1, []; rewrite app_nil_r; auto].
  unfold bind at 1. destruct (Hclean w1) as (es2 & E2 & F2).
  assert (Fpre : Forall not_get (es1 ++ es2)) by now apply Forall_app.
  exists (es1 ++ es2).
  destruct (clean w1) as [[[]|e] w2]; simpl in E2; rewrite E1 in E2;
    rewrite <- app_assoc in E2;
    [|exists []; rewrite app_nil_r; auto].
  unfold bind at 1, sleep.
  destruct (secs <? 0); [exists []; rewrite app_nil_r; auto|].
  cbn [emit]. unfold bind at 1, requests_get. unfold bind at 1. cbn [emit].
  destruct (net url) as [msg|r]; cbn [raise ret].
  - exists [ESleep secs; EGet url]. simpl. rewrite E2, <- !app_assoc.
    eauto 6.
  - match goal with |- context [bind ?m ?k] => set (post := bind m k) end.
    assert (Hpost : emits not_get post) by (subst post; repeat emits_step).
    destruct (Hpost (extend (extend w2 [ESleep secs]) [EGet url]))
      as (rest & E3 & F3).
    exists (ESleep secs :: EGet url :: rest). rewrite E3. simpl.
    rewrite E2, <- !app_assoc. simpl. eauto 6.
Qed.

(** ** The calendar: [utcfromtimestamp] is the UTC time *)

Import Spec.

Lemma yoe_bounds (doe : Z) :
  0 <= doe <= 146096 ->
  let yoe := (doe - doe / 1460 + doe / 36524 - doe / 146096) / 365 in
  let doy := doe - (365 * yoe + yoe / 4 - yoe / 100) in
  0 <= yoe <= 399 /\ 0 <= doy <= 365 /\
  (doy = 365 -> yoe mod 4 = 3 /\ (yoe mod 100 <> 99 \/ yoe = 399)).
Proof.
  intros H. cbv zeta.
  assert (H3 : doe / 146096 = 0 \/ doe / 146096 = 1) by (Z.div_mod_to_equations; lia).
  assert (H2 : 0 <= doe / 36524 <= 4) by (Z.div_mod_to_equations; lia).
  Z.div_mod_to_equations; lia.
Qed.


Lemma is_leap_era (y era : Z) : is_leap (y + era * 400) = is_leap y.
Proof.
  unfold is_leap.
  replace ((y + era * 400) mod 4) with (y mod 4)
    by (replace (era * 400) with (era * 100 * 4) by lia; now rewrite Z_mod_plus_full).
  replace ((y + era * 400) mod 100) with (y mod 100)
    by (replace (era * 400) with (era * 4 * 100) by lia; now rewrite Z_mod_plus_full).
  now rewrite Z_mod_plus_full.
Qed.

Lemma days_before_year_succ (y : Z) :
  days_before_year (y + 1) =
  days_before_year y + 365 + (if is_leap y then 1 else 0).
Proof.
  unfold days_before_year, is_leap. cbv zeta.
  replace (y + 1 - 1) with y by lia.
  destruct (Z.eqb_spec (y mod 4) 0), (Z.eqb_spec (y mod 100) 0),
    (Z.eqb_spec (y mod 400) 0); cbn [andb orb negb];
    Z.div_mod_to_equations; lia.
Qed.

Lemma days_before_year_era (yoe era : Z) :
  0 <= yoe <= 399 ->
  days_before_year (yoe + era * 400 + 1) =
  146097 * era + 365 * yoe + yoe / 4 - yoe / 100.
Proof.
  intros H. unfold days_before_year. cbv zeta.
  replace (yoe + era * 400 + 1 - 1) with (yoe + era * 400) by lia.
  Z.div_mod_to_equations; lia.
Qed.

Lemma leap_day_year (yoe era : Z) :
  0 <= yoe <= 399 ->
  yoe mod 4 = 3 /\ (yoe mod 100 <> 99 \/ yoe = 399) ->
  is_leap (yoe + era * 400 + 1) = true.
Proof.
  intros H Hl. replace (yoe + era * 400 + 1) with (yoe + 1 + era * 400) by lia.
  rewrite is_leap_era. unfold is_leap.
  destruct (Z.eqb_spec ((yoe + 1) mod 4) 0), (Z.eqb_spec ((yoe + 1) mod 100) 0),
    (Z.eqb_spec ((yoe + 1) mod 400) 0); cbn [andb orb negb]; try reflexivity;
    exfalso; Z.div_mod_to_equations; lia.
Qed.

Lemma civil_from_days_correct (z : Z) :
  let '(y, m, d) := civil_from_days z in
  1 <= m <= 12 /\ 1 <= d <= days_in_month y m /\ ordinal y m d - 719163 = z.
Proof.
  unfold civil_from_days. cbv zeta.
  set (z' := z + 719468).
  set (era := z' / 146097).
  set (doe := z' - era * 146097).
  assert (Hdoe : 0 <= doe <= 146096) by (subst doe era; Z.div_mod_to_equations; lia).
  pose proof (yoe_bounds doe Hdoe) as Hy. cbv zeta in Hy.
  set (yoe := (doe - doe / 1460 + doe / 36524 - doe / 146096) / 365) in *.
  set (doy := doe - (365 * yoe + yoe / 4 - yoe / 100)) in *.
  destruct Hy as (Hyoe & Hdoy & Hleap).
  set (mp := (5 * doy + 2) / 153).
  assert (Hmpdef : 153 * mp <= 5 * doy + 2 < 153 * mp + 153)
    by (subst mp; Z.div_mod_to_equations; lia).
  assert (Hz : z = era * 146097 + doe - 719468) by (subst doe z'; lia).
  assert (Hdoy' : doe = doy + (365 * yoe + yoe / 4 - yoe / 100)) by (subst doy; lia).
  pose proof (days_before_year_era yoe era Hyoe) as Hera.
  pose proof (days_before_year_succ (yoe + era * 400)) as Hsucc.
  pose proof (leap_day_year yoe era Hyoe) as Hfeb.
  assert (Hfeb' : doy = 365 -> is_leap (yoe + era * 400 + 1) = true) by auto.
  clear Hleap Hfeb.
  clearbody mp doy doe era yoe. clear z'.
  assert (Hcases : mp = 0 \/ mp = 1 \/ mp = 2 \/ mp = 3 \/ mp = 4 \/ mp = 5 \/ mp = 6 \/
                   mp = 7 \/ mp = 8 \/ mp = 9 \/ mp = 10 \/ mp = 11) by lia.
  unfold ordinal, days_before_month, days_in_month.
  repeat (destruct Hcases as [-> | Hcases]); try subst mp;
    match goal with
    | |- context [if ?c <? 10 then ?x else ?y] =>
        let v := eval vm_compute in (if c <? 10 then x else y) in
        change (if c <? 10 then x else y) with v
    end;
    match goal with
    | |- context [(?n) / 5] =>
        let v := eval vm_compute in (n / 5) in change (n / 5) with v
    end;
    cbv -[Z.div Z.mul Z.add Z.sub Z.le Z.lt days_before_year is_leap];
    rewrite ?Z.add_0_r;
    set (b := is_leap (yoe + era * 400)) in *;
    set (b1 := is_leap (yoe + era * 400 + 1)) in *;
    set (a4 := yoe / 4) in *; set (a100 := yoe / 100) in *;
    set (dby := days_before_year (yoe + era * 400)) in *;
    set (dby1 := days_before_year (yoe + era * 400 + 1)) in *;
    clearbody b b1 a4 a100 dby dby1;
    destruct b, b1; cbv iota; try lia.
Qed.

Lemma time_of_day (s : Z) :
  0 <= s < 86400 ->
  0 <= s / 3600 <= 23 /\ 0 <= (s mod 3600) / 60 <= 59 /\ 0 <= s mod 60 <= 59 /\
  s / 3600 * 3600 + (s mod 3600) / 60 * 60 + s mod 60 = s.
Proof. intros H. Z.div_mod_to_equations. lia. Qed.

Lemma days_before_year_low (y : Z) : y <= 0 -> days_before_year y <= -366.
Proof. intros H. unfold days_before_year. cbv zeta. Z.div_mod_to_equations. lia. Qed.

Lemma days_before_year_high (y : Z) : 10000 <= y -> 3652059 <= days_before_year y.
Proof. intros H. unfold days_before_year. cbv zeta. Z.div_mod_to_equations. lia. Qed.

Lemma days_before_month_bounds (y m : Z) : 0 <= days_before_month y m <= 335.
Proof.
  unfold days_before_month.
  destruct ((2 <? m) && is_leap y);
    destruct m as [|p|p]; try lia;
    do 4 (try destruct p as [p|p|]); lia.
Qed.

Lemma days_in_month_bounds (y m : Z) : 28 <= days_in_month y m <= 31.
Proof.
  unfold days_in_month.
  destruct (m =? 2); [destruct (is_leap y); lia|].
  destruct ((m =? 4) || (m =? 6) || (m =? 9) || (m =? 11)); lia.
Qed.

(** The fields [utcfromtimestamp] computes are the date and the time of day
    that lie [t] seconds after the epoch in UTC. *)
Lemma utc_fields_timegm (t : Z) :
  timegm (utc_fields t) = t /\
  1 <= month (utc_fields t) <= 12 /\
  1 <= day (utc_fields t)
    <= days_in_month (year (utc_fields t)) (month (utc_fields t)) /\
  0 <= hour (utc_fields t) <= 23 /\
  0 <= minute (utc_fields t) <= 59 /\
  0 <= second (utc_fields t) <= 59.
Proof.
  unfold utc_fields, timegm.
  pose proof (civil_from_days_correct (t / 86400)) as Hc.
  destruct (civil_from_days (t / 86400)) as [[y m] d].
  destruct Hc as (Hm & Hd & Ho). cbn [year month day hour minute second].
  assert (Hs : 0 <= t mod 86400 < 86400) by (apply Z.mod_pos_bound; lia).
  destruct (time_of_day _ Hs) as (Hh & Hmi & Hse & Hsum).
  repeat split; try lia.
  rewrite Ho. pose proof (Z.div_mod t 86400). lia.
Qed.

Lemma utc_fields_valid (t : Z) :
  min_timestamp <= t <= max_timestamp -> valid_datetime (utc_fields t).
Proof.
  intros Ht. pose proof (utc_fields_timegm t) as H.
  set (dt := utc_fields t) in *. clearbody dt.
  destruct dt as [y m d h mi s].
  unfold valid_datetime, timegm, ordinal in *.
  cbn [year month day hour minute second] in *.
  destruct H as (Hg & Hm & Hd & Hh & Hmi & Hs).
  pose proof (days_before_month_bounds y m).
  pose proof (days_in_month_bounds y m).
  unfold min_timestamp, max_timestamp in Ht.
  repeat split; try lia.
  - destruct (Z_le_gt_dec y 0) as [Hy|Hy]; [|lia].
    pose proof (days_before_year_low _ Hy). lia.
  - destruct (Z_le_gt_dec 10000 y) as [Hy|Hy]; [|lia].
    pose proof (days_before_year_high _ Hy). lia.
Qed.


(** ** Text: [str.format], [strftime], decimal numerals *)

Lemma append_cons (c : ascii) (s t : string) :
  String c s +:+ t = String c (s +:+ t).
Proof. reflexivity. Qed.

Lemma append_empty_r (s : string) : s +:+ EmptyString = s.
Proof.
  induction s as [|c s IH]; [reflexivity | now rewrite append_cons, IH].
Qed.

Lemma append_assoc (s t u : string) : (s +:+ t) +:+ u = s +:+ (t +:+ u).
Proof.
  induction s as [|c s IH]; [reflexivity | now rewrite !append_cons, IH].
Qed.

Lemma no_braces_append (s t : string) :
  no_braces (s +:+ t) = no_braces s && no_braces t.
Proof.
  unfold no_braces. rewrite chars_append. apply forallb_app.
Qed.

Lemma rbind_Ok_r {A} (r : res A) : rbind r Ok = r.
Proof. now destruct r. Qed.

(** Text without braces is copied. *)
Lemma format_plain (s t : string) (args : list string) :
  no_braces s = true ->
  format (s +:+ t) args = rbind (format t args) (fun r => Ok (s +:+ r)).
Proof.
  induction s as [|c s IH]; intros H.
  - change (EmptyString +:+ t) with t. destruct (format t args); reflexivity.
  - unfold no_braces in H. simpl in H. apply andb_true_iff in H as [Hc Hs].
    unfold is_brace in Hc. apply negb_true_iff, orb_false_iff in Hc as [H1 H2].
    rewrite append_cons. cbn [format]. rewrite H1, H2, (IH Hs).
    destruct (format t args); reflexivity.
Qed.

Lemma format_endpoint (username : string) :
  format SnapchatDL.endpoint [username] = Ok (SnapchatDL.api_url username).
Proof.
  change SnapchatDL.endpoint
    with ("https://storysharing.snapchat.com/v1/fetch/" +:+ "{}").
  rewrite format_plain by reflexivity. simpl.
  now rewrite append_empty_r.
Qed.

Lemma format_no_stories (username : string) :
  exists line, format SnapchatDL.no_stories_template [username] = Ok line.
Proof.
  unfold SnapchatDL.no_stories_template.
  change (String SnapchatDL.esc "[91m[-] {} has no stories" +:+
          String SnapchatDL.esc "[0m")
    with (String SnapchatDL.esc "[91m[-] " +:+
          ("{}" +:+ (" has no stories" +:+ String SnapchatDL.esc "[0m"))).
  rewrite format_plain by reflexivity.
  change (format ("{}" +:+ ?t) [username]) with
    (rbind (format (" has no stories" +:+ String SnapchatDL.esc "[0m") [])
           (fun r => Ok (username +:+ r))).
  rewrite format_plain by reflexivity. simpl. eauto.
Qed.

Lemma no_braces_uint (u : Decimal.uint) :
  no_braces (NilEmpty.string_of_uint u) = true.
Proof. induction u; simpl; auto. Qed.

Lemma no_braces_str_of_Z (n : Z) : no_braces (str_of_Z n) = true.
Proof.
  unfold str_of_Z. destruct (Z.to_int n); simpl; apply no_braces_uint.
Qed.

Lemma digit_char_plain (n : Z) :
  0 <= n <= 9 ->
  is_brace (digit_char n) = false /\ Ascii.eqb (digit_char n) slash = false.
Proof.
  intros H. destruct n as [|p|p]; [split; reflexivity | | lia].
  do 4 (try destruct p as [p|p|]); try lia; split; reflexivity.
Qed.

Lemma no_braces_pad2 (n : Z) : 0 <= n <= 99 -> no_braces (pad2 n) = true.
Proof.
  intros H. unfold pad2, no_braces. simpl.
  destruct (digit_char_plain (n / 10)) as [-> _];
    [Z.div_mod_to_equations; lia|].
  destruct (digit_char_plain (n mod 10)) as [-> _];
    [Z.div_mod_to_equations; lia|].
  reflexivity.
Qed.

Lemma no_braces_date_text (dt : datetime) :
  valid_datetime dt -> no_braces (SnapchatDL.date_text dt) = true.
Proof.
  intros (Hy & Hm & Hd & _). pose proof (days_in_month_bounds (year dt) (month dt)).
  unfold SnapchatDL.date_text.
  rewrite !no_braces_append, no_braces_str_of_Z, !no_braces_pad2 by lia.
  reflexivity.
Qed.

Lemma no_braces_time_text (dt : datetime) :
  valid_datetime dt -> no_braces (SnapchatDL.time_text dt) = true.
Proof.
  intros (_ & _ & _ & Hh & Hm & Hs). unfold SnapchatDL.time_text.
  rewrite !no_braces_append, !no_braces_pad2 by lia. reflexivity.
Qed.

Lemma strftime_date (dt : datetime) :
  strftime dt "%Y-%m-%d" = Ok (SnapchatDL.date_text dt).
Proof. reflexivity. Qed.

Lemma strftime_stamp (dt : datetime) :
  strftime dt "%Y-%m-%d_%H-%M-%S {} {}{}" =
  Ok (SnapchatDL.date_text dt +:+ "_" +:+ SnapchatDL.time_text dt +:+ " {} {}{}").
Proof.
  unfold SnapchatDL.date_text, SnapchatDL.time_text.
  rewrite !append_assoc. reflexivity.
Qed.

Lemma utcfromtimestamp_in_range (t : Z) :
  min_timestamp <= t <= max_timestamp ->
  utcfromtimestamp t = Ok (utc_fields t).
Proof.
  unfold min_timestamp, max_timestamp. intros H. unfold utcfromtimestamp.
  change min_time_t with (-9223372036854775808).
  change max_time_t with 9223372036854775807.
  unfold min_gmtime, max_gmtime, min_timestamp, max_timestamp.
  destruct (Z.ltb_spec t (-9223372036854775808)); [lia|].
  destruct (Z.ltb_spec 9223372036854775807 t); [lia|].
  destruct (Z.ltb_spec t (-67768040609740800)); [lia|].
  destruct (Z.ltb_spec 67768036191676799 t); [lia|].
  destruct (Z.leb_spec (-62135596800) t); [|lia].
  destruct (Z.leb_spec t 253402300799); [|lia]. reflexivity.
Qed.

Lemma utcfromtimestamp_Ok (t : Z) (dt : datetime) :
  utcfromtimestamp t = Ok dt -> min_timestamp <= t <= max_timestamp.
Proof.
  unfold utcfromtimestamp.
  destruct ((t <? min_time_t) || (max_time_t <? t)); [discriminate|].
  destruct ((t <? min_gmtime) || (max_gmtime <? t)); [discriminate|].
  destruct (min_timestamp <=? t) eqn:E1; [|discriminate].
  destruct (t <=? max_timestamp) eqn:E2; [|discriminate].
  intros _. lia.
Qed.

Lemma strf_time_range (t : Z) (fmt text : string) :
  SnapchatDL.strf_time t fmt = Ok text -> min_timestamp <= t <= max_timestamp.
Proof.
  unfold SnapchatDL.strf_time.
  destruct (utcfromtimestamp t) as [dt|] eqn:E; [|discriminate].
  intros _. exact (utcfromtimestamp_Ok t dt E).
Qed.

Lemma strf_time_in_range (t : Z) (fmt : string) :
  min_timestamp <= t <= max_timestamp ->
  SnapchatDL.strf_time t fmt = strftime (utc_fields t) fmt.
Proof.
  intros H. unfold SnapchatDL.strf_time.
  now rewrite (utcfromtimestamp_in_range t H).
Qed.

(** The three fields of the name of the file. *)
Lemma format_file_name (dt : datetime) (id_text username ext : string) :
  valid_datetime dt ->
  format (SnapchatDL.date_text dt +:+ "_" +:+ SnapchatDL.time_text dt +:+ " {} {}{}")
         [id_text; username; ext]
  = Ok (SnapchatDL.file_name username dt id_text ext).
Proof.
  intros Hv. rewrite format_plain by now apply no_braces_date_text.
  change ("_" +:+ ?x) with (String "_" x).
  change (format (String "_" ?x) ?a) with (rbind (format x a) (fun r => Ok (String "_" r))).
  rewrite format_plain by now apply no_braces_time_text.
  simpl. rewrite append_empty_r. reflexivity.
Qed.

(** ** Paths *)

Lemma endswith_refl (s : string) : endswith s s = true.
Proof. destruct s; cbn [endswith]; now rewrite String.eqb_refl. Qed.

Lemma endswith_append (suffix s t : string) :
  endswith suffix t = true -> endswith suffix (s +:+ t) = true.
Proof.
  intros H. induction s as [|c s IH]; [exact H|].
  rewrite append_cons. cbn [endswith]. rewrite IH. apply orb_true_r.
Qed.

Lemma str_of_Z_no_slash (n : Z) (rest : string) :
  startswith_char slash (str_of_Z n +:+ String "-" rest) = false.
Proof.
  unfold str_of_Z. destruct (Z.to_int n) as [u|u]; [|reflexivity].
  destruct u; reflexivity.
Qed.

Lemma file_name_no_slash (username : string) (dt : datetime) (id_text ext : string) :
  startswith_char slash (SnapchatDL.file_name username dt id_text ext) = false.
Proof.
  unfold SnapchatDL.file_name, SnapchatDL.date_text.
  rewrite !append_assoc. apply str_of_Z_no_slash.
Qed.

Lemma join2_relative (path b : string) :
  startswith_char slash b = false ->
  join2 path b = path +:+ b \/ join2 path b = path +:+ String slash b.
Proof.
  intros H. unfold join2. rewrite H.
  destruct (str_is_empty path || endswith_char slash path); auto.
Qed.

(** The path ends with the name of the file, and the name with the user
    name and what [media_type] gave, printed by [str.format]. *)
Lemma destination_suffix (self : SnapchatDL.t) (username : string)
    (dt : datetime) (id_text ext : string) :
  endswith (username +:+ ext)
    (SnapchatDL.destination self username dt id_text ext) = true.
Proof.
  unfold SnapchatDL.destination, join. cbn [fold_left].
  assert (Hn : endswith (username +:+ ext)
                 (SnapchatDL.file_name username dt id_text ext) = true).
  { unfold SnapchatDL.file_name.
    do 6 apply endswith_append. apply endswith_refl. }
  destruct (join2_relative
              (join2 (join2 (SnapchatDL.directory_prefix self) username)
                     (SnapchatDL.date_text dt))
              _ (file_name_no_slash username dt id_text ext)) as [-> | ->].
  - now apply endswith_append.
  - apply endswith_append. cbn [endswith]. rewrite Hn. apply orb_true_r.
Qed.

(** ** The task of one item *)

#[local] Strategy opaque [utc_fields str_of_Z pad2].

Lemma media_task_inv (self : SnapchatDL.t) (username : string)
    (media url : value) (dest : string) :
  SnapchatDL.media_task self username media = Ok (url, dest) ->
  exists m cap ts ty id id_text,
    getitem media "media" = Ok m /\ getitem m "mediaUrl" = Ok url /\
    getitem media "captureTimeSecs" = Ok cap /\ int cap = Ok ts /\
    min_timestamp <= ts <= max_timestamp /\
    getitem m "type" = Ok ty /\ get media "id" = Ok id /\
    str id = Ok id_text /\
    dest = SnapchatDL.destination self username (utc_fields ts) id_text
             (str_opt (SnapchatDL.media_type ty)).
Proof.
  unfold SnapchatDL.media_task.
  destruct (getitem media "media") as [m|] eqn:Em; [|discriminate].
  cbn [rbind].
  destruct (getitem m "mediaUrl") as [u|] eqn:Eu; [|discriminate].
  destruct (getitem media "captureTimeSecs") as [cap|] eqn:Ec; [|discriminate].
  cbn [rbind].
  destruct (int cap) as [ts|] eqn:Et; [|discriminate]. cbn [rbind].
  destruct (SnapchatDL.strf_time ts "%Y-%m-%d") as [date|] eqn:Ed;
    [|discriminate].
  pose proof (strf_time_range _ _ _ Ed) as Hr.
  pose proof (utc_fields_valid ts Hr) as Hv.
  rewrite strf_time_in_range, strftime_date in Ed by exact Hr.
  cbn [rbind].
  destruct (getitem m "type") as [ty|] eqn:Ety; [|discriminate].
  cbn [rbind]. rewrite strf_time_in_range, strftime_stamp by exact Hr.
  cbn [rbind].
  destruct (get media "id") as [id|] eqn:Ei; [|discriminate]. cbn [rbind].
  destruct (str id) as [id_text|] eqn:Es; [|discriminate]. cbn [rbind].
  rewrite (format_file_name _ _ _ _ Hv). cbn [rbind].
  exists m, cap, ts, ty, id, id_text.
  set (dt := utc_fields ts) in *. clearbody dt.
  injection Ed as <-. injection H as <- <-.
  repeat split; try assumption; try lia.
Qed.

Lemma media_task_Ok (self : SnapchatDL.t) (username : string)
    (media m url cap ty id : value) (ts : Z) (id_text : string) :
  getitem media "media" = Ok m -> getitem m "mediaUrl" = Ok url ->
  getitem media "captureTimeSecs" = Ok cap -> int cap = Ok ts ->
  min_timestamp <= ts <= max_timestamp ->
  getitem m "type" = Ok ty -> get media "id" = Ok id -> str id = Ok id_text ->
  SnapchatDL.media_task self username media =
  Ok (url, SnapchatDL.destination self username (utc_fields ts) id_text
             (str_opt (SnapchatDL.media_type ty))).
Proof.
  intros Em Eu Ec Et Hr Ety Ei Es. unfold SnapchatDL.media_task.
  pose proof (utc_fields_valid ts Hr) as Hv.
  rewrite Em. cbn [rbind]. rewrite Eu, Ec. cbn [rbind]. rewrite Et.
  cbn [rbind]. rewrite !strf_time_in_range, strftime_date, strftime_stamp by exact Hr.
  cbn [rbind]. rewrite Ety. cbn [rbind]. rewrite Ei. cbn [rbind]. rewrite Es.
  cbn [rbind]. rewrite (format_file_name _ _ _ _ Hv).
  set (dt := utc_fields ts) in *. clearbody dt. reflexivity.
Qed.

(** ** The orchestrator *)

Lemma lift_run {A} (r : res A) (w : world) : lift r w = (r, w).
Proof. reflexivity. Qed.

Lemma get_stories_Answered (net : network) (username : string)
    (r : response) (w : world) :
  net (SnapchatDL.api_url username) = Answered r ->
  SnapchatDL.get_stories net username w =
  let w1 := extend w [EGet (SnapchatDL.api_url username)] in
  if negb (status_code r =? 200) then
    (Ok {| SnapchatDL.stories_available := false; SnapchatDL.data := None |}, w1)
  else
    match json_body r with
    | Some d =>
        (Ok {| SnapchatDL.stories_available := true;
               SnapchatDL.data := Some d |}, w1)
    | None => (Raise ValueError, w1)
    end.
Proof.
  intros Hn. unfold SnapchatDL.get_stories.
  rewrite format_endpoint. mstep (lift_run _ _).
  mstep (requests_get_Answered _ _ _ _ Hn).
  destruct (negb (status_code r =? 200)); [reflexivity|].
  unfold response_json. destruct (json_body r); reflexivity.
Qed.

Lemma get_stories_Failed (net : network) (username msg : string) (w : world) :
  net (SnapchatDL.api_url username) = Failed msg ->
  SnapchatDL.get_stories net username w =
  (Raise (RequestException msg), extend w [EGet (SnapchatDL.api_url username)]).
Proof.
  intros Hn. unfold SnapchatDL.get_stories.
  rewrite format_endpoint. mstep (lift_run _ _).
  now mraise (requests_get_Failed _ _ _ _ Hn).
Qed.

Lemma download_invalid (self : SnapchatDL.t) (net : network)
    (username : string) (w : world) :
  SnapchatDL.valid_username username = false ->
  SnapchatDL.download self net username w =
  (Raise (Exception "invalid username"), w).
Proof. intros H. unfold SnapchatDL.download. now rewrite H. Qed.

Lemma download_non_200 (self : SnapchatDL.t) (net : network)
    (username : string) (r : response) (w : world) :
  SnapchatDL.valid_username username = true ->
  net (SnapchatDL.api_url username) = Answered r ->
  status_code r <> 200 ->
  exists line,
    SnapchatDL.download self net username w =
    (Ok false, extend w [EGet (SnapchatDL.api_url username); EPrint line]).
Proof.
  intros Hv Hn Hs. destruct (format_no_stories username) as [line Hl].
  exists line. unfold SnapchatDL.download. rewrite Hv. cbv beta iota.
  cbn [negb].
  erewrite bind_Ok by (rewrite (get_stories_Answered _ _ _ _ Hn); cbv zeta;
    apply Z.eqb_neq in Hs; rewrite Hs; reflexivity).
  cbn [SnapchatDL.stories_available negb].
  rewrite Hl. mstep (lift_run _ _). mstep (emit_run _ _).
  rewrite ret_run. worlds.
Qed.

Lemma for_each_cons_Ok (self : SnapchatDL.t) (username : string)
    (media : value) (rest : list value) (task : value * string) (w : world) :
  SnapchatDL.media_task self username media = Ok task ->
  for_each (media :: rest) (SnapchatDL.submit_media self username) w =
  for_each rest (SnapchatDL.submit_media self username)
    (extend w [ESubmit (fst task) (snd task)]).
Proof.
  intros H. cbn [for_each]. unfold SnapchatDL.submit_media at 1.
  unfold bind at 1 2. now rewrite H.
Qed.



(** [download] on a manifest that has its list of snaps. *)
Lemma download_snaps (self : SnapchatDL.t) (net : network) (username : string)
    (r : response) (d story : value) (snaps : list value) (w : world) :
  SnapchatDL.valid_username username = true ->
  net (SnapchatDL.api_url username) = Answered r ->
  status_code r = 200 -> json_body r = Some d ->
  get d "story" = Ok story -> get story "snaps" = Ok (VList snaps) ->
  0 < SnapchatDL.max_workers self ->
  SnapchatDL.download self net username w =
  let items := SnapchatDL.kept (SnapchatDL.limit_story self) snaps in
  let out :=
    for_each items (SnapchatDL.submit_media self username)
      (extend w (EGet (SnapchatDL.api_url username)
                 :: SnapchatDL.progress self username items)) in
  (match fst out with Ok _ => Ok true | Raise e => Raise e end, snd out).
Proof.
  intros Hv Hn Hs Hj Hd Hst Hmw. unfold SnapchatDL.download.
  rewrite Hv. cbv beta iota. cbn [negb].
  erewrite bind_Ok by (rewrite (get_stories_Answered _ _ _ _ Hn); cbv zeta;
    rewrite Hs, Hj; reflexivity).
  cbn [SnapchatDL.stories_available SnapchatDL.data negb].
  mstep (ret_run _ _). rewrite Hd. mstep (lift_run _ _).
  rewrite Hst. mstep (lift_run _ _).
  unfold SnapchatDL.kept, SnapchatDL.progress, SnapchatDL._progressbar,
    SnapchatDL.ThreadPoolExecutor.
  destruct (Z.leb_spec (SnapchatDL.max_workers self) 0) as [|_]; [lia|].
  destruct (SnapchatDL.limit_story self >? -1);
    cbn [slice0 len iter fst snd];
    repeat (first [mstep (lift_run _ _) | mstep (ret_run _ _)]);
    cbn [fst snd len iter];
    destruct (SnapchatDL.no_progress self); cbn [negb];
    repeat (first [mstep (lift_run _ _) | mstep (ret_run _ _)
                  | mstep (emit_run _ _)]);
    cbv zeta; rewrite ?extend_extend; cbn [app];
    unfold bind;
    match goal with
    | |- context [for_each ?i ?f ?w0] => destruct (for_each i f w0) as [[[]|e] w2]
    end; reflexivity.
Qed.


(** ** What the orchestrator can raise *)

Lemma rbind_not_bare {A B} (r : res A) (k : A -> res B) :
  (forall e, r = Raise e -> not_bare e) ->
  (forall a e, k a = Raise e -> not_bare e) ->
  forall e, rbind r k = Raise e -> not_bare e.
Proof.
  destruct r as [a|e0]; simpl; intros H1 H2 e; [apply H2|].
  intros [= <-]. now apply H1.
Qed.

Lemma get_not_bare (v : value) (k : string) (e : exn) :
  get v k = Raise e -> not_bare e.
Proof.
  destruct v; simpl; try (intros [= <-]; exact I).
  destruct (assoc k items); discriminate.
Qed.

Lemma getitem_not_bare (v : value) (k : string) (e : exn) :
  getitem v k = Raise e -> not_bare e.
Proof.
  destruct v; simpl; try (intros [= <-]; exact I).
  destruct (assoc k items); [discriminate | intros [= <-]; exact I].
Qed.

Lemma slice0_not_bare (v : value) (n : Z) (e : exn) :
  slice0 v n = Raise e -> not_bare e.
Proof. destruct v; simpl; try discriminate; intros [= <-]; exact I. Qed.

Lemma len_not_bare (v : value) (e : exn) : len v = Raise e -> not_bare e.
Proof. destruct v; simpl; try discriminate; intros [= <-]; exact I. Qed.

Lemma iter_not_bare (v : value) (e : exn) : iter v = Raise e -> not_bare e.
Proof. destruct v; simpl; try discriminate; intros [= <-]; exact I. Qed.

Lemma int_not_bare (v : value) (e : exn) : int v = Raise e -> not_bare e.
Proof.
  destruct v; simpl; try discriminate; try (intros [= <-]; exact I).
  unfold int_of_str.
  destruct (match int_strip s with EmptyString => _ | _ => _ end);
    [destruct (max_str_digits <? _); [|discriminate]|]; intros [= <-]; exact I.
Qed.

Lemma str_not_bare (v : value) (e : exn) : str v = Raise e -> not_bare e.
Proof. destruct v; discriminate. Qed.

Lemma format_not_bare_two (t : string) :
  (forall args e, format t args = Raise e -> not_bare e) /\
  (forall c args e, format (String c t) args = Raise e -> not_bare e).
Proof.
  induction t as [|a t [IH1 IH2]].
  - split; [discriminate|]. intros c args e. cbn [format].
    destruct (code c =? 123)%N; [intros [= <-]; exact I|].
    destruct (code c =? 125)%N; [intros [= <-]; exact I | discriminate].
  - split; [apply IH2|]. intros c args e. cbn [format].
    destruct (code c =? 123)%N.
    + destruct (code a =? 125)%N; [|intros [= <-]; exact I].
      destruct args as [|x args']; [intros [= <-]; exact I|].
      apply rbind_not_bare; [apply IH1 | discriminate].
    + destruct (code c =? 125)%N; [intros [= <-]; exact I|].
      apply rbind_not_bare; [apply IH2 | discriminate].
Qed.

Lemma format_not_bare (tmpl : string) (args : list string) (e : exn) :
  format tmpl args = Raise e -> not_bare e.
Proof. apply format_not_bare_two. Qed.

Lemma directive_not_bare (dt : datetime) (d : ascii) (e : exn) :
  directive dt d = Raise e -> not_bare e.
Proof.
  unfold directive. destruct (code d) as [|p]; [intros [= <-]; exact I|].
  do 7 (try destruct p as [p|p|]); try discriminate; intros [= <-]; exact I.
Qed.

Lemma strftime_not_bare_two (dt : datetime) (fmt : string) :
  (forall e, strftime dt fmt = Raise e -> not_bare e) /\
  (forall c e, strftime dt (String c fmt) = Raise e -> not_bare e).
Proof.
  induction fmt as [|a t [IH1 IH2]].
  - split; [discriminate|]. intros c e. cbn [strftime].
    destruct (code c =? 37)%N; [intros [= <-]; exact I | discriminate].
  - split; [apply IH2|]. intros c e. cbn [strftime].
    destruct (code c =? 37)%N.
    + apply rbind_not_bare; [apply directive_not_bare|].
      intros x. apply rbind_not_bare; [apply IH1 | discriminate].
    + apply rbind_not_bare; [apply IH2 | discriminate].
Qed.

Lemma strf_time_not_bare (t : Z) (fmt : string) (e : exn) :
  SnapchatDL.strf_time t fmt = Raise e -> not_bare e.
Proof.
  unfold SnapchatDL.strf_time. apply rbind_not_bare.
  - unfold utcfromtimestamp. intros e0.
    destruct ((t <? min_time_t) || (max_time_t <? t)); [intros [= <-]; exact I|].
    destruct ((t <? min_gmtime) || (max_gmtime <? t)); [intros [= <-]; exact I|].
    destruct ((min_timestamp <=? t) && (t <=? max_timestamp));
      [discriminate | intros [= <-]; exact I].
  - intros dt. apply strftime_not_bare_two.
Qed.

Lemma media_task_not_bare (self : SnapchatDL.t) (username : string)
    (media : value) (e : exn) :
  SnapchatDL.media_task self username media = Raise e -> not_bare e.
Proof.
  unfold SnapchatDL.media_task. revert e.
  repeat (cbv beta zeta;
    first
      [ intros ?; first
          [ apply getitem_not_bare | apply get_not_bare | apply int_not_bare
          | apply str_not_bare | apply strf_time_not_bare
          | apply format_not_bare | discriminate ]
      | apply rbind_not_bare; [|intros ?] ]).
Qed.

Section RaisesOnly.
Context (Q : exn -> Prop).

Lemma raises_only_ret {A} (a : A) : raises_only Q (ret a).
Proof. intros w e w'. discriminate. Qed.

Lemma raises_only_raise {A} (e : exn) : Q e -> raises_only Q (@raise A e).
Proof. intros H w e' w' [= <- _]. exact H. Qed.

Lemma raises_only_lift {A} (r : res A) :
  (forall e, r = Raise e -> Q e) -> raises_only Q (lift r).
Proof. intros H w e w' [= -> _]. now apply H. Qed.

Lemma raises_only_emit (ev : event) : raises_only Q (emit ev).
Proof. intros w e w'. discriminate. Qed.

Lemma raises_only_bind {A B} (m : M A) (k : A -> M B) :
  raises_only Q m -> (forall a, raises_only Q (k a)) ->
  raises_only Q (bind m k).
Proof.
  intros Hm Hk w e w'. unfold bind.
  destruct (m w) as [[a|e0] w1] eqn:E.
  - apply Hk.
  - intros [= <- _]. eapply Hm, E.
Qed.

Lemma raises_only_if {A} (b : bool) (m1 m2 : M A) :
  raises_only Q m1 -> raises_only Q m2 ->
  raises_only Q (if b then m1 else m2).
Proof. now destruct b. Qed.

Lemma raises_only_for_each {A} (items : list A) (body : A -> M unit) :
  (forall x, raises_only Q (body x)) -> raises_only Q (for_each items body).
Proof.
  intros H. induction items as [|x rest IH]; simpl.
  - apply raises_only_ret.
  - apply raises_only_bind; [apply H | intros _; exact IH].
Qed.
End RaisesOnly.

Lemma get_stories_not_bare (net : network) (username : string) :
  raises_only not_bare (SnapchatDL.get_stories net username).
Proof.
  unfold SnapchatDL.get_stories.
  apply raises_only_bind; [apply raises_only_lift, format_not_bare|].
  intros url. apply raises_only_bind.
  - unfold requests_get. apply raises_only_bind; [apply raises_only_emit|].
    intros _. destruct (net url);
      [now apply raises_only_raise | apply raises_only_ret].
  - intros r. apply raises_only_if; [apply raises_only_ret|].
    apply raises_only_bind; [|intros; apply raises_only_ret].
    unfold response_json. destruct (json_body r);
      [apply raises_only_ret | now apply raises_only_raise].
Qed.

(** A valid user name never meets the error of the invalid ones. *)
Lemma download_valid_not_bare (self : SnapchatDL.t) (net : network)
    (username : string) :
  SnapchatDL.valid_username username = true ->
  raises_only not_bare (SnapchatDL.download self net username).
Proof.
  intros Hv. unfold SnapchatDL.download. rewrite Hv. cbn [negb].
  apply raises_only_bind; [apply get_stories_not_bare|]. intros reply.
  apply raises_only_if.
  - apply raises_only_bind; [apply raises_only_lift, format_not_bare|].
    intros line. apply raises_only_bind; [apply raises_only_emit|].
    intros _. apply raises_only_ret.
  - apply raises_only_bind.
    { destruct (SnapchatDL.data reply);
        [apply raises_only_ret | now apply raises_only_raise]. }
    intros d. apply raises_only_bind; [apply raises_only_lift, get_not_bare|].
    intros story. apply raises_only_bind; [apply raises_only_lift, get_not_bare|].
    intros stories. apply raises_only_bind.
    { apply raises_only_if; [|apply raises_only_ret].
      apply raises_only_bind; [apply raises_only_lift, slice0_not_bare|].
      intros cut. apply raises_only_bind; [apply raises_only_lift, len_not_bare|].
      intros n. apply raises_only_ret. }
    intros limited. apply raises_only_bind; [apply raises_only_lift, len_not_bare|].
    intros total. apply raises_only_bind.
    { unfold SnapchatDL._progressbar.
      apply raises_only_if; [apply raises_only_emit | apply raises_only_ret]. }
    intros _. apply raises_only_bind.
    { unfold SnapchatDL.ThreadPoolExecutor.
      apply raises_only_if; [now apply raises_only_raise | apply raises_only_ret]. }
    intros _. apply raises_only_bind; [apply raises_only_lift, iter_not_bare|].
    intros items. apply raises_only_bind; [|intros; apply raises_only_ret].
    apply raises_only_for_each. intros media. unfold SnapchatDL.submit_media.
    apply raises_only_bind; [apply raises_only_lift, media_task_not_bare|].
    intros task. apply raises_only_emit.
Qed.

(** ** Both workers up to the request *)

Ltac traces :=
  cbn [snd trace extend store];
  rewrite <- ?app_assoc, ?app_nil_r; cbn [app]; reflexivity.

Lemma raise_for_status_run {A} (r : response) (w : world) :
  exists e, @raise_raise_for_status A r w = (Raise e, w).
Proof.
  unfold raise_raise_for_status.
  destruct ((400 <=? status_code r) && (status_code r <? 600)); eauto.
Qed.

Lemma status_bad_run (r : response) (w : world) :
  status_code r <> 200 ->
  exists e,
    (if negb (status_code r =? 200) then raise_raise_for_status r else ret tt) w
    = (Raise e, w).
Proof.
  intros H. apply Z.eqb_neq in H. rewrite H. apply raise_for_status_run.
Qed.

(** [downloader.download_url] on a vacant destination reaches its request
    after the clean-up and the pause. *)
Lemma downloader_reaches_get net url dest secs w :
  vacant w dest -> 0 <= secs ->
  exists rest,
    trace (snd (Downloader.download_url net url dest secs w)) =
    trace w ++ made_dirs dest ++ removed_first w dest ++
    [ESleep secs; EGet url] ++ rest.
Proof.
  intros Hv Hs. destruct (net url) as [msg|r] eqn:Hn.
  - exists []. unfold Downloader.download_url.
    mstep (makedirs_guarded dest w).
    mstep (cleanup_vacant w dest _ Hv).
    mstep (sleep_Ok secs _ Hs).
    mraise (requests_get_Failed net url msg _ Hn).
    traces.
  - destruct (Z.eq_dec (status_code r) 200) as [Hst|Hst].
    + rewrite (downloader_streams net url dest secs w r Hv Hs Hn Hst). cbv zeta.
      destruct (body_error r) as [e|]; [destruct (is_RequestException e)|];
        [ exists (ECreate dest :: map (EWrite dest) (body r) ++ [ELog e])
        | exists (ECreate dest :: map (EWrite dest) (body r))
        | exists (ECreate dest :: map (EWrite dest) (body r)) ]; traces.
    + exists []. unfold Downloader.download_url.
      mstep (makedirs_guarded dest w).
      mstep (cleanup_vacant w dest _ Hv).
      mstep (sleep_Ok secs _ Hs).
      mstep (requests_get_Answered net url r _ Hn).
      destruct (status_bad_run r
        (extend (extend (extend (store w (delete dest (files w)))
           (made_dirs dest ++ removed_first w dest)) [ESleep secs]) [EGet url])
        Hst) as [e He].
      mraise He. traces.
Qed.

Lemma method_reaches_get net url dest w :
  vacant w dest -> dirname dest <> EmptyString ->
  exists rest,
    trace (snd (SnapchatDL.download_url net url dest w)) =
    trace w ++ [EMakedirs (dirname dest)] ++ removed_first w dest ++
    [ECreate dest; EGet url] ++ rest.
Proof.
  intros Hv Hd.
  assert (Hgone : forall es,
    files (extend (store w (delete dest (files w))) es) !! dest = None)
    by (intros es; apply lookup_delete_eq).
  assert (Hpre : forall k : response -> M unit,
    (let* _ := makedirs_exist_ok (dirname dest) in
     let* _ := when (and_then (isfile dest)
                       (let* size := getsize dest in ret (size =? 0)))
                    (remove dest) in
     let* _ := open_xb dest in
     let* response := requests_get net url in k response) w
    = match net url with
      | Failed msg =>
          (Raise (RequestException msg),
           extend (store w (<[dest := []]> (files w)))
             ([EMakedirs (dirname dest)] ++ removed_first w dest ++
              [ECreate dest; EGet url]))
      | Answered r =>
          k r (extend (store w (<[dest := []]> (files w)))
                 ([EMakedirs (dirname dest)] ++ removed_first w dest ++
                  [ECreate dest; EGet url]))
      end).
  { intros k. mstep (makedirs_nonempty _ w Hd).
    mstep (cleanup_vacant w dest _ Hv).
    mstep (open_xb_None dest _ (Hgone _)).
    destruct (net url) as [msg|r] eqn:Hn.
    - mraise (requests_get_Failed net url msg _ Hn). worlds.
    - mstep (requests_get_Answered net url r _ Hn). f_equal. worlds. }
  unfold SnapchatDL.download_url. rewrite Hpre.
  destruct (net url) as [msg|r] eqn:Hn.
  - exists []. traces.
  - match goal with |- context [bind ?m ?k ?w0] =>
      assert (He : emits (fun _ => True) (bind m k))
    end.
    { repeat emits_step. }
    match goal with |- context [snd (?f ?w0)] =>
      destruct (He w0) as (rest & Hr & _)
    end.
    exists rest. rewrite Hr. traces.
Qed.

(** ** Every destination of the orchestrator has a directory part *)





Lemma join2_date_nonempty (path : string) (dt : datetime) :
  join2 path (SnapchatDL.date_text dt) <> EmptyString.
Proof.
  assert (Hd : SnapchatDL.date_text dt <> EmptyString).
  { unfold SnapchatDL.date_text. destruct (str_of_Z (year dt)); discriminate. }
  unfold join2.
  destruct (startswith_char slash (SnapchatDL.date_text dt)); [exact Hd|].
  destruct (str_is_empty path || endswith_char slash path);
    destruct path; try discriminate; exact Hd.
Qed.


(** ** The claims *)

(** C1, the claim as stated fails: an empty destination whose size equals
    the declared [Content-length] of 0 is not skipped; it is removed and
    created again, and the call returns normally. *)
Lemma C1_empty_file_is_fetched_again :
  files (Examples.world_with "a.jpg" []) !! "a.jpg" = Some [] /\
  content_length Examples.empty_reply = Some "0" /\
  int_of_str "0" = Ok (Z.of_nat (List.length (@nil byte))) /\
  Downloader.download_url (Examples.always Examples.empty_reply)
    "https://cdn/a" "a.jpg" 0 (Examples.world_with "a.jpg" [])
  = (Ok tt,
     extend (Examples.world_with "a.jpg" [])
       [ERemove "a.jpg"; ESleep 0; EGet "https://cdn/a"; ECreate "a.jpg"]).
Proof. vm_compute. repeat split. Qed.

(** C1, amended: when the destination holds a non-empty file whose size is
    the declared [Content-length] of a 200 response, [download_url] raises
    [FileExistsError] and the files are as before: nothing is removed,
    created or written.  For the method of the class this holds whenever the
    destination has a directory part. *)
Theorem C1_complete_file_is_skipped
    (net : network) (url dest : string) (secs : Z) (w : world)
    (c : list byte) (r : response) (h : string) :
  files w !! dest = Some c -> c <> [] ->
  net url = Answered r -> status_code r = 200 ->
  content_length r = Some h -> int_of_str h = Ok (Z.of_nat (List.length c)) ->
  0 <= secs ->
  Downloader.download_url net url dest secs w =
    (Raise FileExistsError,
     extend w (made_dirs dest ++ [ESleep secs; EGet url])) /\
  (dirname dest <> EmptyString ->
   SnapchatDL.download_url net url dest w =
     (Raise FileExistsError, extend w [EMakedirs (dirname dest)])).
Proof.
  intros Hf Hne Hn Hst Hh _ Hs. split.
  - now apply downloader_skips with c r h.
  - intros Hd. now apply method_skips with c.
Qed.

Lemma C1_complete_file_is_skipped_witness :
  Downloader.download_url (Examples.always (Examples.media_reply None))
    "https://cdn/a" "d/a.jpg" 1 (Examples.world_with "d/a.jpg" [x01; x02; x03]%byte)
  = (Raise FileExistsError,
     extend (Examples.world_with "d/a.jpg" [x01; x02; x03]%byte)
       (made_dirs "d/a.jpg" ++ [ESleep 1; EGet "https://cdn/a"])).
Proof.
  refine (proj1 (C1_complete_file_is_skipped
    (Examples.always (Examples.media_reply None)) "https://cdn/a" "d/a.jpg" 1
    (Examples.world_with "d/a.jpg" [x01; x02; x03]%byte)
    [x01; x02; x03]%byte (Examples.media_reply None) "3" _ _ _ _ _ _ _));
    try reflexivity; try discriminate.
Defined.

(** C2: the code raises where the claim promises the "no stories" outcome.
    A 200 response whose JSON object has no [story] makes [download] raise
    [AttributeError]; one whose [story] has no [snaps] makes it raise
    [TypeError]. *)
Theorem C2_manifest_without_snaps_raises :
  fst (SnapchatDL.download Examples.config
         (Examples.always (Examples.json_reply 200 (Some (VDict []))))
         "bob" empty_world) = Raise AttributeError /\
  fst (SnapchatDL.download Examples.config
         (Examples.always
            (Examples.json_reply 200 (Some (VDict [("story", VDict [])]))))
         "bob" empty_world) = Raise TypeError.
Proof. split; vm_compute; reflexivity. Qed.

(** C3, the claim as stated fails: the one-letter name U+00E9 is accepted,
    and it is not in the language of [^[A-Za-z0-9_.]+$]. *)
Lemma C3_accepts_letter_outside_ascii :
  SnapchatDL.valid_username Examples.e_acute = true /\
  username_regex Examples.e_acute = false.
Proof. split; reflexivity. Qed.

(** C3, amended: [valid_username(s)] is [True] exactly when [s] is not
    empty and each of its characters is a word character in the Unicode
    sense ([\w]) or a dot; on ASCII strings this is a full match of
    [^[A-Za-z0-9_.]+$]; and [download(s)] raises the invalid-username error
    exactly when [valid_username(s)] is [False]. *)
Theorem C3_valid_username_word_characters (s : string) :
  (SnapchatDL.valid_username s = true <->
   s <> EmptyString /\ Forall (fun c => username_class c = true) (chars s)) /\
  (Forall (fun c => (code c < 128)%N) (chars s) ->
   SnapchatDL.valid_username s = username_regex s) /\
  (forall self net w,
     fst (SnapchatDL.download self net s w) = Raise (Exception "invalid username")
     <-> SnapchatDL.valid_username s = false).
Proof.
  split; [|split].
  - rewrite valid_username_spec, andb_true_iff, negb_true_iff.
    assert (Hall : forall l : list ascii,
              forallb username_class l = true <->
              Forall (fun c => username_class c = true) l).
    { induction l as [|c l IH]; simpl.
      - split; [constructor | reflexivity].
      - rewrite andb_true_iff, IH. split.
        + intros [Hc Hl]. now constructor.
        + intros H. inversion H; subst. auto. }
    rewrite Hall. destruct s; simpl; intuition congruence.
  - apply valid_username_ascii.
  - intros self net w. split.
    + intros H. destruct (SnapchatDL.valid_username s) eqn:Hv; [|reflexivity].
      exfalso.
      destruct (SnapchatDL.download self net s w) as [res w'] eqn:E.
      simpl in H. subst res.
      exact (download_valid_not_bare self net s Hv w _ w' E).
    + intros Hv. now rewrite download_invalid.
Qed.

(** C9, the claim as stated fails: the one-letter name U+00E9 fails the
    validity pattern [^[A-Za-z0-9_.]+$] of the specification, and [download]
    does not raise for it: it requests the manifest. *)
Lemma C9_name_outside_pattern_is_requested :
  username_regex Examples.e_acute = false /\
  SnapchatDL.download Examples.config
    (Examples.always (Examples.json_reply 404 None)) Examples.e_acute
    empty_world
  = (Ok false,
     extend empty_world
       [EGet (SnapchatDL.api_url Examples.e_acute);
        EPrint (SnapchatDL.no_stories_line Examples.e_acute)]).
Proof. split; vm_compute; reflexivity. Qed.

(** C9, amended: a user name that [valid_username] refuses, and so every
    ASCII name that fails the pattern [^[A-Za-z0-9_.]+$], makes [download]
    raise before anything else happens: the world is the one before the
    call, with no request, no submission and no change of a file. *)
Theorem C9_invalid_username_fails_first
    (self : SnapchatDL.t) (net : network) (username : string) (w : world) :
  SnapchatDL.valid_username username = false \/
  (Forall (fun c => (code c < 128)%N) (chars username) /\
   username_regex username = false) ->
  SnapchatDL.download self net username w =
  (Raise (Exception "invalid username"), w).
Proof.
  intros [H | [Hascii H]]; apply download_invalid; [exact H|].
  now rewrite (valid_username_ascii username Hascii).
Qed.

Lemma C9_invalid_username_fails_first_witness :
  SnapchatDL.download Examples.config
    (Examples.always (Examples.json_reply 200 None)) "no such user"
    empty_world
  = (Raise (Exception "invalid username"), empty_world).
Proof.
  apply (C9_invalid_username_fails_first Examples.config
           (Examples.always (Examples.json_reply 200 None)) "no such user"
           empty_world).
  right. split; [|reflexivity].
  repeat (constructor; [reflexivity|]). constructor.
Defined.







(** The scenario of the specification: three snaps, [limit_story=2]. *)
Example three_snaps_limit_two :
  SnapchatDL.download Examples.config_limit_2
    (Examples.always (Examples.json_reply 200
       (Some (Examples.manifest
                [Examples.snap_a; Examples.snap_b; Examples.snap_c]))))
    "bob" empty_world
  = (Ok true,
     extend empty_world
       [EGet "https://storysharing.snapchat.com/v1/fetch/bob";
        ESubmit (VStr "https://cdn/a")
          "./bob/2020-06-29/2020-06-29_18-25-23 a1 bob.jpg";
        ESubmit (VStr "https://cdn/b")
          "./bob/2020-06-29/2020-06-29_18-26-40 b2 bob.mp4"]).
Proof. vm_compute. reflexivity. Qed.

(** C5, the claim as stated fails: the method of the class, which is the
    worker [download] submits, requests the media with no pause before. *)
Lemma C5_method_requests_without_pause :
  trace (snd (SnapchatDL.download_url
                (Examples.always (Examples.media_reply None))
                "https://cdn/a" "d/a.jpg" empty_world))
  = [EMakedirs "d"; ECreate "d/a.jpg"; EGet "https://cdn/a";
     EWrite "d/a.jpg" [x01; x02]%byte; EWrite "d/a.jpg" [x03]%byte].
Proof. vm_compute. reflexivity. Qed.

(** C5, amended: a call of [downloader.download_url] makes at most one
    request, and the pause of [sleep_interval] seconds comes right before
    it; a call of the method [SnapchatDL.download_url] never pauses. *)
Theorem C5_downloader_pauses_before_request
    (net : network) (url dest : string) (secs : Z) (w : world) :
  (exists pre post,
     trace (snd (Downloader.download_url net url dest secs w))
     = trace w ++ pre ++ post /\
     Forall not_get pre /\
     (post = [] \/
      exists rest,
        post = ESleep secs :: EGet url :: rest /\ Forall not_get rest)) /\
  emits not_sleep (SnapchatDL.download_url net url dest).
Proof.
  split; [apply downloader_one_get | apply method_never_sleeps].
Qed.

(** C6: a destination that exists with size 0 is removed before the
    request, and the request follows in the same call; when a 200 response
    arrives whole, the call returns normally and the destination holds the
    body.  For the method of the class this holds whenever the destination
    has a directory part (and the response carries [Content-length]). *)
Theorem C6_empty_file_is_removed_then_fetched
    (net : network) (url dest : string) (secs : Z) (w : world) :
  files w !! dest = Some [] -> 0 <= secs ->
  (exists rest,
     trace (snd (Downloader.download_url net url dest secs w)) =
     trace w ++ made_dirs dest ++
     [ERemove dest; ESleep secs; EGet url] ++ rest) /\
  (forall r,
     net url = Answered r -> status_code r = 200 -> body_error r = None ->
     Downloader.download_url net url dest secs w =
     (Ok tt,
      extend (store w (<[dest := concat (body r)]> (files w)))
        (made_dirs dest ++
         [ERemove dest; ESleep secs; EGet url; ECreate dest] ++
         map (EWrite dest) (body r)))) /\
  (dirname dest <> EmptyString ->
   (exists rest,
      trace (snd (SnapchatDL.download_url net url dest w)) =
      trace w ++
      [EMakedirs (dirname dest); ERemove dest; ECreate dest; EGet url] ++ rest) /\
   (forall r h,
      net url = Answered r -> status_code r = 200 ->
      content_length r = Some h -> body_error r = None ->
      SnapchatDL.download_url net url dest w =
      (Ok tt,
       extend (store w (<[dest := concat (body r)]> (files w)))
         ([EMakedirs (dirname dest); ERemove dest; ECreate dest; EGet url] ++
          map (EWrite dest) (body r))))).
Proof.
  intros Hf Hs.
  assert (Hv : vacant w dest) by (intros c Hc; congruence).
  assert (Hrm : removed_first w dest = [ERemove dest])
    by (unfold removed_first; now rewrite Hf).
  split; [|split].
  - destruct (downloader_reaches_get net url dest secs w Hv Hs) as [rest H].
    exists rest. now rewrite H, Hrm.
  - intros r Hn Hst He.
    rewrite (downloader_streams net url dest secs w r Hv Hs Hn Hst).
    cbv zeta. now rewrite He, Hrm.
  - intros Hd. split.
    + destruct (method_reaches_get net url dest w Hv Hd) as [rest H].
      exists rest. now rewrite H, Hrm.
    + intros r h Hn Hst Hh He.
      rewrite (method_streams net url dest w r h Hv Hd Hn Hst Hh).
      cbv zeta. now rewrite He, Hrm.
Qed.

Lemma C6_empty_file_is_removed_then_fetched_witness :
  Downloader.download_url (Examples.always (Examples.media_reply None))
    "https://cdn/a" "d/a.jpg" 1 (Examples.world_with "d/a.jpg" [])
  = (Ok tt,
     extend (store (Examples.world_with "d/a.jpg" [])
               (<["d/a.jpg" := [x01; x02; x03]%byte]>
                  (files (Examples.world_with "d/a.jpg" []))))
       (made_dirs "d/a.jpg" ++
        [ERemove "d/a.jpg"; ESleep 1; EGet "https://cdn/a"; ECreate "d/a.jpg"] ++
        [EWrite "d/a.jpg" [x01; x02]%byte; EWrite "d/a.jpg" [x03]%byte])).
Proof.
  refine (proj1 (proj2 (C6_empty_file_is_removed_then_fetched
    (Examples.always (Examples.media_reply None)) "https://cdn/a" "d/a.jpg" 1
    (Examples.world_with "d/a.jpg" []) _ _))
    (Examples.media_reply None) eq_refl eq_refl eq_refl);
    [reflexivity | lia].
Defined.

(** C7: the code appends the text [None] where the claim says that nothing
    is appended.  For a media type outside the three known ones
    [media_type] returns [None], and [str.format] prints it. *)
Theorem C7_unknown_type_appends_None :
  SnapchatDL.media_type (VStr "GIF") = None /\
  SnapchatDL.media_task Examples.config "bob" Examples.snap_gif =
  Ok (VStr "https://cdn/g", "./bob/1970-01-01/1970-01-01_00-00-00 g4 bobNone").
Proof. split; vm_compute; reflexivity. Qed.

(** The known types, and the end of every destination. *)
Lemma media_type_known :
  SnapchatDL.media_type (VStr "IMAGE") = Some ".jpg" /\
  SnapchatDL.media_type (VStr "VIDEO") = Some ".mp4" /\
  SnapchatDL.media_type (VStr "VIDEO_NO_SOUND") = Some ".mp4".
Proof. repeat split. Qed.

Lemma media_type_unknown (type : value) :
  type <> VStr "IMAGE" -> type <> VStr "VIDEO" ->
  type <> VStr "VIDEO_NO_SOUND" ->
  SnapchatDL.media_type type = None.
Proof.
  intros H1 H2 H3. unfold SnapchatDL.media_type.
  destruct type as [| | |s| |]; try reflexivity. cbn [eq].
  destruct (String.eqb_spec s "IMAGE"); [congruence|].
  destruct (String.eqb_spec s "VIDEO"); [congruence|].
  destruct (String.eqb_spec s "VIDEO_NO_SOUND"); [congruence|].
  reflexivity.
Qed.

Lemma destination_extension (self : SnapchatDL.t) (username : string)
    (media url : value) (dest : string) :
  SnapchatDL.media_task self username media = Ok (url, dest) ->
  exists m type,
    getitem media "media" = Ok m /\ getitem m "type" = Ok type /\
    endswith (username +:+ str_opt (SnapchatDL.media_type type)) dest = true.
Proof.
  intros H. apply media_task_inv in H
    as (m & cap & ts & ty & id & id_text & Hm & _ & _ & _ & _ & Hty & _ & _ & ->).
  exists m, ty. repeat split; try assumption. apply destination_suffix.
Qed.

(** C8, the claim as stated fails: after an error in the middle of the
    transfer the method of the class, which is the worker [download]
    submits, has removed the partial file. *)
Lemma C8_method_removes_partial_file :
  SnapchatDL.download_url
    (Examples.always (Examples.media_reply (Some (RequestException "reset"))))
    "https://cdn/a" "d/a.jpg" empty_world
  = (Ok tt,
     extend empty_world
       [EMakedirs "d"; ECreate "d/a.jpg"; EGet "https://cdn/a";
        EWrite "d/a.jpg" [x01; x02]%byte; EWrite "d/a.jpg" [x03]%byte;
        EPrintRed (RequestException "reset"); ERemove "d/a.jpg"]) /\
  files empty_world !! "d/a.jpg" = None.
Proof. split; vm_compute; reflexivity. Qed.

(** C8, amended: when the stream of a 200 response breaks with a
    [RequestException], neither worker raises.  [downloader.download_url]
    logs the error and leaves at the destination what was written;
    the method [SnapchatDL.download_url] prints the error and removes the
    destination. *)
Theorem C8_transfer_error_is_not_raised
    (net : network) (url dest : string) (secs : Z) (w : world)
    (r : response) (e : exn) :
  vacant w dest -> 0 <= secs ->
  net url = Answered r -> status_code r = 200 ->
  body_error r = Some e -> is_RequestException e = true ->
  Downloader.download_url net url dest secs w =
    (Ok tt,
     extend (store w (<[dest := concat (body r)]> (files w)))
       (made_dirs dest ++ removed_first w dest ++
        [ESleep secs; EGet url; ECreate dest] ++
        map (EWrite dest) (body r) ++ [ELog e])) /\
  (dirname dest <> EmptyString ->
   forall h, content_length r = Some h ->
   SnapchatDL.download_url net url dest w =
     (Ok tt,
      extend (store w (delete dest (files w)))
        ([EMakedirs (dirname dest)] ++ removed_first w dest ++
         [ECreate dest; EGet url] ++ map (EWrite dest) (body r) ++
         [EPrintRed e; ERemove dest]))).
Proof.
  intros Hv Hs Hn Hst He Hx. split.
  - rewrite (downloader_streams net url dest secs w r Hv Hs Hn Hst).
    cbv zeta. rewrite He, Hx. worlds.
  - intros Hd h Hh.
    rewrite (method_streams net url dest w r h Hv Hd Hn Hst Hh).
    cbv zeta. rewrite He, Hx. worlds.
Qed.

Lemma C8_transfer_error_is_not_raised_witness :
  Downloader.download_url
    (Examples.always (Examples.media_reply (Some (RequestException "reset"))))
    "https://cdn/a" "d/a.jpg" 1 empty_world
  = (Ok tt,
     extend (store empty_world
               (<["d/a.jpg" := [x01; x02; x03]%byte]> (files empty_world)))
       (made_dirs "d/a.jpg" ++ removed_first empty_world "d/a.jpg" ++
        [ESleep 1; EGet "https://cdn/a"; ECreate "d/a.jpg"] ++
        [EWrite "d/a.jpg" [x01; x02]%byte; EWrite "d/a.jpg" [x03]%byte] ++
        [ELog (RequestException "reset")])).
Proof.
  refine (proj1 (C8_transfer_error_is_not_raised
    (Examples.always (Examples.media_reply (Some (RequestException "reset"))))
    "https://cdn/a" "d/a.jpg" 1 empty_world
    (Examples.media_reply (Some (RequestException "reset")))
    (RequestException "reset") _ _ eq_refl eq_refl eq_refl eq_refl));
    [intros c Hc; discriminate Hc | lia].
Defined.

(** C10: the date and the time in the destination of an item are the
    fields of the UTC time of its [captureTimeSecs]: a date and a time of
    day that exist and that lie that many seconds after the epoch in UTC.
    The task submitted is the same in every world, whatever the time zone
    of the machine. *)
Theorem C10_destination_uses_utc
    (self : SnapchatDL.t) (username : string) (media url : value)
    (dest : string) :
  SnapchatDL.media_task self username media = Ok (url, dest) ->
  exists cap ts id_text ext,
    getitem media "captureTimeSecs" = Ok cap /\ int cap = Ok ts /\
    dest = SnapchatDL.destination self username (utc_fields ts) id_text ext /\
    valid_datetime (utc_fields ts) /\
    timegm (utc_fields ts) = ts /\
    forall w,
      SnapchatDL.submit_media self username media w =
      (Ok tt, extend w [ESubmit url dest]).
Proof.
  intros H. pose proof H as H'. apply media_task_inv in H'
    as (m & cap & ts & ty & id & id_text & _ & _ & Hc & Hi & Hr & _ & _ & _ & Hd).
  exists cap, ts, id_text, (str_opt (SnapchatDL.media_type ty)).
  split; [exact Hc|]. split; [exact Hi|]. split; [exact Hd|].
  split; [now apply utc_fields_valid|].
  split; [apply utc_fields_timegm|].
  intros w. unfold SnapchatDL.submit_media, bind. rewrite lift_run, H.
  reflexivity.
Qed.

Lemma C10_destination_uses_utc_witness :
  exists cap ts id_text ext,
    getitem Examples.snap_a "captureTimeSecs" = Ok cap /\ int cap = Ok ts /\
    "./bob/2020-06-29/2020-06-29_18-25-23 a1 bob.jpg" =
      SnapchatDL.destination Examples.config "bob" (utc_fields ts) id_text ext /\
    valid_datetime (utc_fields ts) /\
    timegm (utc_fields ts) = ts /\
    forall w,
      SnapchatDL.submit_media Examples.config "bob" Examples.snap_a w =
      (Ok tt, extend w [ESubmit (VStr "https://cdn/a")
                          "./bob/2020-06-29/2020-06-29_18-25-23 a1 bob.jpg"]).
Proof.
  apply (C10_destination_uses_utc Examples.config "bob" Examples.snap_a
           (VStr "https://cdn/a")
           "./bob/2020-06-29/2020-06-29_18-25-23 a1 bob.jpg").
  vm_compute. reflexivity.
Defined.

(** A worker that read the local clock would depend on the zone:
    1593455123 is 18:25:23 in UTC and 20:25:23 two hours east of it. *)
Example utc_not_local :
  SnapchatDL.time_text (utc_fields 1593455123) = "18-25-23" /\
  SnapchatDL.time_text (utc_fields (1593455123 + 7200)) = "20-25-23".
Proof. split; vm_compute; reflexivity. Qed.

(** The two halves of the manifest cases: a response that is not 200 is
    the "no stories" outcome; a 200 response without [story] is an
    [AttributeError]. *)
Lemma download_missing_story (self : SnapchatDL.t) (net : network)
    (username : string) (r : response) (d : value) (w : world) :
  SnapchatDL.valid_username username = true ->
  net (SnapchatDL.api_url username) = Answered r ->
  status_code r = 200 -> json_body r = Some d ->
  get d "story" = Ok VNone ->
  SnapchatDL.download self net username w =
  (Raise AttributeError, extend w [EGet (SnapchatDL.api_url username)]).
Proof.
  intros Hv Hn Hs Hj Hd. unfold SnapchatDL.download.
  rewrite Hv. cbv beta iota. cbn [negb].
  erewrite bind_Ok by (rewrite (get_stories_Answered _ _ _ _ Hn); cbv zeta;
    rewrite Hs, Hj; reflexivity).
  cbn [SnapchatDL.stories_available SnapchatDL.data negb].
  mstep (ret_run _ _). rewrite Hd. mstep (lift_run _ _).
  now mraise (lift_run _ _).
Qed.

(** ** Further properties of the two workers *)

Section TouchesOnly.
Context (dest : string).

Lemma touches_ret {A} (a : A) : touches_only dest (ret a).
Proof. intros w p _. reflexivity. Qed.

Lemma touches_raise {A} (e : exn) : touches_only dest (@raise A e).
Proof. intros w p _. reflexivity. Qed.

Lemma touches_emit (ev : event) : touches_only dest (emit ev).
Proof. intros w p _. reflexivity. Qed.

Lemma touches_bind {A B} (m : M A) (k : A -> M B) :
  touches_only dest m -> (forall a, touches_only dest (k a)) ->
  touches_only dest (bind m k).
Proof.
  intros Hm Hk w p Hp. unfold bind. specialize (Hm w p Hp).
  destruct (m w) as [[a|e] w1]; simpl in Hm; [|exact Hm].
  now rewrite (Hk a w1 p Hp).
Qed.

Lemma touches_if {A} (b : bool) (m1 m2 : M A) :
  touches_only dest m1 -> touches_only dest m2 ->
  touches_only dest (if b then m1 else m2).
Proof. now destruct b. Qed.

Lemma touches_try_except {A} (m : M A) (h : exn -> M A) :
  touches_only dest m -> (forall e, touches_only dest (h e)) ->
  touches_only dest (try_except_RequestException m h).
Proof.
  intros Hm Hh w p Hp. unfold try_except_RequestException.
  specialize (Hm w p Hp).
  destruct (m w) as [[a|e] w1]; simpl in Hm; [exact Hm|].
  destruct (is_RequestException e); [|exact Hm].
  now rewrite (Hh e w1 p Hp).
Qed.

Lemma touches_when (c : M bool) (m : M unit) :
  touches_only dest c -> touches_only dest m -> touches_only dest (when c m).
Proof.
  intros Hc Hm. apply touches_bind; [exact Hc|].
  intros b. apply touches_if; [exact Hm | apply touches_ret].
Qed.

Lemma touches_and_then (a b : M bool) :
  touches_only dest a -> touches_only dest b ->
  touches_only dest (and_then a b).
Proof.
  intros Ha Hb. apply touches_bind; [exact Ha|].
  intros x. apply touches_if; [exact Hb | apply touches_ret].
Qed.

Lemma touches_isfile (p : string) : touches_only dest (isfile p).
Proof. intros w q _. reflexivity. Qed.

Lemma touches_getsize (p : string) : touches_only dest (getsize p).
Proof.
  intros w q _. unfold getsize, bind, get_files.
  now destruct (files w !! p).
Qed.

Lemma touches_remove : touches_only dest (remove dest).
Proof.
  intros w q Hq. unfold remove, bind, get_files.
  destruct (files w !! dest); [|reflexivity].
  cbn. now apply lookup_delete_ne.
Qed.

Lemma touches_makedirs (d : string) : touches_only dest (makedirs_exist_ok d).
Proof. intros w q _. unfold makedirs_exist_ok. now destruct (str_is_empty d). Qed.

Lemma touches_sleep (secs : Z) : touches_only dest (sleep secs).
Proof. intros w q _. unfold sleep. now destruct (secs <? 0). Qed.

Lemma touches_requests_get (net : network) (url : string) :
  touches_only dest (requests_get net url).
Proof.
  intros w q _. unfold requests_get, bind, emit. now destruct (net url).
Qed.

Lemma touches_raise_for_status {A} (r : response) :
  touches_only dest (@raise_raise_for_status A r).
Proof.
  unfold raise_raise_for_status. apply touches_if; apply touches_raise.
Qed.

Lemma touches_header (r : response) :
  touches_only dest (header_content_length r).
Proof.
  intros w q _. unfold header_content_length. now destruct (content_length r).
Qed.

Lemma touches_open_xb : touches_only dest (open_xb dest).
Proof.
  intros w q Hq. unfold open_xb, bind, get_files.
  destruct (files w !! dest); [reflexivity|].
  cbn. now apply lookup_insert_ne.
Qed.

Lemma touches_write (data : list byte) : touches_only dest (write dest data).
Proof.
  intros w q Hq. unfold write, bind, get_files, set_files, emit. cbn.
  now apply lookup_alter_ne.
Qed.

Lemma touches_stream_to (r : response) : touches_only dest (stream_to dest r).
Proof.
  apply touches_bind.
  - induction (body r) as [|data rest IH]; simpl; [apply touches_ret|].
    apply touches_bind; [apply touches_write | intros; exact IH].
  - intros _. destruct (body_error r); [apply touches_raise | apply touches_ret].
Qed.
End TouchesOnly.

Ltac touches_step :=
  match goal with
  | |- touches_only _ (bind _ _) => apply touches_bind; [|intros ?]
  | |- touches_only _ (when _ _) => apply touches_when
  | |- touches_only _ (and_then _ _) => apply touches_and_then
  | |- touches_only _ (if _ then _ else _) => apply touches_if
  | |- touches_only _ (try_except_RequestException _ _) =>
      apply touches_try_except; [|intros ?]
  | |- touches_only _ (ret _) => apply touches_ret
  | |- touches_only _ (raise _) => apply touches_raise
  | |- touches_only _ (isfile _) => apply touches_isfile
  | |- touches_only _ (getsize _) => apply touches_getsize
  | |- touches_only _ (raise_raise_for_status _) => apply touches_raise_for_status
  | |- touches_only _ (header_content_length _) => apply touches_header
  | |- touches_only _ (remove _) => apply touches_remove
  | |- touches_only _ (makedirs_exist_ok _) => apply touches_makedirs
  | |- touches_only _ (sleep _) => apply touches_sleep
  | |- touches_only _ (requests_get _ _) => apply touches_requests_get
  | |- touches_only _ (open_xb _) => apply touches_open_xb
  | |- touches_only _ (stream_to _ _) => apply touches_stream_to
  | |- touches_only _ (emit _) => apply touches_emit
  end.

(** X1: whatever the network answers and whatever the files are, a call of
    either worker changes no file other than its destination. *)
Theorem X1_workers_touch_only_destination
    (net : network) (url dest : string) (secs : Z) :
  touches_only dest (Downloader.download_url net url dest secs) /\
  touches_only dest (SnapchatDL.download_url net url dest).
Proof.
  split.
  - unfold Downloader.download_url. repeat touches_step.
  - unfold SnapchatDL.download_url. repeat touches_step.
Qed.



(** X3: running [downloader.download_url] again after a download that
    stored a non-empty body raises [FileExistsError] and leaves the files of
    the first run as they are (the response carrying [Content-length]). *)
Theorem X3_second_run_keeps_file
    (net : network) (url dest : string) (secs : Z) (w : world)
    (r : response) (h : string) :
  files w !! dest = None -> 0 <= secs ->
  net url = Answered r -> status_code r = 200 -> body_error r = None ->
  content_length r = Some h -> concat (body r) <> [] ->
  let w1 := snd (Downloader.download_url net url dest secs w) in
  files w1 !! dest = Some (concat (body r)) /\
  Downloader.download_url net url dest secs w1 =
    (Raise FileExistsError,
     extend w1 (made_dirs dest ++ [ESleep secs; EGet url])).
Proof.
  intros Hf Hs Hn Hst He Hh Hne.
  assert (Hv : vacant w dest) by (intros c Hc; congruence).
  assert (Hrm : removed_first w dest = [])
    by (unfold removed_first; now rewrite Hf).
  rewrite (downloader_streams net url dest secs w r Hv Hs Hn Hst).
  cbv zeta. rewrite He, Hrm. cbn [snd app].
  match goal with |- files ?w1 !! _ = _ /\ _ =>
    assert (Hl : files w1 !! dest = Some (concat (body r)))
      by apply lookup_insert_eq
  end.
  split; [exact Hl|].
  now apply downloader_skips with (concat (body r)) r h.
Qed.

Lemma X3_second_run_keeps_file_witness :
  Downloader.download_url (Examples.always (Examples.media_reply None))
    "https://cdn/a" "d/a.jpg" 1
    (snd (Downloader.download_url (Examples.always (Examples.media_reply None))
            "https://cdn/a" "d/a.jpg" 1 empty_world))
  = (Raise FileExistsError,
     extend (snd (Downloader.download_url
                    (Examples.always (Examples.media_reply None))
                    "https://cdn/a" "d/a.jpg" 1 empty_world))
       (made_dirs "d/a.jpg" ++ [ESleep 1; EGet "https://cdn/a"])).
Proof.
  refine (proj2 (X3_second_run_keeps_file
    (Examples.always (Examples.media_reply None)) "https://cdn/a" "d/a.jpg" 1
    empty_world (Examples.media_reply None) "3" _ _ eq_refl eq_refl eq_refl
    eq_refl _)); [reflexivity | lia | discriminate].
Defined.






(** The method of the class up to the answer of the server: the file is
    created before the request is made. *)
Lemma method_until_answer (net : network) (url dest : string) (w : world)
    (k : response -> M unit) :
  vacant w dest -> dirname dest <> EmptyString ->
  (let* _ := makedirs_exist_ok (dirname dest) in
   let* _ := when (and_then (isfile dest)
                     (let* size := getsize dest in ret (size =? 0)))
                  (remove dest) in
   let* _ := open_xb dest in
   let* response := requests_get net url in k response) w
  = let w1 := extend (store w (<[dest := []]> (files w)))
                ([EMakedirs (dirname dest)] ++ removed_first w dest ++
                 [ECreate dest; EGet url]) in
    match net url with
    | Failed msg => (Raise (RequestException msg), w1)
    | Answered r => k r w1
    end.
Proof.
  intros Hv Hd.
  assert (Hgone : forall es,
    files (extend (store w (delete dest (files w))) es) !! dest = None)
    by (intros es; apply lookup_delete_eq).
  mstep (makedirs_nonempty _ w Hd).
  mstep (cleanup_vacant w dest _ Hv).
  mstep (open_xb_None dest _ (Hgone _)).
  destruct (net url) as [msg|r] eqn:Hn; cbv zeta.
  - mraise (requests_get_Failed net url msg _ Hn). worlds.
  - mstep (requests_get_Answered net url r _ Hn). f_equal. worlds.
Qed.

(** The exception of [raise response.raise_for_status()]. *)
Lemma raise_for_status_exn {A} (r : response) (w : world) :
  @raise_raise_for_status A r w =
  (Raise (if (400 <=? status_code r) && (status_code r <? 600)
          then HTTPError (status_code r) else TypeError), w).
Proof.
  unfold raise_raise_for_status.
  now destruct ((400 <=? status_code r) && (status_code r <? 600)).
Qed.

(** X5: on a response whose status is not 200 both workers raise
    ([HTTPError] for 4xx and 5xx, [TypeError] for the other codes, where
    [raise_for_status] returns [None]).  [downloader.download_url] leaves
    no file at a vacant destination; the method of the class, which opens
    the file before it asks, leaves an empty one. *)
Theorem X5_bad_status_raises
    (net : network) (url dest : string) (secs : Z) (w : world) (r : response) :
  vacant w dest -> 0 <= secs ->
  net url = Answered r -> status_code r <> 200 ->
  Downloader.download_url net url dest secs w =
    (Raise (if (400 <=? status_code r) && (status_code r <? 600)
            then HTTPError (status_code r) else TypeError),
     extend (store w (delete dest (files w)))
       (made_dirs dest ++ removed_first w dest ++ [ESleep secs; EGet url])) /\
  (dirname dest <> EmptyString ->
   SnapchatDL.download_url net url dest w =
     (Raise (if (400 <=? status_code r) && (status_code r <? 600)
             then HTTPError (status_code r) else TypeError),
      extend (store w (<[dest := []]> (files w)))
        ([EMakedirs (dirname dest)] ++ removed_first w dest ++
         [ECreate dest; EGet url]))).
Proof.
  intros Hv Hs Hn Hst. apply Z.eqb_neq in Hst. split.
  - unfold Downloader.download_url.
    mstep (makedirs_guarded dest w).
    mstep (cleanup_vacant w dest _ Hv).
    mstep (sleep_Ok secs _ Hs).
    mstep (requests_get_Answered net url r _ Hn).
    rewrite Hst. cbn [negb].
    mraise (raise_for_status_exn r _). worlds.
  - intros Hd. unfold SnapchatDL.download_url.
    rewrite (method_until_answer net url dest w _ Hv Hd), Hn. cbv zeta.
    unfold SnapchatDL.reaponse_ok. rewrite Hst. cbn [negb].
    now mraise (raise_for_status_exn r _).
Qed.

Lemma X5_bad_status_raises_witness :
  Downloader.download_url (Examples.always (Examples.json_reply 404 None))
    "https://cdn/a" "d/a.jpg" 0 empty_world
  = (Raise (if (400 <=? status_code (Examples.json_reply 404 None))
               && (status_code (Examples.json_reply 404 None) <? 600)
            then HTTPError (status_code (Examples.json_reply 404 None))
            else TypeError),
     extend (store empty_world (delete "d/a.jpg" (files empty_world)))
       (made_dirs "d/a.jpg" ++ removed_first empty_world "d/a.jpg" ++
        [ESleep 0; EGet "https://cdn/a"])).
Proof.
  refine (proj1 (X5_bad_status_raises
    (Examples.always (Examples.json_reply 404 None)) "https://cdn/a" "d/a.jpg"
    0 empty_world (Examples.json_reply 404 None) _ _ eq_refl _));
    [intros c Hc; discriminate Hc | lia | discriminate].
Defined.

(** X6: when the request of the method of the class fails, the call raises
    the [RequestException] and leaves an empty file at the destination; a
    later call of the method that gets a whole 200 response carrying the
    [Content-length] header removes that file, downloads, and leaves the
    body at the destination.  (Without the header the later call raises
    [KeyError] and the file stays empty.) *)
Theorem X6_method_retry_after_failure
    (net1 net2 : network) (url dest msg : string) (w : world)
    (r : response) (h : string) :
  vacant w dest -> dirname dest <> EmptyString ->
  net1 url = Failed msg ->
  net2 url = Answered r -> status_code r = 200 ->
  content_length r = Some h -> body_error r = None ->
  let first := SnapchatDL.download_url net1 url dest w in
  let second := SnapchatDL.download_url net2 url dest (snd first) in
  fst first = Raise (RequestException msg) /\
  files (snd first) !! dest = Some [] /\
  second =
    (Ok tt,
     extend (store (snd first)
               (<[dest := concat (body r)]> (files (snd first))))
       ([EMakedirs (dirname dest); ERemove dest; ECreate dest; EGet url] ++
        map (EWrite dest) (body r))) /\
  files (snd second) !! dest = Some (concat (body r)).
Proof.
  intros Hv Hd Hn1 Hn2 Hst Hh He. cbv zeta.
  assert (H1 : SnapchatDL.download_url net1 url dest w =
    (Raise (RequestException msg),
     extend (store w (<[dest := []]> (files w)))
       ([EMakedirs (dirname dest)] ++ removed_first w dest ++
        [ECreate dest; EGet url]))).
  { unfold SnapchatDL.download_url.
    now rewrite (method_until_answer net1 url dest w _ Hv Hd), Hn1. }
  rewrite H1. cbn [fst snd].
  set (w1 := extend _ _).
  assert (Hf1 : files w1 !! dest = Some []) by apply lookup_insert_eq.
  assert (Hv1 : vacant w1 dest) by (intros c Hc; congruence).
  rewrite (method_streams net2 url dest w1 r h Hv1 Hd Hn2 Hst Hh).
  cbv zeta. rewrite He.
  assert (Hrm : removed_first w1 dest = [ERemove dest])
    by (unfold removed_first; now rewrite Hf1).
  rewrite Hrm. cbn [fst snd app].
  split; [reflexivity|]. split; [exact Hf1|]. split; [reflexivity|].
  apply lookup_insert_eq.
Qed.

Lemma X6_method_retry_after_failure_witness :
  files (snd (SnapchatDL.download_url
                (Examples.always (Examples.media_reply None)) "https://cdn/a"
                "d/a.jpg"
                (snd (SnapchatDL.download_url (fun _ => Failed "down")
                        "https://cdn/a" "d/a.jpg" empty_world))))
    !! "d/a.jpg"
  = Some (concat (body (Examples.media_reply None))).
Proof.
  refine (proj2 (proj2 (proj2 (X6_method_retry_after_failure
    (fun _ => Failed "down") (Examples.always (Examples.media_reply None))
    "https://cdn/a" "d/a.jpg" "down" empty_world (Examples.media_reply None)
    "3" _ _ eq_refl eq_refl eq_refl eq_refl eq_refl))));
    [intros c Hc; discriminate Hc | discriminate].
Defined.

(** X7: the method of the class reads the [Content-length] header of every
    200 response; when the server sent none it raises [KeyError], after the
    destination was created and before anything is written, so an empty file
    is left. *)
Theorem X7_method_needs_content_length
    (net : network) (url dest : string) (w : world) (r : response) :
  vacant w dest -> dirname dest <> EmptyString ->
  net url = Answered r -> status_code r = 200 -> content_length r = None ->
  SnapchatDL.download_url net url dest w =
    (Raise (KeyError "content-length"),
     extend (store w (<[dest := []]> (files w)))
       ([EMakedirs (dirname dest)] ++ removed_first w dest ++
        [ECreate dest; EGet url])).
Proof.
  intros Hv Hd Hn Hst Hh. unfold SnapchatDL.download_url.
  rewrite (method_until_answer net url dest w _ Hv Hd), Hn. cbv zeta.
  mstep (status_ok_run r _ Hst).
  erewrite bind_Raise; [reflexivity|].
  apply when_Raise.
  erewrite bind_Ok
    by (apply getsize_Some with (c := []); apply lookup_insert_eq).
  unfold header_content_length. rewrite Hh. reflexivity.
Qed.

Lemma X7_method_needs_content_length_witness :
  SnapchatDL.download_url (Examples.always (Examples.json_reply 200 None))
    "https://cdn/a" "d/a.jpg" empty_world
  = (Raise (KeyError "content-length"),
     extend (store empty_world (<["d/a.jpg" := []]> (files empty_world)))
       ([EMakedirs (dirname "d/a.jpg")] ++
        removed_first empty_world "d/a.jpg" ++
        [ECreate "d/a.jpg"; EGet "https://cdn/a"])).
Proof.
  apply (X7_method_needs_content_length
           (Examples.always (Examples.json_reply 200 None))
           "https://cdn/a" "d/a.jpg" empty_world (Examples.json_reply 200 None));
    [intros c Hc; discriminate Hc | discriminate | reflexivity | reflexivity
    | reflexivity].
Defined.

(** X8: an exception of the stream that is not a [RequestException] is not
    caught: both workers raise it, and what was written stays at the
    destination (the method of the class removes the file only in its
    [except] clause). *)
Theorem X8_other_stream_errors_propagate
    (net : network) (url dest : string) (secs : Z) (w : world)
    (r : response) (e : exn) :
  vacant w dest -> 0 <= secs ->
  net url = Answered r -> status_code r = 200 ->
  body_error r = Some e -> is_RequestException e = false ->
  Downloader.download_url net url dest secs w =
    (Raise e,
     extend (store w (<[dest := concat (body r)]> (files w)))
       (made_dirs dest ++ removed_first w dest ++
        [ESleep secs; EGet url; ECreate dest] ++ map (EWrite dest) (body r))) /\
  (dirname dest <> EmptyString ->
   forall h, content_length r = Some h ->
   SnapchatDL.download_url net url dest w =
     (Raise e,
      extend (store w (<[dest := concat (body r)]> (files w)))
        ([EMakedirs (dirname dest)] ++ removed_first w dest ++
         [ECreate dest; EGet url] ++ map (EWrite dest) (body r)))).
Proof.
  intros Hv Hs Hn Hst He Hx. split.
  - rewrite (downloader_streams net url dest secs w r Hv Hs Hn Hst).
    cbv zeta. now rewrite He, Hx.
  - intros Hd h Hh.
    rewrite (method_streams net url dest w r h Hv Hd Hn Hst Hh).
    cbv zeta. now rewrite He, Hx.
Qed.

Lemma X8_other_stream_errors_propagate_witness :
  Downloader.download_url
    (Examples.always (Examples.media_reply (Some ValueError)))
    "https://cdn/a" "d/a.jpg" 1 empty_world
  = (Raise ValueError,
     extend (store empty_world
               (<["d/a.jpg" :=
                    concat (body (Examples.media_reply (Some ValueError)))]>
                  (files empty_world)))
       (made_dirs "d/a.jpg" ++ removed_first empty_world "d/a.jpg" ++
        [ESleep 1; EGet "https://cdn/a"; ECreate "d/a.jpg"] ++
        map (EWrite "d/a.jpg")
            (body (Examples.media_reply (Some ValueError))))).
Proof.
  refine (proj1 (X8_other_stream_errors_propagate
    (Examples.always (Examples.media_reply (Some ValueError)))
    "https://cdn/a" "d/a.jpg" 1 empty_world
    (Examples.media_reply (Some ValueError)) ValueError _ _ eq_refl eq_refl
    eq_refl eq_refl)); [intros c Hc; discriminate Hc | lia].
Defined.

(** ** Further properties of the class *)

Lemma re_star_dollar_newline (t : string) :
  forallb username_class (chars t) = true ->
  re_star_dollar (t +:+ String (ascii_of_N 10) EmptyString)
  = Some (String.length t).
Proof.
  induction t as [|c t IH]; [reflexivity|].
  cbn [chars forallb]. intros H. apply andb_true_iff in H as [Hc Ht].
  rewrite append_cons. cbn [re_star_dollar String.length].
  now rewrite Hc, (IH Ht).
Qed.

Lemma str_take_append (t u : string) :
  str_take (String.length t) (t +:+ u) = t.
Proof.
  induction t as [|c t IH]; [now destruct u|].
  rewrite append_cons. cbn [String.length str_take]. now rewrite IH.
Qed.

Lemma append_newline_differs (s : string) :
  String.eqb s (s +:+ String (ascii_of_N 10) EmptyString) = false.
Proof.
  apply String.eqb_neq. induction s as [|c s IH]; [discriminate|].
  rewrite append_cons. intros [= H]. now apply IH.
Qed.

(** X9: [re.match] alone accepts a valid name followed by a newline,
    because [$] also holds before a final newline, and its group is the name
    without the newline; the comparison of the group with the argument is
    what makes [valid_username] reject such a string. *)
Theorem X9_trailing_newline_is_rejected (s : string) :
  SnapchatDL.valid_username s = true ->
  re_match_username (s +:+ String (ascii_of_N 10) EmptyString) = Some s /\
  SnapchatDL.valid_username (s +:+ String (ascii_of_N 10) EmptyString) = false.
Proof.
  rewrite valid_username_spec. intros H.
  apply andb_true_iff in H as [Hne Hall].
  destruct s as [|c s]; [discriminate|].
  cbn [chars forallb] in Hall. apply andb_true_iff in Hall as [Hc Hs].
  assert (Hm : re_match_username
                 (String c s +:+ String (ascii_of_N 10) EmptyString)
               = Some (String c s)).
  { rewrite append_cons. unfold re_match_username.
    rewrite Hc, (re_star_dollar_newline s Hs).
    change (str_take (S (String.length s)) (String c ?x))
      with (String c (str_take (String.length s) x)).
    now rewrite str_take_append. }
  split; [exact Hm|].
  unfold SnapchatDL.valid_username. rewrite Hm.
  apply append_newline_differs.
Qed.

Lemma X9_trailing_newline_is_rejected_witness :
  re_match_username ("bob" +:+ String (ascii_of_N 10) EmptyString) = Some "bob" /\
  SnapchatDL.valid_username ("bob" +:+ String (ascii_of_N 10) EmptyString) = false.
Proof. apply (X9_trailing_newline_is_rejected "bob"). reflexivity. Defined.

Lemma format_no_stories_line (username : string) :
  format SnapchatDL.no_stories_template [username]
  = Ok (SnapchatDL.no_stories_line username).
Proof.
  unfold SnapchatDL.no_stories_template, SnapchatDL.no_stories_line.
  change (String SnapchatDL.esc "[91m[-] {} has no stories" +:+
          String SnapchatDL.esc "[0m")
    with (String SnapchatDL.esc "[91m[-] " +:+
          ("{}" +:+ (" has no stories" +:+ String SnapchatDL.esc "[0m"))).
  rewrite format_plain by reflexivity.
  change (format ("{}" +:+ ?t) [username]) with
    (rbind (format (" has no stories" +:+ String SnapchatDL.esc "[0m") [])
           (fun r => Ok (username +:+ r))).
  rewrite format_plain by reflexivity. reflexivity.
Qed.

(** X10: for a valid user name and a response whose status is not 200,
    [download] makes the one request, prints the line that says the user has
    no stories, returns [False], and submits no task and opens no progress
    bar. *)
Theorem X10_no_stories_outcome
    (self : SnapchatDL.t) (net : network) (username : string)
    (r : response) (w : world) :
  SnapchatDL.valid_username username = true ->
  net (SnapchatDL.api_url username) = Answered r ->
  status_code r <> 200 ->
  SnapchatDL.download self net username w =
  (Ok false,
   extend w [EGet (SnapchatDL.api_url username);
             EPrint (SnapchatDL.no_stories_line username)]).
Proof.
  intros Hv Hn Hs. unfold SnapchatDL.download. rewrite Hv. cbv beta iota.
  cbn [negb].
  erewrite bind_Ok by (rewrite (get_stories_Answered _ _ _ _ Hn); cbv zeta;
    apply Z.eqb_neq in Hs; rewrite Hs; reflexivity).
  cbn [SnapchatDL.stories_available negb].
  rewrite format_no_stories_line. mstep (lift_run _ _). mstep (emit_run _ _).
  rewrite ret_run. worlds.
Qed.

Lemma X10_no_stories_outcome_witness :
  SnapchatDL.download Examples.config
    (Examples.always (Examples.json_reply 404 None)) "bob" empty_world
  = (Ok false,
     extend empty_world [EGet (SnapchatDL.api_url "bob");
                         EPrint (SnapchatDL.no_stories_line "bob")]).
Proof.
  apply (X10_no_stories_outcome Examples.config
           (Examples.always (Examples.json_reply 404 None)) "bob"
           (Examples.json_reply 404 None) empty_world);
    [reflexivity | reflexivity | discriminate].
Defined.

(** X11: [download] does not catch what [get_stories] raises.  When the
    request fails, the [RequestException] leaves [download]; when a 200
    response has a body that is not JSON, the [ValueError] of
    [response.json()] does.  In both cases the request is all that
    happened. *)
Theorem X11_get_stories_errors_propagate
    (self : SnapchatDL.t) (net : network) (username : string) (w : world) :
  SnapchatDL.valid_username username = true ->
  (forall msg,
     net (SnapchatDL.api_url username) = Failed msg ->
     SnapchatDL.download self net username w =
     (Raise (RequestException msg),
      extend w [EGet (SnapchatDL.api_url username)])) /\
  (forall r,
     net (SnapchatDL.api_url username) = Answered r ->
     status_code r = 200 -> json_body r = None ->
     SnapchatDL.download self net username w =
     (Raise ValueError, extend w [EGet (SnapchatDL.api_url username)])).
Proof.
  intros Hv. split.
  - intros msg Hn. unfold SnapchatDL.download. rewrite Hv. cbn [negb].
    cbv beta iota. now mraise (get_stories_Failed _ _ _ _ Hn).
  - intros r Hn Hs Hj. unfold SnapchatDL.download. rewrite Hv. cbn [negb].
    cbv beta iota.
    erewrite bind_Raise; [reflexivity|].
    rewrite (get_stories_Answered _ _ _ _ Hn). cbv zeta.
    now rewrite Hs, Hj.
Qed.

Lemma X11_get_stories_errors_propagate_witness :
  SnapchatDL.download Examples.config (fun _ => Failed "down") "bob" empty_world
  = (Raise (RequestException "down"),
     extend empty_world [EGet (SnapchatDL.api_url "bob")]).
Proof.
  refine (proj1 (X11_get_stories_errors_propagate Examples.config
                   (fun _ => Failed "down") "bob" empty_world _) "down" eq_refl).
  reflexivity.
Defined.


Lemma for_each_all (self : SnapchatDL.t) (username : string)
    (items : list value) :
  forall (tasks : list (value * string)) (w : world),
    Forall2 (fun m task => SnapchatDL.media_task self username m = Ok task)
            items tasks ->
    for_each items (SnapchatDL.submit_media self username) w =
    (Ok tt, extend w (SnapchatDL.submissions tasks)).
Proof.
  induction items as [|m rest IH]; intros tasks w Hf.
  - inversion Hf; subst. cbn. now rewrite extend_nil.
  - inversion Hf as [|? task ? tasks' Hm Hrest]; subst.
    rewrite (for_each_cons_Ok _ _ _ _ _ _ Hm), (IH tasks' _ Hrest).
    cbn. now rewrite extend_extend.
Qed.








(** X13: with [limit_story = 0] nothing is submitted, whatever the snaps
    are (well formed or not), and [download] returns [True]; the progress
    bar, when there is one, is opened for 0 items. *)
Theorem X13_limit_zero_submits_nothing
    (self : SnapchatDL.t) (net : network) (username : string) (w : world)
    (r : response) (d story : value) (snaps : list value) :
  SnapchatDL.valid_username username = true ->
  net (SnapchatDL.api_url username) = Answered r ->
  status_code r = 200 -> json_body r = Some d ->
  get d "story" = Ok story -> get story "snaps" = Ok (VList snaps) ->
  0 < SnapchatDL.max_workers self ->
  SnapchatDL.limit_story self = 0 ->
  SnapchatDL.download self net username w =
  (Ok true,
   extend w (EGet (SnapchatDL.api_url username)
             :: SnapchatDL.progress self username [])).
Proof.
  intros Hv Hn Hs Hj Hd Hst Hmw Hl.
  rewrite (download_snaps self net username r d story snaps w Hv Hn Hs Hj Hd Hst Hmw).
  cbv zeta. unfold SnapchatDL.kept. rewrite Hl. reflexivity.
Qed.

Lemma X13_limit_zero_submits_nothing_witness :
  SnapchatDL.download
    {| SnapchatDL.directory_prefix := "."; SnapchatDL.max_workers := 1;
       SnapchatDL.limit_story := 0; SnapchatDL.no_progress := false |}
    (Examples.always (Examples.json_reply 200
       (Some (Examples.manifest [VDict []; Examples.snap_b]))))
    "bob" empty_world
  = (Ok true,
     extend empty_world
       (EGet (SnapchatDL.api_url "bob")
        :: SnapchatDL.progress
             {| SnapchatDL.directory_prefix := "."; SnapchatDL.max_workers := 1;
                SnapchatDL.limit_story := 0; SnapchatDL.no_progress := false |}
             "bob" [])).
Proof.
  apply (X13_limit_zero_submits_nothing _
    (Examples.always (Examples.json_reply 200
       (Some (Examples.manifest [VDict []; Examples.snap_b]))))
    "bob" empty_world
    (Examples.json_reply 200
       (Some (Examples.manifest [VDict []; Examples.snap_b])))
    (Examples.manifest [VDict []; Examples.snap_b])
    (VDict [("snaps", VList [VDict []; Examples.snap_b])])
    [VDict []; Examples.snap_b]); reflexivity.
Defined.

(** X14: every negative [limit_story], not only -1, means no limit: when
    all the snaps have tasks, all of them are submitted in the order of the
    manifest and [download] returns [True]. *)
Theorem X14_negative_limit_keeps_all
    (self : SnapchatDL.t) (net : network) (username : string) (w : world)
    (r : response) (d story : value) (snaps : list value)
    (tasks : list (value * string)) :
  SnapchatDL.valid_username username = true ->
  net (SnapchatDL.api_url username) = Answered r ->
  status_code r = 200 -> json_body r = Some d ->
  get d "story" = Ok story -> get story "snaps" = Ok (VList snaps) ->
  0 < SnapchatDL.max_workers self ->
  SnapchatDL.limit_story self < 0 ->
  Forall2 (fun m task => SnapchatDL.media_task self username m = Ok task)
          snaps tasks ->
  SnapchatDL.download self net username w =
  (Ok true,
   extend w (EGet (SnapchatDL.api_url username)
             :: SnapchatDL.progress self username snaps
             ++ SnapchatDL.submissions tasks)).
Proof.
  intros Hv Hn Hs Hj Hd Hst Hmw Hl Hf.
  rewrite (download_snaps self net username r d story snaps w Hv Hn Hs Hj Hd Hst Hmw).
  cbv zeta.
  assert (Hk : SnapchatDL.kept (SnapchatDL.limit_story self) snaps = snaps).
  { unfold SnapchatDL.kept.
    destruct (Z.gtb_spec (SnapchatDL.limit_story self) (-1)); [lia | reflexivity]. }
  rewrite Hk, (for_each_all self username snaps tasks _ Hf).
  cbn [fst snd]. f_equal. now rewrite extend_extend.
Qed.

Lemma X14_negative_limit_keeps_all_witness :
  SnapchatDL.download
    {| SnapchatDL.directory_prefix := "."; SnapchatDL.max_workers := 1;
       SnapchatDL.limit_story := -7; SnapchatDL.no_progress := true |}
    (Examples.always (Examples.json_reply 200
       (Some (Examples.manifest [Examples.snap_a]))))
    "bob" empty_world
  = (Ok true,
     extend empty_world
       (EGet (SnapchatDL.api_url "bob")
        :: SnapchatDL.progress
             {| SnapchatDL.directory_prefix := "."; SnapchatDL.max_workers := 1;
                SnapchatDL.limit_story := -7; SnapchatDL.no_progress := true |}
             "bob" [Examples.snap_a]
        ++ SnapchatDL.submissions
             [(VStr "https://cdn/a",
               "./bob/2020-06-29/2020-06-29_18-25-23 a1 bob.jpg")])).
Proof.
  apply (X14_negative_limit_keeps_all _
    (Examples.always (Examples.json_reply 200
       (Some (Examples.manifest [Examples.snap_a]))))
    "bob" empty_world
    (Examples.json_reply 200 (Some (Examples.manifest [Examples.snap_a])))
    (Examples.manifest [Examples.snap_a])
    (VDict [("snaps", VList [Examples.snap_a])])
    [Examples.snap_a]); try reflexivity.
  constructor; [vm_compute; reflexivity | constructor].
Defined.

(** X15: a pool of no workers.  With [max_workers <= 0] the constructor of
    the executor raises [ValueError]; [download] has fetched the manifest
    and opened its progress bar by then, and submits nothing. *)
Theorem X15_no_workers_raises_before_submitting
    (self : SnapchatDL.t) (net : network) (username : string) (w : world)
    (r : response) (d story : value) (snaps : list value) :
  SnapchatDL.valid_username username = true ->
  net (SnapchatDL.api_url username) = Answered r ->
  status_code r = 200 -> json_body r = Some d ->
  get d "story" = Ok story -> get story "snaps" = Ok (VList snaps) ->
  SnapchatDL.max_workers self <= 0 ->
  SnapchatDL.download self net username w =
  (Raise ValueError,
   extend w (EGet (SnapchatDL.api_url username)
             :: SnapchatDL.progress self username
                  (SnapchatDL.kept (SnapchatDL.limit_story self) snaps))).
Proof.
  intros Hv Hn Hs Hj Hd Hst Hmw. unfold SnapchatDL.download.
  rewrite Hv. cbv beta iota. cbn [negb].
  erewrite bind_Ok by (rewrite (get_stories_Answered _ _ _ _ Hn); cbv zeta;
    rewrite Hs, Hj; reflexivity).
  cbn [SnapchatDL.stories_available SnapchatDL.data negb].
  mstep (ret_run _ _). rewrite Hd. mstep (lift_run _ _).
  rewrite Hst. mstep (lift_run _ _).
  unfold SnapchatDL.kept, SnapchatDL.progress, SnapchatDL._progressbar,
    SnapchatDL.ThreadPoolExecutor.
  destruct (Z.leb_spec (SnapchatDL.max_workers self) 0) as [_|]; [|lia].
  destruct (SnapchatDL.limit_story self >? -1);
    cbn [slice0 len iter fst snd];
    repeat (first [mstep (lift_run _ _) | mstep (ret_run _ _)]);
    cbn [fst snd len iter];
    destruct (SnapchatDL.no_progress self); cbn [negb];
    repeat (first [mstep (lift_run _ _) | mstep (ret_run _ _)
                  | mstep (emit_run _ _)]);
    unfold bind, raise; rewrite ?extend_extend; cbn [app]; reflexivity.
Qed.

Lemma X15_no_workers_raises_before_submitting_witness :
  SnapchatDL.download
    {| SnapchatDL.directory_prefix := "."; SnapchatDL.max_workers := 0;
       SnapchatDL.limit_story := -1; SnapchatDL.no_progress := false |}
    (Examples.always (Examples.json_reply 200
       (Some (Examples.manifest [Examples.snap_a]))))
    "bob" empty_world
  = (Raise ValueError,
     extend empty_world
       (EGet (SnapchatDL.api_url "bob")
        :: SnapchatDL.progress
             {| SnapchatDL.directory_prefix := "."; SnapchatDL.max_workers := 0;
                SnapchatDL.limit_story := -1; SnapchatDL.no_progress := false |}
             "bob"
             (SnapchatDL.kept (-1) [Examples.snap_a]))).
Proof.
  apply (X15_no_workers_raises_before_submitting
    {| SnapchatDL.directory_prefix := "."; SnapchatDL.max_workers := 0;
       SnapchatDL.limit_story := -1; SnapchatDL.no_progress := false |}
    (Examples.always (Examples.json_reply 200
       (Some (Examples.manifest [Examples.snap_a]))))
    "bob" empty_world
    (Examples.json_reply 200 (Some (Examples.manifest [Examples.snap_a])))
    (Examples.manifest [Examples.snap_a])
    (VDict [("snaps", VList [Examples.snap_a])])
    [Examples.snap_a]); try reflexivity; cbn; lia.
Defined.

(** Text without a slash. *)
Lemma no_slash_append (s t : string) :
  ~ In slash (chars s) -> ~ In slash (chars t) -> ~ In slash (chars (s +:+ t)).
Proof.
  intros Hs Ht. rewrite chars_append. intros H.
  apply in_app_or in H as [H|H]; auto.
Qed.

Lemma no_slash_uint (u : Decimal.uint) :
  ~ In slash (chars (NilEmpty.string_of_uint u)).
Proof.
  induction u; cbn [NilEmpty.string_of_uint chars In];
    [tauto | intros [H|H]; [discriminate H | auto] ..].
Qed.

Lemma pad2_digits (n : Z) :
  pad2 n = String (digit_char (n / 10)) (String (digit_char (n mod 10)) EmptyString).
Proof. reflexivity. Qed.

Lemma no_slash_str_of_Z (n : Z) : ~ In slash (chars (str_of_Z n)).
Proof.
  change (str_of_Z n) with (NilEmpty.string_of_int (Z.to_int n)). destruct (Z.to_int n) as [u|u];
    cbn [NilEmpty.string_of_int chars In].
  - apply no_slash_uint.
  - intros [H|H]; [discriminate H | exact (no_slash_uint u H)].
Qed.

Lemma no_slash_pad2 (n : Z) : 0 <= n <= 99 -> ~ In slash (chars (pad2 n)).
Proof.
  intros H. rewrite pad2_digits. cbn [chars In].
  destruct (digit_char_plain (n / 10)) as [_ H1];
    [Z.div_mod_to_equations; lia|].
  destruct (digit_char_plain (n mod 10)) as [_ H2];
    [Z.div_mod_to_equations; lia|].
  intros [E|[E|[]]]; [rewrite E in H1 | rewrite E in H2]; discriminate.
Qed.

Lemma no_slash_file_name (username : string) (dt : datetime)
    (id_text ext : string) :
  valid_datetime dt ->
  ~ In slash (chars username) -> ~ In slash (chars id_text) ->
  ~ In slash (chars ext) ->
  ~ In slash (chars (SnapchatDL.file_name username dt id_text ext)).
Proof.
  intros (Hy & Hm & Hd & Hh & Hmi & Hs) Hu Hi He.
  pose proof (days_in_month_bounds (year dt) (month dt)).
  assert (Hc : forall c : ascii, c <> slash ->
            ~ In slash (chars (String c EmptyString))).
  { intros c Hne [E|[]]. congruence. }
  unfold SnapchatDL.file_name, SnapchatDL.date_text, SnapchatDL.time_text.
  repeat apply no_slash_append;
    first [ apply no_slash_str_of_Z | apply no_slash_pad2; lia
          | apply Hc; discriminate | assumption ].
Qed.

Lemma upto_last_slash_none (b : string) :
  ~ In slash (chars b) -> upto_last_slash b = EmptyString.
Proof.
  induction b as [|c b IH]; [reflexivity|]. cbn [chars In upto_last_slash].
  intros H. rewrite IH by tauto.
  destruct (Ascii.eqb_spec c slash) as [->|_]; [tauto | reflexivity].
Qed.

Lemma upto_last_slash_append (a b : string) :
  ~ In slash (chars b) ->
  upto_last_slash (a +:+ String slash b) = a +:+ String slash EmptyString.
Proof.
  intros Hb. induction a as [|c a IH].
  - change (EmptyString +:+ ?x) with x. cbn [upto_last_slash].
    rewrite (upto_last_slash_none b Hb), Ascii.eqb_refl. reflexivity.
  - rewrite !append_cons. cbn [upto_last_slash]. rewrite IH.
    destruct a; rewrite ?append_cons; cbn [str_is_empty negb];
      now rewrite orb_true_r.
Qed.

Lemma rstrip_slashes_append (a : string) :
  a <> EmptyString -> endswith_char slash a = false ->
  rstrip_slashes (a +:+ String slash EmptyString) = a /\
  all_slashes (a +:+ String slash EmptyString) = false.
Proof.
  induction a as [|c a IH]; [congruence|]. intros _ He.
  rewrite append_cons. cbn [rstrip_slashes all_slashes].
  destruct a as [|d a'].
  - cbn [endswith_char] in He. change (EmptyString +:+ ?x) with x.
    cbn [rstrip_slashes str_is_empty]. rewrite Ascii.eqb_refl, He.
    cbn [andb str_is_empty]. split; reflexivity.
  - cbn [endswith_char] in He. destruct IH as [-> ->]; [discriminate | exact He |].
    cbn [str_is_empty]. rewrite !andb_false_r. split; reflexivity.
Qed.

Lemma dirname_append (a b : string) :
  a <> EmptyString -> endswith_char slash a = false ->
  ~ In slash (chars b) ->
  dirname (a +:+ String slash b) = a.
Proof.
  intros Ha He Hb. unfold dirname. rewrite (upto_last_slash_append a b Hb).
  destruct (rstrip_slashes_append a Ha He) as [-> ->].
  destruct a; [congruence|]. reflexivity.
Qed.

Lemma endswith_char_append (c : ascii) (s t : string) :
  t <> EmptyString -> endswith_char c (s +:+ t) = endswith_char c t.
Proof.
  intros Ht. induction s as [|d s IH]; [reflexivity|].
  rewrite append_cons. cbn [endswith_char]. rewrite IH.
  destruct (s +:+ t) eqn:E; [|reflexivity].
  destruct s; [change (EmptyString +:+ t) with t in E; congruence | discriminate E].
Qed.

Lemma date_text_end (dt : datetime) :
  valid_datetime dt -> endswith_char slash (SnapchatDL.date_text dt) = false.
Proof.
  intros (_ & _ & Hd & _). pose proof (days_in_month_bounds (year dt) (month dt)).
  unfold SnapchatDL.date_text.
  rewrite !endswith_char_append by (rewrite ?pad2_digits; discriminate).
  rewrite pad2_digits. cbn [endswith_char].
  apply (digit_char_plain (day dt mod 10)). Z.div_mod_to_equations. lia.
Qed.

Lemma date_text_start (dt : datetime) :
  startswith_char slash (SnapchatDL.date_text dt) = false.
Proof.
  unfold SnapchatDL.date_text. exact (str_of_Z_no_slash _ _).
Qed.

Lemma username_class_slash : username_class slash = false.
Proof. reflexivity. Qed.

Lemma valid_username_no_slash (username : string) :
  SnapchatDL.valid_username username = true -> ~ In slash (chars username).
Proof.
  rewrite valid_username_spec. intros H. apply andb_true_iff in H as [_ H].
  intros Hin. rewrite forallb_forall in H. specialize (H _ Hin).
  rewrite username_class_slash in H. discriminate.
Qed.

(** X17: one directory per user and day.  When the user name is valid and
    the [id] of a story prints without a slash, the file of the story is
    placed directly in [directory_prefix/username/YYYY-MM-DD], the UTC day of
    its capture time; no deeper, and nowhere else. *)
Theorem X17_story_lands_in_day_directory
    (self : SnapchatDL.t) (username : string) (media url : value)
    (dest : string) :
  SnapchatDL.valid_username username = true ->
  SnapchatDL.media_task self username media = Ok (url, dest) ->
  (forall id_text, rbind (get media "id") str = Ok id_text ->
                   ~ In slash (chars id_text)) ->
  exists cap ts,
    getitem media "captureTimeSecs" = Ok cap /\ int cap = Ok ts /\
    dirname dest =
    join (SnapchatDL.directory_prefix self)
         [username; SnapchatDL.date_text (utc_fields ts)].
Proof.
  intros Hv Ht Hid. apply media_task_inv in Ht
    as (m & cap & ts & ty & id & id_text & _ & _ & Hc & Hi & Hr & _ & Hg & Hs & ->).
  exists cap, ts. split; [exact Hc|]. split; [exact Hi|].
  pose proof (utc_fields_valid ts Hr) as Hdt.
  assert (Hidt : ~ In slash (chars id_text)).
  { apply Hid. rewrite Hg. exact Hs. }
  assert (Hext : ~ In slash (chars (str_opt (SnapchatDL.media_type ty)))).
  { unfold SnapchatDL.media_type.
    destruct (eq ty (VStr "IMAGE")); [|destruct (eq ty (VStr "VIDEO"));
      [|destruct (eq ty (VStr "VIDEO_NO_SOUND"))]];
      cbn; intuition discriminate. }
  set (dt := utc_fields ts) in *. clearbody dt.
  unfold SnapchatDL.destination, join. cbn [fold_left].
  set (dir := join2 (join2 (SnapchatDL.directory_prefix self) username)
                     (SnapchatDL.date_text dt)).
  assert (Hne : dir <> EmptyString) by apply join2_date_nonempty.
  assert (Hend : endswith_char slash dir = false).
  { assert (Hdne : SnapchatDL.date_text dt <> EmptyString).
    { unfold SnapchatDL.date_text. destruct (str_of_Z (year dt)); discriminate. }
    subst dir.
    destruct (join2_relative (join2 (SnapchatDL.directory_prefix self) username)
                _ (date_text_start dt)) as [-> | ->].
    - rewrite endswith_char_append by exact Hdne. now apply date_text_end.
    - rewrite endswith_char_append by discriminate.
      change (String slash ?x) with (String slash EmptyString +:+ x).
      rewrite endswith_char_append by exact Hdne. now apply date_text_end. }
  unfold join2 at 1. rewrite file_name_no_slash, Hend.
  destruct dir as [|c dir'] eqn:Edir; [congruence|]. cbn [str_is_empty orb].
  apply dirname_append; [discriminate | exact Hend |].
  apply no_slash_file_name; auto using valid_username_no_slash.
Qed.

Lemma X17_story_lands_in_day_directory_witness :
  exists cap ts,
    getitem Examples.snap_b "captureTimeSecs" = Ok cap /\ int cap = Ok ts /\
    dirname "./bob/2020-06-29/2020-06-29_18-26-40 b2 bob.mp4" =
    join (SnapchatDL.directory_prefix Examples.config)
         ["bob"; SnapchatDL.date_text (utc_fields ts)].
Proof.
  apply (X17_story_lands_in_day_directory Examples.config "bob"
           Examples.snap_b (VStr "https://cdn/b")).
  - reflexivity.
  - vm_compute. reflexivity.
  - intros id_text H. vm_compute in H. injection H as <-.
    cbn. intuition discriminate.
Defined.




(** Splitting text at the first occurrence of a character. *)
Lemma split_at_first (c : ascii) (a1 a2 b1 b2 : string) :
  ~ In c (chars a1) -> ~ In c (chars a2) ->
  a1 +:+ String c b1 = a2 +:+ String c b2 -> a1 = a2 /\ b1 = b2.
Proof.
  revert a2. induction a1 as [|x a1 IH]; intros [|y a2] H1 H2 E.
  - change (EmptyString +:+ ?t) with t in E. now injection E.
  - change (EmptyString +:+ ?t) with t in E. rewrite append_cons in E.
    injection E as E _. subst y. cbn in H2. tauto.
  - change (EmptyString +:+ ?t) with t in E. rewrite append_cons in E.
    injection E as E _. subst x. cbn in H1. tauto.
  - rewrite !append_cons in E. injection E as -> E.
    cbn [chars In] in H1, H2.
    destruct (IH a2) as [-> ->]; [tauto | tauto | exact E | split; reflexivity].
Qed.

Lemma append_cancel_l (p s t : string) : p +:+ s = p +:+ t -> s = t.
Proof.
  induction p as [|c p IH]; [trivial|]. rewrite !append_cons.
  intros E. injection E as E. auto.
Qed.

Lemma length_append (s t : string) :
  String.length (s +:+ t) = (String.length s + String.length t)%nat.
Proof.
  induction s as [|c s IH]; [reflexivity|].
  rewrite append_cons. cbn [String.length]. now rewrite IH.
Qed.

(** Two texts of the same length that start the same two concatenations. *)
Lemma append_same_length (s1 s2 t1 t2 : string) :
  String.length s1 = String.length s2 ->
  s1 +:+ t1 = s2 +:+ t2 -> s1 = s2 /\ t1 = t2.
Proof.
  revert s2. induction s1 as [|c s1 IH]; intros [|d s2] Hl E;
    try discriminate Hl.
  - now split.
  - rewrite !append_cons in E. injection E as -> E. cbn in Hl.
    destruct (IH s2) as [-> ->]; [lia | exact E | split; reflexivity].
Qed.

Lemma digit_char_inj (n m : Z) :
  0 <= n <= 9 -> 0 <= m <= 9 -> digit_char n = digit_char m -> n = m.
Proof.
  intros Hn Hm E. apply (f_equal N_of_ascii) in E. unfold digit_char in E.
  rewrite !N_ascii_embedding in E by lia. lia.
Qed.

Lemma pad2_inj (n m : Z) :
  0 <= n <= 99 -> 0 <= m <= 99 -> pad2 n = pad2 m -> n = m.
Proof.
  intros Hn Hm E. rewrite !pad2_digits in E. injection E as E1 E2.
  apply digit_char_inj in E1; [|Z.div_mod_to_equations; lia ..].
  apply digit_char_inj in E2; [|Z.div_mod_to_equations; lia ..].
  Z.div_mod_to_equations. lia.
Qed.

Lemma str_of_Z_inj (n m : Z) : str_of_Z n = str_of_Z m -> n = m.
Proof.
  change (str_of_Z n) with (NilEmpty.string_of_int (Z.to_int n)).
  change (str_of_Z m) with (NilEmpty.string_of_int (Z.to_int m)).
  intros E. apply (f_equal NilEmpty.int_of_string) in E.
  rewrite !NilEmpty.isi in E. injection E as E.
  now apply DecimalZ.to_int_inj.
Qed.

Lemma no_dash_uint (u : Decimal.uint) :
  ~ In "-"%char (chars (NilEmpty.string_of_uint u)).
Proof.
  induction u; cbn [NilEmpty.string_of_uint chars In];
    [tauto | intros [H|H]; [discriminate H | auto] ..].
Qed.

Lemma no_dash_year (n : Z) : 0 <= n -> ~ In "-"%char (chars (str_of_Z n)).
Proof.
  intros Hn. change (str_of_Z n) with (NilEmpty.string_of_int (Z.to_int n)).
  destruct n as [|p|p]; [| |lia]; cbn [Z.to_int NilEmpty.string_of_int];
    apply no_dash_uint.
Qed.

(** The texts of the date and of the time determine the broken-down time. *)
Lemma date_time_text_inj (dt1 dt2 : datetime) (rest1 rest2 : string) :
  valid_datetime dt1 -> valid_datetime dt2 ->
  SnapchatDL.date_text dt1 = SnapchatDL.date_text dt2 ->
  SnapchatDL.time_text dt1 +:+ rest1 = SnapchatDL.time_text dt2 +:+ rest2 ->
  dt1 = dt2 /\ rest1 = rest2.
Proof.
  intros (Hy1 & Hm1 & Hd1 & Hh1 & Hmi1 & Hs1) (Hy2 & Hm2 & Hd2 & Hh2 & Hmi2 & Hs2).
  pose proof (days_in_month_bounds (year dt1) (month dt1)).
  pose proof (days_in_month_bounds (year dt2) (month dt2)).
  unfold SnapchatDL.date_text, SnapchatDL.time_text. intros Ed Et.
  destruct dt1 as [y1 m1 d1 h1 mi1 s1], dt2 as [y2 m2 d2 h2 mi2 s2].
  cbn [year month day hour minute second] in *.
  apply split_at_first in Ed as [Ey Ed]; [|apply no_dash_year; lia ..].
  apply str_of_Z_inj in Ey.
  apply append_same_length in Ed as [Em Ed];
    [|rewrite !pad2_digits; reflexivity].
  apply pad2_inj in Em; [|lia ..].
  apply (append_cancel_l "-") in Ed.
  apply pad2_inj in Ed; [|lia ..].
  rewrite !append_assoc in Et.
  apply append_same_length in Et as [Eh Et];
    [|rewrite !pad2_digits; reflexivity].
  apply pad2_inj in Eh; [|lia ..].
  apply (append_cancel_l "-") in Et.
  apply append_same_length in Et as [Emi Et];
    [|rewrite !pad2_digits; reflexivity].
  apply pad2_inj in Emi; [|lia ..].
  apply (append_cancel_l "-") in Et.
  apply append_same_length in Et as [Es Et];
    [|rewrite !pad2_digits; reflexivity].
  apply pad2_inj in Es; [|lia ..].
  subst. split; reflexivity.
Qed.

Lemma extension_length (ty : value) :
  String.length (str_opt (SnapchatDL.media_type ty)) = 4%nat.
Proof.
  unfold SnapchatDL.media_type.
  destruct (eq ty (VStr "IMAGE")); [reflexivity|].
  destruct (eq ty (VStr "VIDEO")); [reflexivity|].
  destruct (eq ty (VStr "VIDEO_NO_SOUND")); reflexivity.
Qed.

Lemma str_opt_inj (a b : option string) :
  (forall s, a = Some s -> startswith_char "." s = true) ->
  (forall s, b = Some s -> startswith_char "." s = true) ->
  str_opt a = str_opt b -> a = b.
Proof.
  intros Ha Hb E. destruct a as [s|], b as [t|]; cbn [str_opt] in E.
  - now subst.
  - specialize (Ha _ eq_refl). subst s. discriminate Ha.
  - specialize (Hb _ eq_refl). subst t. discriminate Hb.
  - reflexivity.
Qed.

Lemma media_type_dot (ty : value) (s : string) :
  SnapchatDL.media_type ty = Some s -> startswith_char "." s = true.
Proof.
  unfold SnapchatDL.media_type.
  destruct (eq ty (VStr "IMAGE")); [now intros [= <-]|].
  destruct (eq ty (VStr "VIDEO")); [now intros [= <-]|].
  destruct (eq ty (VStr "VIDEO_NO_SOUND")); [now intros [= <-] | discriminate].
Qed.

(** The destination, spelled out: what precedes the date depends on the
    prefix and the user name only. *)
Lemma destination_text (self : SnapchatDL.t) (username : string) :
  exists lead, forall (dt : datetime) (id_text ext : string),
    valid_datetime dt ->
    SnapchatDL.destination self username dt id_text ext =
    lead +:+ SnapchatDL.date_text dt
    +:+ String slash (SnapchatDL.file_name username dt id_text ext).
Proof.
  set (q := join2 (SnapchatDL.directory_prefix self) username).
  exists (if str_is_empty q || endswith_char slash q then q
          else q +:+ String slash EmptyString).
  intros dt id_text ext Hdt.
  assert (Hdne : SnapchatDL.date_text dt <> EmptyString).
  { unfold SnapchatDL.date_text. destruct (str_of_Z (year dt)); discriminate. }
  unfold SnapchatDL.destination, join. cbn [fold_left]. fold q.
  assert (Hdir : join2 q (SnapchatDL.date_text dt) =
                 (if str_is_empty q || endswith_char slash q then q
                  else q +:+ String slash EmptyString)
                 +:+ SnapchatDL.date_text dt).
  { unfold join2. rewrite date_text_start.
    destruct (str_is_empty q || endswith_char slash q); [reflexivity|].
    rewrite append_assoc. reflexivity. }
  rewrite Hdir.
  set (lead := if str_is_empty q || endswith_char slash q then q
               else q +:+ String slash EmptyString).
  unfold join2. rewrite file_name_no_slash.
  assert (Hend : endswith_char slash (lead +:+ SnapchatDL.date_text dt) = false).
  { rewrite endswith_char_append by exact Hdne. now apply date_text_end. }
  rewrite Hend, orb_false_r.
  destruct (lead +:+ SnapchatDL.date_text dt) eqn:E.
  - destruct lead; [change (EmptyString +:+ ?x) with x in E; congruence
                   | discriminate E].
  - cbn [str_is_empty]. rewrite <- E. apply append_assoc.
Qed.

(** X18: different stories never share a file.  When two stories of a user
    are given the same destination, they were captured in the same second,
    their [id]s print the same and their media types have the same
    extension. *)
Theorem X18_same_destination_same_story
    (self : SnapchatDL.t) (username : string) (media1 media2 url1 url2 : value)
    (dest : string) :
  SnapchatDL.media_task self username media1 = Ok (url1, dest) ->
  SnapchatDL.media_task self username media2 = Ok (url2, dest) ->
  rbind (getitem media1 "captureTimeSecs") int =
  rbind (getitem media2 "captureTimeSecs") int /\
  rbind (get media1 "id") str = rbind (get media2 "id") str /\
  rbind (rbind (getitem media1 "media") (fun m => getitem m "type"))
        (fun ty => Ok (SnapchatDL.media_type ty)) =
  rbind (rbind (getitem media2 "media") (fun m => getitem m "type"))
        (fun ty => Ok (SnapchatDL.media_type ty)).
Proof.
  intros H1 H2.
  apply media_task_inv in H1
    as (m1 & cap1 & ts1 & ty1 & id1 & text1 &
        Hm1 & _ & Hc1 & Hi1 & Hr1 & Hty1 & Hg1 & Hs1 & Hd1).
  apply media_task_inv in H2
    as (m2 & cap2 & ts2 & ty2 & id2 & text2 &
        Hm2 & _ & Hc2 & Hi2 & Hr2 & Hty2 & Hg2 & Hs2 & Hd2).
  rewrite Hc1, Hc2, Hg1, Hg2, Hm1, Hm2. cbn [rbind].
  rewrite Hi1, Hi2, Hs1, Hs2, Hty1, Hty2. cbn [rbind].
  pose proof (utc_fields_valid ts1 Hr1) as Hv1.
  pose proof (utc_fields_valid ts2 Hr2) as Hv2.
  pose proof (proj1 (utc_fields_timegm ts1)) as Hg1'.
  pose proof (proj1 (utc_fields_timegm ts2)) as Hg2'.
  destruct (destination_text self username) as [lead Hlead].
  rewrite (Hlead _ _ _ Hv1) in Hd1. rewrite (Hlead _ _ _ Hv2) in Hd2.
  set (dt1 := utc_fields ts1) in *. set (dt2 := utc_fields ts2) in *.
  clearbody dt1 dt2. rewrite Hd1 in Hd2. clear Hd1.
  apply append_cancel_l in Hd2.
  assert (Hns : forall dt, valid_datetime dt ->
            ~ In slash (chars (SnapchatDL.date_text dt))).
  { intros dt (Hy & Hm & Hd & _).
    pose proof (days_in_month_bounds (year dt) (month dt)).
    unfold SnapchatDL.date_text.
    assert (Hc : ~ In slash (chars "-")) by (intros [E|[]]; discriminate E).
    repeat apply no_slash_append;
      first [apply no_slash_str_of_Z | apply no_slash_pad2; lia | exact Hc]. }
  apply split_at_first in Hd2 as [Edate Ename]; [|now apply Hns ..].
  unfold SnapchatDL.file_name in Ename. rewrite Edate in Ename.
  apply append_cancel_l in Ename.
  apply (append_cancel_l "_") in Ename.
  apply date_time_text_inj in Ename as [Edt Erest]; [|assumption ..].
  subst dt2. assert (Ets : ts1 = ts2) by congruence. subst ts2.
  apply (append_cancel_l " ") in Erest.
  assert (Hl : String.length text1 = String.length text2).
  { apply (f_equal String.length) in Erest.
    rewrite !length_append, !extension_length in Erest. lia. }
  apply append_same_length in Erest as [Etext Eext]; [|exact Hl].
  subst text2.
  apply (append_cancel_l " ") in Eext. apply append_cancel_l in Eext.
  apply str_opt_inj in Eext; [| apply media_type_dot ..].
  rewrite Eext, Hg1'. repeat split.
Qed.

Lemma X18_same_destination_same_story_witness :
  rbind (getitem Examples.snap_a "captureTimeSecs") int =
  rbind (getitem (VDict [("captureTimeSecs", VInt 1593455123);
                         ("media", VDict [("type", VStr "IMAGE");
                                          ("mediaUrl", VStr "https://cdn/z")]);
                         ("id", VStr "a1")]) "captureTimeSecs") int /\
  rbind (get Examples.snap_a "id") str =
  rbind (get (VDict [("captureTimeSecs", VInt 1593455123);
                     ("media", VDict [("type", VStr "IMAGE");
                                      ("mediaUrl", VStr "https://cdn/z")]);
                     ("id", VStr "a1")]) "id") str /\
  rbind (rbind (getitem Examples.snap_a "media") (fun m => getitem m "type"))
        (fun ty => Ok (SnapchatDL.media_type ty)) =
  rbind (rbind (getitem (VDict [("captureTimeSecs", VInt 1593455123);
                                ("media", VDict [("type", VStr "IMAGE");
                                   ("mediaUrl", VStr "https://cdn/z")]);
                                ("id", VStr "a1")]) "media")
               (fun m => getitem m "type"))
        (fun ty => Ok (SnapchatDL.media_type ty)).
Proof.
  apply (X18_same_destination_same_story Examples.config "bob"
           Examples.snap_a
           (VDict [("captureTimeSecs", VInt 1593455123);
                   ("media", VDict [("type", VStr "IMAGE");
                                    ("mediaUrl", VStr "https://cdn/z")]);
                   ("id", VStr "a1")])
           (VStr "https://cdn/a") (VStr "https://cdn/z")
           "./bob/2020-06-29/2020-06-29_18-25-23 a1 bob.jpg");
    vm_compute; reflexivity.
Defined.

(** ** Collecting user names on the command line *)

Lemma chars_of_chars (l : list ascii) : chars (of_chars l) = l.
Proof. induction l as [|c l IH]; [reflexivity | cbn; now rewrite IH]. Qed.

Lemma of_chars_app (a b : list ascii) :
  of_chars (a ++ b) = of_chars a +:+ of_chars b.
Proof.
  induction a as [|c a IH]; [reflexivity|].
  cbn [app of_chars]. now rewrite append_cons, IH.
Qed.

Lemma str_rev_involutive (s : string) : str_rev (str_rev s) = s.
Proof.
  unfold str_rev. now rewrite chars_of_chars, rev_involutive, of_chars_chars.
Qed.

Lemma str_rev_cons (c : ascii) (s : string) :
  str_rev (String c s) = str_rev s +:+ String c EmptyString.
Proof. unfold str_rev. cbn [chars rev]. now rewrite of_chars_app. Qed.

Lemma str_rev_snoc (c : ascii) (s : string) :
  str_rev (s +:+ String c EmptyString) = String c (str_rev s).
Proof.
  unfold str_rev. rewrite chars_append. cbn [chars].
  now rewrite rev_app_distr.
Qed.

Lemma lstrip_idempotent (s : string) : lstrip (lstrip s) = lstrip s.
Proof.
  induction s as [|c s IH]; [reflexivity|]. cbn [lstrip].
  destruct (isspace c) eqn:E; [exact IH|]. cbn [lstrip]. now rewrite E.
Qed.

Lemma lstrip_snoc (c : ascii) (s : string) :
  isspace c = false ->
  lstrip (s +:+ String c EmptyString) = lstrip s +:+ String c EmptyString.
Proof.
  intros Hc. induction s as [|d s IH].
  - change (EmptyString +:+ ?x) with x. cbn [lstrip]. now rewrite Hc.
  - rewrite append_cons. cbn [lstrip]. destruct (isspace d); [exact IH|].
    now rewrite append_cons.
Qed.

Lemma lstrip_head (s : string) :
  lstrip s = EmptyString \/
  exists c t, lstrip s = String c t /\ isspace c = false.
Proof.
  induction s as [|c s IH]; [now left|]. cbn [lstrip].
  destruct (isspace c) eqn:E; [exact IH|]. right. eauto.
Qed.

Lemma strip_idempotent (s : string) : strip (strip s) = strip s.
Proof.
  unfold strip. destruct (lstrip_head s) as [-> | (c & t & -> & Hc)].
  - reflexivity.
  - rewrite str_rev_cons, (lstrip_snoc c _ Hc), str_rev_snoc.
    cbn [lstrip]. rewrite Hc.
    rewrite str_rev_cons, (lstrip_snoc c _ Hc), str_rev_involutive.
    now rewrite str_rev_snoc, lstrip_idempotent.
Qed.

Lemma In_lstrip (a : ascii) (s : string) :
  In a (chars (lstrip s)) -> In a (chars s).
Proof.
  induction s as [|c s IH]; [trivial|]. cbn [lstrip].
  destruct (isspace c); [|trivial]. intros H. right. auto.
Qed.

Lemma In_str_rev (a : ascii) (s : string) :
  In a (chars (str_rev s)) <-> In a (chars s).
Proof.
  unfold str_rev. rewrite chars_of_chars. symmetry. apply in_rev.
Qed.

Lemma In_strip (a : ascii) (s : string) :
  In a (chars (strip s)) -> In a (chars s).
Proof.
  unfold strip. intros H. apply In_str_rev, In_lstrip, In_str_rev, In_lstrip in H.
  exact H.
Qed.

Lemma split_nonempty (sep : ascii) (s : string) : Cli.split sep s <> [].
Proof.
  induction s as [|c s IH]; [discriminate|]. cbn [Cli.split].
  destruct (Ascii.eqb c sep); [discriminate|].
  destruct (Cli.split sep s); discriminate.
Qed.

Lemma split_pieces (sep : ascii) (s : string) :
  Forall (fun piece => ~ In sep (chars piece)) (Cli.split sep s).
Proof.
  induction s as [|c s IH]; [repeat constructor; intros []|].
  cbn [Cli.split]. destruct (Ascii.eqb_spec c sep) as [->|Hne].
  - constructor; [intros [] | exact IH].
  - destruct (Cli.split sep s) as [|piece pieces].
    + repeat constructor. intros [E|[]]. congruence.
    + inversion IH as [|? ? Hp Hps]; subst. constructor; [|exact Hps].
      intros [E|Hin]; [congruence | exact (Hp Hin)].
Qed.

Lemma split_line (sep : ascii) (name rest : string) :
  ~ In sep (chars name) ->
  Cli.split sep (name +:+ String sep rest) = name :: Cli.split sep rest.
Proof.
  induction name as [|c name IH]; intros H.
  - change (EmptyString +:+ ?x) with x. cbn [Cli.split].
    now rewrite Ascii.eqb_refl.
  - rewrite append_cons. cbn [Cli.split]. cbn [chars In] in H.
    destruct (Ascii.eqb_spec c sep) as [->|_]; [tauto|].
    rewrite IH by tauto. reflexivity.
Qed.

Lemma split_lines (names : list string) :
  Forall Cli.stripped names ->
  Cli.split Cli.newline (Cli.lines names) = names ++ [EmptyString].
Proof.
  induction 1 as [|name names (_ & _ & Hn) _ IH]; [reflexivity|].
  cbn [Cli.lines fold_right app]. rewrite (split_line _ _ _ Hn).
  f_equal. exact IH.
Qed.

Lemma length_positive (s : string) :
  (Z.of_nat (String.length s) >? 0) = negb (str_is_empty s).
Proof. destruct s; reflexivity. Qed.

Lemma batch_fold (pieces usernames : list string) :
  fold_left
    (fun usernames username =>
       if Z.of_nat (String.length (strip username)) >? 0
       then usernames ++ [strip username]
       else usernames)
    pieces usernames
  = usernames ++
    List.filter (fun name => negb (str_is_empty name)) (map strip pieces).
Proof.
  revert usernames. induction pieces as [|piece pieces IH]; intros usernames.
  - cbn. now rewrite app_nil_r.
  - cbn [fold_left map List.filter]. rewrite length_positive.
    destruct (strip piece) as [|c t]; cbn [str_is_empty negb];
      rewrite IH; [reflexivity | now rewrite <- app_assoc].
Qed.

Lemma batch_names (pieces : list string) :
  Forall (fun piece => ~ In Cli.newline (chars piece)) pieces ->
  Forall Cli.stripped
    (List.filter (fun name => negb (str_is_empty name)) (map strip pieces)).
Proof.
  induction 1 as [|piece pieces Hp _ IH]; [constructor|].
  cbn [map List.filter].
  destruct (strip piece) as [|c t] eqn:E; cbn [str_is_empty negb];
    [exact IH|].
  constructor; [|exact IH]. rewrite <- E.
  split; [rewrite E; discriminate|].
  split; [apply strip_idempotent|].
  intros Hn. apply In_strip in Hn. exact (Hp Hn).
Qed.

(** X19: the batch pass keeps the names of the command line in front and
    appends, in the order of the file and as often as they occur, the lines
    of the file that are not blank, each stripped.  The names it appends are
    not empty and carry no newline and no white space around them. *)
Theorem X19_batch_names_are_stripped (text : string) (usernames : list string) :
  Cli.batch_file_usernames text usernames
  = usernames ++
    List.filter (fun name => negb (str_is_empty name))
                (map strip (Cli.split Cli.newline text)) /\
  Forall Cli.stripped
    (List.filter (fun name => negb (str_is_empty name))
                 (map strip (Cli.split Cli.newline text))).
Proof.
  split; [apply batch_fold | apply batch_names, split_pieces].
Qed.

(** X20: reading back a list of names.  A file that holds one stripped name
    per line gives exactly these names, in the order of the file, after the
    names of the command line; names that occur twice are kept twice. *)
Theorem X20_batch_file_round_trip (names usernames : list string) :
  Forall Cli.stripped names ->
  Cli.batch_file_usernames (Cli.lines names) usernames = usernames ++ names.
Proof.
  intros H. unfold Cli.batch_file_usernames. rewrite (split_lines names H).
  rewrite fold_left_app. cbn [fold_left].
  change (strip EmptyString) with EmptyString. cbn [String.length].
  change (Z.of_nat 0 >? 0) with false. cbv iota.
  revert usernames. induction H as [|name names (Hne & Hs & _) _ IH];
    intros usernames.
  - cbn. now rewrite app_nil_r.
  - cbn [fold_left]. rewrite Hs, length_positive.
    destruct name; [congruence|]. cbn [str_is_empty negb].
    rewrite IH, <- app_assoc. reflexivity.
Qed.

Lemma X20_batch_file_round_trip_witness :
  Cli.batch_file_usernames (Cli.lines ["bob"; "al ice"; "bob"]) ["carol"]
  = ["carol"] ++ ["bob"; "al ice"; "bob"].
Proof.
  apply (X20_batch_file_round_trip ["bob"; "al ice"; "bob"] ["carol"]).
  repeat constructor; try discriminate; cbn; intuition discriminate.
Defined.

Lemma contains_In (l : list string) (x : string) :
  Cli.contains l x = true <-> In x l.
Proof.
  unfold Cli.contains. rewrite existsb_exists. split.
  - intros (y & Hy & E). apply String.eqb_eq in E. now subst.
  - intros H. exists x. split; [exact H | apply String.eqb_refl].
Qed.

Lemma scan_fold (dirs : list string) :
  forall (usernames : list string) (count : Z), exists added,
    fold_left
      (fun state username =>
         if negb (Cli.contains (fst state) username)
         then (fst state ++ [username], snd state + 1)
         else state)
      dirs (usernames, count)
    = (usernames ++ added, count + Z.of_nat (List.length added)) /\
    List.NoDup added /\
    (forall o, In o added <-> In o dirs /\ ~ In o usernames).
Proof.
  induction dirs as [|d dirs IH]; intros usernames count.
  - exists []. cbn [fold_left List.length]. rewrite app_nil_r, Z.add_0_r.
    split; [reflexivity|]. split; [constructor|]. cbn. tauto.
  - cbn [fold_left fst snd].
    destruct (Cli.contains usernames d) eqn:E; cbn [negb].
    + apply contains_In in E.
      destruct (IH usernames count) as (added & -> & Hnd & Hin).
      exists added. split; [reflexivity|]. split; [exact Hnd|].
      intros o. rewrite Hin. cbn [In]. split; [tauto|].
      intros ([<-|Ho] & Hn); tauto.
    + assert (Hd : ~ In d usernames).
      { intros Hd. apply contains_In in Hd. congruence. }
      destruct (IH (usernames ++ [d]) (count + 1)) as (added & -> & Hnd & Hin).
      exists (d :: added). rewrite <- app_assoc. cbn [app List.length].
      split; [f_equal; lia|]. split.
      * constructor; [|exact Hnd]. intros Hc. apply Hin in Hc as [_ Hc].
        apply Hc, in_or_app. right. now left.
      * intros o. cbn [In]. rewrite Hin. rewrite in_app_iff. cbn [In].
        destruct (String.string_dec d o) as [<-|Hne]; tauto.
Qed.

(** X21: the scan of the prefix directory keeps the names it was given, in
    front and in their order, and appends each directory of the prefix that
    is not among them, once, even when the listing repeats it; [count] is
    the number of names appended. *)
Theorem X21_scan_adds_each_directory_once
    (entries : list string) (isdir : string -> bool) (usernames : list string) :
  exists added,
    Cli.scan_prefix_usernames entries isdir usernames
    = (usernames ++ added, Z.of_nat (List.length added)) /\
    List.NoDup added /\
    (forall o, In o added <->
               In o entries /\ isdir o = true /\ o <> "." /\ o <> ".." /\
               ~ In o usernames).
Proof.
  unfold Cli.scan_prefix_usernames.
  destruct (scan_fold
    (List.filter (fun o => isdir o && negb (Cli.contains ["."; ".."] o)) entries)
    usernames 0) as (added & E & Hnd & Hin).
  exists added. split; [exact E|]. split; [exact Hnd|].
  intros o. rewrite Hin, filter_In, andb_true_iff, negb_true_iff.
  assert (Hc : Cli.contains ["."; ".."] o = false <-> o <> "." /\ o <> "..").
  { rewrite <- not_true_iff_false, contains_In. cbn [In].
    split; [intros H; split; intros ->; tauto | intros [H1 H2] [H|[H|[]]]; congruence]. }
  rewrite Hc. tauto.
Qed.
